(** * Calibre wireless protocol engine of the CrossPoint reader

    A shallow embedding of [src/activities/network/CalibreWirelessActivity.cpp]
    (framing codec, command dispatcher, transfer session, discovery exchange,
    display and teardown) and of the drawing primitives of
    [lib/GfxRenderer/GfxRenderer.cpp], and the properties proved on them.

    Conventions of the embedding.
    - A [std::string] and a byte buffer are a [list ascii]; positions and
      lengths inside a string are [nat], and [std::string::npos] is [None].
    - [size_t], [unsigned long] and [int] are 32 bits wide on the ESP32; a
      value of such a type is a [Z], and the places where the width shows
      (the range checks of [std::stoi], [std::stoul] and [strtoul], the cast
      to [uint16_t], the transfer counters) are written out.
    - A C++ exception is a [Throw]: nothing in the file catches one, so a
      [Throw] that reaches a task loop ends the firmware.
    - The socket, the SD card and the scheduler are explicit parts of the
      state, or explicit inputs of a step.  The socket library is not part
      of the files: what its [flush()] does to the bytes received and not
      yet read is a field of the socket, and the properties hold for both
      behaviours unless they say which.
    - What [render] does is the list of the calls it makes on the renderer.
      The frame buffer of [GfxRenderer] is a list of bytes; a write outside
      it is an outcome of its own, and the constants of the panel, which
      come from [EInkDisplay], are inputs. *)

From Stdlib Require Import ZArith Lia Bool Ascii String Arith DecimalString.
From Stdlib Require Import DecimalFacts DecimalPos DecimalN.
From Stdlib Require Import List.
Import ListNotations.

Open Scope Z_scope.

(** ** Byte strings *)

Definition bytes := list ascii.

(** The characters that a literal of this file cannot hold as they are. *)
Definition dquote : ascii := "034"%char.
Definition nl : ascii := "010"%char.
Definition tab : ascii := "009"%char.

(** A string literal of the source.  The double quote of a C++ literal is
    written as an apostrophe here ([lit "{'count':0}"] is the text
    [{"count":0}]); no literal of the source holds an apostrophe. *)
Definition lit (s : string) : bytes :=
  map (fun c => if Ascii.eqb c "'" then dquote else c) (list_ascii_of_string s).

Module Str.

Definition size (s : bytes) : Z := Z.of_nat (length s).

Definition empty (s : bytes) : bool :=
  match s with [] => true | _ => false end.

(** [s.substr(pos, n)] and [s.substr(pos)]; every call of the source has
    [pos <= s.size()], so the [out_of_range] of [substr] never arises. *)
Definition substr (pos n : nat) (s : bytes) : bytes := firstn n (skipn pos s).
Definition substr_from (pos : nat) (s : bytes) : bytes := skipn pos s.

(** [s.find(c)]: the position of the first [c]. *)
Fixpoint find (c : ascii) (s : bytes) : option nat :=
  match s with
  | [] => None
  | x :: r => if Ascii.eqb x c then Some O else option_map S (find c r)
  end.

(** [s.find(c, pos)]. *)
Definition find_from (c : ascii) (pos : nat) (s : bytes) : option nat :=
  option_map (Nat.add pos) (find c (skipn pos s)).

(** [s.rfind(c)]: the position of the last [c]. *)
Fixpoint rfind (c : ascii) (s : bytes) : option nat :=
  match s with
  | [] => None
  | x :: r =>
      match rfind c r with
      | Some i => Some (S i)
      | None => if Ascii.eqb x c then Some O else None
      end
  end.

Fixpoint starts_with (pat s : bytes) : bool :=
  match pat, s with
  | [], _ => true
  | _ :: _, [] => false
  | p :: pat', x :: s' => Ascii.eqb p x && starts_with pat' s'
  end.

(** [s.find(pat)] for a string pattern. *)
Fixpoint find_str (pat s : bytes) : option nat :=
  if starts_with pat s then Some O
  else match s with
       | [] => None
       | _ :: r => option_map S (find_str pat r)
       end.

Definition eqb (a b : bytes) : bool :=
  if list_eq_dec ascii_dec a b then true else false.

End Str.

(** ** Exceptions and results *)

Inductive Exn : Type :=
| invalid_argument   (* std::invalid_argument *)
| out_of_range.      (* std::out_of_range *)

(** The outcome of running a piece of the source: it returns, it throws, or
    (for the one loop of the file whose exit depends on the state,
    [bufferedWrite]) it is still running when the bound of the model is
    used up. *)
Inductive Result (A : Type) : Type :=
| Ok (a : A)
| Throw (e : Exn)
| Spin.

Arguments Ok {A} a.
Arguments Throw {A} e.
Arguments Spin {A}.

Definition bind {A B : Type} (r : Result A) (k : A -> Result B) : Result B :=
  match r with
  | Ok a => k a
  | Throw e => Throw e
  | Spin => Spin
  end.

Notation "x <- r ;; k" := (bind r (fun x => k))
  (at level 61, r at next level, right associativity).
Notation "' p <- r ;; k" := (bind r (fun x => let 'p := x in k))
  (at level 61, p pattern, r at next level, right associativity).

(** ** Numbers in text *)

Definition UINT32_MAX : Z := 4294967295.   (* ULONG_MAX and SIZE_MAX *)
Definition INT_MAX : Z := 2147483647.
Definition INT_MIN : Z := -2147483648.

Definition is_digit (c : ascii) : bool :=
  negb ((c <? "0")%char || ("9" <? c)%char).

Definition digit_val (c : ascii) : Z := Z.of_nat (nat_of_ascii c) - 48.

Definition decimal (ds : bytes) : Z :=
  fold_left (fun acc c => acc * 10 + digit_val c) ds 0.

(** [isspace] of the C locale. *)
Definition is_space (c : ascii) : bool :=
  let n := nat_of_ascii c in
  (n =? 32)%nat || ((9 <=? n)%nat && (n <=? 13)%nat).

Fixpoint skip_space (s : bytes) : bytes :=
  match s with
  | c :: r => if is_space c then skip_space r else s
  | [] => []
  end.

Fixpoint take_digits (s : bytes) : bytes :=
  match s with
  | c :: r => if is_digit c then c :: take_digits r else []
  | [] => []
  end.

Fixpoint drop_digits (s : bytes) : bytes :=
  match s with
  | c :: r => if is_digit c then drop_digits r else s
  | [] => []
  end.

(** The subject sequence of [strtol]/[strtoul] in base 10: white space, an
    optional sign, digits. *)
Definition split_sign (s : bytes) : bool * bytes :=
  match s with
  | "-"%char :: r => (true, r)
  | "+"%char :: r => (false, r)
  | _ => (false, s)
  end.

(** [std::stoi(s)] ([strtol], then the range of [int]). *)
Definition stoi (s : bytes) : Result Z :=
  let '(neg, r) := split_sign (skip_space s) in
  match take_digits r with
  | [] => Throw invalid_argument
  | ds =>
      let v := if neg then - decimal ds else decimal ds in
      if (v <? INT_MIN) || (INT_MAX <? v) then Throw out_of_range else Ok v
  end.

(** [std::stoul(s)] ([strtoul], [out_of_range] on [ERANGE]). *)
Definition stoul (s : bytes) : Result Z :=
  let '(neg, r) := split_sign (skip_space s) in
  match take_digits r with
  | [] => Throw invalid_argument
  | ds =>
      let v := decimal ds in
      if UINT32_MAX <? v then Throw out_of_range
      else Ok (if neg then (- v) mod (UINT32_MAX + 1) else v)
  end.

(** [strtoul(s, &endPtr, 10)]: the value, saturated at [ULONG_MAX], and the
    text [endPtr] points to. *)
Definition strtoul (s : bytes) : Z * bytes :=
  let '(neg, r) := split_sign (skip_space s) in
  match take_digits r with
  | [] => (0, s)
  | ds =>
      let v := decimal ds in
      (if UINT32_MAX <? v then UINT32_MAX
       else if neg then (- v) mod (UINT32_MAX + 1) else v,
       drop_digits r)
  end.

(** [std::to_string(n)] and [%llu] for a value that is not negative. *)
Definition to_string (n : Z) : bytes :=
  list_ascii_of_string (NilZero.string_of_uint (N.to_uint (Z.to_N n))).

(** [static_cast<uint16_t>(n)]. *)
Definition to_uint16 (n : Z) : Z := n mod 65536.

(** ** Framing codec: [readJsonMessage] *)

Definition RECV_BUFFER_CAP : Z := 100000.
Definition NO_BRACKET_LIMIT : Z := 1000.
Definition MAX_MESSAGE_LEN : Z := 1000000.

(** The read loop.  [tcpClient.read(buf, toRead)] hands over the first
    [toRead] pending bytes of the socket ([rx]), or fewer when fewer are
    pending.  Every round that goes on consumes a byte, so [length rx + 1]
    rounds are enough ([readLoop_all]). *)
Fixpoint readLoop (rounds : nat) (available : Z) (rx recvBuffer : bytes)
  : bytes * bytes :=
  match rounds with
  | O => (rx, recvBuffer)
  | S rounds' =>
      if 0 <? available then
        let toRead := Z.min available 1024 in
        let chunk := firstn (Z.to_nat toRead) rx in
        let bytesRead := Str.size chunk in
        if 0 <? bytesRead then
          readLoop rounds' (available - bytesRead)
                   (skipn (Z.to_nat toRead) rx) (recvBuffer ++ chunk)
        else (rx, recvBuffer)
      else (rx, recvBuffer)
  end.

(** The length prefix: [Some msgLen] when [validPrefix] is set. *)
Definition lengthPrefix (bracketPos : nat) (recvBuffer : bytes)
  : Result (option Z) :=
  if (0 <? bracketPos)%nat && (bracketPos <=? 12)%nat then
    if forallb is_digit (firstn bracketPos recvBuffer) then
      msgLen <- stoul (Str.substr 0 bracketPos recvBuffer) ;;
      Ok (Some msgLen)
    else Ok None
  else Ok None.

(** The part of [readJsonMessage] after the socket has been read. *)
Definition extractMessage (recvBuffer : bytes) : Result (option bytes * bytes) :=
  if Str.empty recvBuffer then Ok (None, recvBuffer)
  else
    match Str.find "[" recvBuffer with
    | None =>
        if NO_BRACKET_LIMIT <? Str.size recvBuffer then Ok (None, [])
        else Ok (None, recvBuffer)
    | Some bracketPos =>
        prefix <- lengthPrefix bracketPos recvBuffer ;;
        match prefix with
        | None =>
            if (0 <? bracketPos)%nat
            then Ok (None, Str.substr_from bracketPos recvBuffer)
            else Ok (None, recvBuffer)
        | Some msgLen =>
            if MAX_MESSAGE_LEN <? msgLen then
              Ok (None, Str.substr_from (bracketPos + 1) recvBuffer)
            else
              let totalNeeded := Z.of_nat bracketPos + msgLen in
              if Str.size recvBuffer <? totalNeeded then Ok (None, recvBuffer)
              else
                let message := Str.substr bracketPos (Z.to_nat msgLen) recvBuffer in
                if totalNeeded <? Str.size recvBuffer
                then Ok (Some message,
                         Str.substr_from (Z.to_nat totalNeeded) recvBuffer)
                else Ok (Some message, [])
        end
    end.

(** [readJsonMessage]: [rx] is what the socket holds; the result is the
    message (when the source returns [true]), what is left on the socket and
    the new [recvBuffer]. *)
Definition readJsonMessage (rx recvBuffer : bytes)
  : Result (option bytes * (bytes * bytes)) :=
  let available := Str.size rx in
  if (0 <? available) && (RECV_BUFFER_CAP <? Str.size recvBuffer) then
    Ok (None, (rx, []))
  else
    let '(rx1, buf1) :=
      if 0 <? available
      then readLoop (S (length rx)) available rx recvBuffer
      else (rx, recvBuffer) in
    '(message, buf2) <- extractMessage buf1 ;;
    Ok (message, (rx1, buf2)).

(** ** Collaborators: the socket and the SD card *)

(** [tcpClient]: the bytes received and not yet read, whether the peer is
    connected, and every [write] made so far, oldest first.  [available()]
    is the number of bytes in [rx]; [read(buf, n)] hands over the first [n]
    of them, or all of them when there are fewer, and does not fail.
    [flushClearsRx] is what the [flush()] of the socket library does, which
    is not part of the files: the [WiFiClient] of the Arduino core for the
    ESP32 has thrown away the bytes received and not yet read in some of
    its versions ([true]) and left them alone in others ([false]). *)
Record Tcp : Type := mkTcp {
  rx : bytes;
  connected : bool;
  tx : list bytes;
  flushClearsRx : bool
}.

(** The card under [SdMan] and [FsFile].  [openOk]: [openFileForWrite]
    succeeds.  [writeScript]: the values the next calls of [write] return,
    each cut to the range from 0 to the length asked for; once the script is
    used up every write is complete.  [freeBytes]: the largest size
    [preAllocate] grants. *)
Record SdCard : Type := mkSdCard {
  openOk : bool;
  writeScript : list Z;
  freeBytes : Z
}.

(** [currentFile]: [isOpen] is its [operator bool]; [written] is what went
    through the handle since it was opened. *)
Record FsFile : Type := mkFsFile {
  isOpen : bool;
  written : bytes
}.

Definition closedFile : FsFile := mkFsFile false [].

(** ** Transfer session: the write-coalescing buffer *)

Definition WRITE_BUFFER_SIZE : Z := 4096.

(** The statics of the file and what they reach: [writeBuffer] holds the
    first [writeBufferPos] bytes of the array, [currentWriteFile] is either
    [nullptr] or [&currentFile]. *)
Record Sink : Type := mkSink {
  writeBuffer : bytes;
  currentWriteFile : bool;
  currentFile : FsFile;
  card : SdCard
}.

Definition writeBufferPos (k : Sink) : Z := Str.size (writeBuffer k).

Definition set_writeBuffer (b : bytes) (k : Sink) : Sink :=
  mkSink b (currentWriteFile k) (currentFile k) (card k).
Definition set_currentWriteFile (p : bool) (k : Sink) : Sink :=
  mkSink (writeBuffer k) p (currentFile k) (card k).
Definition set_currentFile (f : FsFile) (k : Sink) : Sink :=
  mkSink (writeBuffer k) (currentWriteFile k) f (card k).
Definition set_card (c : SdCard) (k : Sink) : Sink :=
  mkSink (writeBuffer k) (currentWriteFile k) (currentFile k) c.

(** [currentWriteFile->write(writeBuffer, writeBufferPos)]. *)
Definition fileWrite (k : Sink) : Z * Sink :=
  let requested := writeBufferPos k in
  let '(n, script) :=
    match writeScript (card k) with
    | [] => (requested, [])
    | r :: script' => (Z.max 0 (Z.min r requested), script')
    end in
  (n,
   set_card (mkSdCard (openOk (card k)) script (freeBytes (card k)))
     (set_currentFile
        (mkFsFile (isOpen (currentFile k))
           (written (currentFile k) ++ firstn (Z.to_nat n) (writeBuffer k)))
        k)).

Definition flushWriteBuffer (k : Sink) : bool * Sink :=
  if (0 <? writeBufferPos k) && currentWriteFile k && isOpen (currentFile k) then
    let '(n, k1) := fileWrite k in
    if negb (n =? writeBufferPos k) then (false, set_writeBuffer [] k1)
    else (true, set_writeBuffer [] k1)
  else (true, k).

(** The loop of [bufferedWrite]; [rounds] bounds the number of rounds. *)
Fixpoint bufferedWrite_loop (rounds : nat) (data : bytes) (k : Sink)
  : Result (bool * Sink) :=
  match rounds with
  | O => Spin
  | S rounds' =>
      if 0 <? Str.size data then
        let space := WRITE_BUFFER_SIZE - writeBufferPos k in
        let toCopy := Z.to_nat (Z.min space (Str.size data)) in
        let k1 := set_writeBuffer (writeBuffer k ++ firstn toCopy data) k in
        let data' := skipn toCopy data in
        if WRITE_BUFFER_SIZE <=? writeBufferPos k1 then
          let '(ok, k2) := flushWriteBuffer k1 in
          if ok then bufferedWrite_loop rounds' data' k2 else Ok (false, k2)
        else bufferedWrite_loop rounds' data' k1
      else Ok (true, k)
  end.

(** [bufferedWrite(data, len)].  While the file is open a round that does
    not end the loop takes at least one byte, so [length data + 1] rounds
    are enough ([bufferedWrite_returns]); with the file closed and the
    buffer full the loop of the source never ends, and the result is
    [Spin]. *)
Definition bufferedWrite (data : bytes) (k : Sink) : Result (bool * Sink) :=
  bufferedWrite_loop (S (length data)) data k.

(** ** The activity *)

Module WirelessState.
Inductive t : Type :=
| DISCOVERING | CONNECTING | WAITING | RECEIVING
| COMPLETE | DISCONNECTED | ERROR.
End WirelessState.

Module OpCode.
(** [enum OpCode : uint8_t]; [static_cast<OpCode>] of a number that names
    no enumerator is [Raw]. *)
Inductive t : Type :=
| OK | SET_CALIBRE_DEVICE_INFO | SET_CALIBRE_DEVICE_NAME
| GET_DEVICE_INFORMATION | TOTAL_SPACE | FREE_SPACE | GET_BOOK_COUNT
| SEND_BOOKLISTS | SEND_BOOK | GET_INITIALIZATION_INFO | BOOK_DONE | NOOP
| DELETE_BOOK | GET_BOOK_FILE_SEGMENT | GET_BOOK_METADATA
| SEND_BOOK_METADATA | DISPLAY_MESSAGE | CALIBRE_BUSY | SET_LIBRARY_INFO
| ERROR | Raw (n : Z).

Definition to_int (o : t) : Z :=
  match o with
  | OK => 0 | SET_CALIBRE_DEVICE_INFO => 1 | SET_CALIBRE_DEVICE_NAME => 2
  | GET_DEVICE_INFORMATION => 3 | TOTAL_SPACE => 4 | FREE_SPACE => 5
  | GET_BOOK_COUNT => 6 | SEND_BOOKLISTS => 7 | SEND_BOOK => 8
  | GET_INITIALIZATION_INFO => 9 | BOOK_DONE => 11 | NOOP => 12
  | DELETE_BOOK => 13 | GET_BOOK_FILE_SEGMENT => 14
  | GET_BOOK_METADATA => 15 | SEND_BOOK_METADATA => 16
  | DISPLAY_MESSAGE => 17 | CALIBRE_BUSY => 18 | SET_LIBRARY_INFO => 19
  | ERROR => 20 | Raw n => n
  end.

Definition of_int (n : Z) : t :=
  match n with
  | 0 => OK | 1 => SET_CALIBRE_DEVICE_INFO | 2 => SET_CALIBRE_DEVICE_NAME
  | 3 => GET_DEVICE_INFORMATION | 4 => TOTAL_SPACE | 5 => FREE_SPACE
  | 6 => GET_BOOK_COUNT | 7 => SEND_BOOKLISTS | 8 => SEND_BOOK
  | 9 => GET_INITIALIZATION_INFO | 11 => BOOK_DONE | 12 => NOOP
  | 13 => DELETE_BOOK | 14 => GET_BOOK_FILE_SEGMENT
  | 15 => GET_BOOK_METADATA | 16 => SEND_BOOK_METADATA
  | 17 => DISPLAY_MESSAGE | 18 => CALIBRE_BUSY | 19 => SET_LIBRARY_INFO
  | 20 => ERROR | _ => Raw n
  end.
End OpCode.

(** The state the display reads. *)
Record Ui : Type := mkUi {
  state : WirelessState.t;
  statusMessage : bytes;
  errorMessage : bytes;
  updateRequired : bool
}.

Definition set_updateRequired (b : bool) (u : Ui) : Ui :=
  mkUi (state u) (statusMessage u) (errorMessage u) b.

Definition setState (newState : WirelessState.t) (u : Ui) : Ui :=
  mkUi newState (statusMessage u) (errorMessage u) true.

Definition setStatus (message : bytes) (u : Ui) : Ui :=
  mkUi (state u) message (errorMessage u) true.

Definition setError (message : bytes) (u : Ui) : Ui :=
  setState WirelessState.ERROR
    (mkUi (state u) (statusMessage u) message (updateRequired u)).

(** What discovery learns about the peer. *)
Record Peer : Type := mkPeer {
  calibreHost : bytes;
  calibrePort : Z;
  calibreAltPort : Z;
  calibreHostname : bytes
}.

(** The bookkeeping of the transfer. *)
Record Xfer : Type := mkXfer {
  currentFilename : bytes;
  currentFileSize : Z;
  bytesReceived : Z;
  inBinaryMode : bool;
  binaryBytesRemaining : Z
}.

(** The activity object, the statics of the file and the collaborators. *)
Record State : Type := mkState {
  sink : Sink;
  ui : Ui;
  peer : Peer;
  xfer : Xfer;
  recvBuffer : bytes;
  tcpClient : Tcp
}.

Definition set_sink (k : Sink) (s : State) : State :=
  mkState k (ui s) (peer s) (xfer s) (recvBuffer s) (tcpClient s).
Definition set_ui (u : Ui) (s : State) : State :=
  mkState (sink s) u (peer s) (xfer s) (recvBuffer s) (tcpClient s).
Definition set_peer (p : Peer) (s : State) : State :=
  mkState (sink s) (ui s) p (xfer s) (recvBuffer s) (tcpClient s).
Definition set_xfer (x : Xfer) (s : State) : State :=
  mkState (sink s) (ui s) (peer s) x (recvBuffer s) (tcpClient s).
Definition set_recvBuffer (b : bytes) (s : State) : State :=
  mkState (sink s) (ui s) (peer s) (xfer s) b (tcpClient s).
Definition set_tcpClient (t : Tcp) (s : State) : State :=
  mkState (sink s) (ui s) (peer s) (xfer s) (recvBuffer s) t.

(** What the firmware build and the board supply: [StringUtils] and the
    version macro are not part of the translated file, and the hardware
    address comes from the radio. *)
Record Platform : Type := mkPlatform {
  sanitizeFilename : bytes -> bytes;
  checkFileExtension : bytes -> bytes -> bool;
  CROSSPOINT_VERSION : bytes;
  macAddress : list Z          (* six bytes *)
}.

(** [tcpClient.write(data, size)]. *)
Definition tcpWrite (data : bytes) (t : Tcp) : Tcp :=
  mkTcp (rx t) (connected t) (tx t ++ [data]) (flushClearsRx t).

(** [tcpClient.flush()]. *)
Definition tcpFlush (t : Tcp) : Tcp :=
  if flushClearsRx t then mkTcp [] (connected t) (tx t) (flushClearsRx t) else t.

(** What [flush()] leaves of the bytes [pending] on the socket [t]. *)
Definition flushed (t : Tcp) (pending : bytes) : bytes :=
  if flushClearsRx t then [] else pending.

(** [sendJsonResponse]: one [write] of the length, then [[opcode,data]],
    and the [flush()] behind it. *)
Definition sendJsonResponse (opcode : OpCode.t) (data : bytes) (t : Tcp) : Tcp :=
  let json := lit "[" ++ to_string (OpCode.to_int opcode) ++ lit "," ++ data ++ lit "]" in
  let lengthPrefix := to_string (Str.size json) in
  let json := lengthPrefix ++ json in
  tcpFlush (tcpWrite json t).

Definition respond (opcode : OpCode.t) (data : bytes) (s : State) : State :=
  set_tcpClient (sendJsonResponse opcode data (tcpClient s)) s.

Definition handleGetInitializationInfo (s : State) : State :=
  let s := set_ui (setState WirelessState.WAITING (ui s)) s in
  let s := set_ui (setStatus (lit "Connected to " ++ calibreHostname (peer s)
                                ++ [nl] ++ lit "Waiting for transfer...") (ui s)) s in
  let response :=
    lit "{"
    ++ lit "'appName':'CrossPoint',"
    ++ lit "'acceptedExtensions':['epub'],"
    ++ lit "'cacheUsesLpaths':true,"
    ++ lit "'canAcceptLibraryInfo':true,"
    ++ lit "'canDeleteMultipleBooks':true,"
    ++ lit "'canReceiveBookBinary':true,"
    ++ lit "'canSendOkToSendbook':true,"
    ++ lit "'canStreamBooks':true,"
    ++ lit "'canStreamMetadata':true,"
    ++ lit "'canUseCachedMetadata':true,"
    ++ lit "'ccVersionNumber':212,"
    ++ lit "'coverHeight':800,"
    ++ lit "'deviceKind':'CrossPoint',"
    ++ lit "'deviceName':'CrossPoint',"
    ++ lit "'extensionPathLengths':{'epub':37},"
    ++ lit "'maxBookContentPacketLen':4096,"
    ++ lit "'passwordHash':'',"
    ++ lit "'useUuidFileNames':false,"
    ++ lit "'versionOK':true"
    ++ lit "}" in
  respond OpCode.OK response s.

(** [%02x] of a byte. *)
Definition hex2 (n : Z) : bytes :=
  let digit d := nth (Z.to_nat d) (lit "0123456789abcdef") zero in
  [digit (n / 16 mod 16); digit (n mod 16)].

Definition getDeviceUuid (pf : Platform) : bytes :=
  let mac i := hex2 (nth i (macAddress pf) 0) in
  mac 0%nat ++ mac 1%nat ++ mac 2%nat ++ mac 3%nat ++ lit "-"
  ++ mac 4%nat ++ mac 5%nat ++ lit "-4000-8000-"
  ++ mac 0%nat ++ mac 1%nat ++ mac 2%nat ++ mac 3%nat ++ mac 4%nat ++ mac 5%nat.

Definition handleGetDeviceInformation (pf : Platform) (s : State) : State :=
  let response :=
    lit "{"
    ++ lit "'device_info':{"
    ++ lit "'device_store_uuid':'" ++ getDeviceUuid pf ++ lit "',"
    ++ lit "'device_name':'CrossPoint Reader',"
    ++ lit "'device_version':'" ++ CROSSPOINT_VERSION pf ++ lit "'"
    ++ lit "},"
    ++ lit "'version':1,"
    ++ lit "'device_version':'" ++ CROSSPOINT_VERSION pf ++ lit "'"
    ++ lit "}" in
  respond OpCode.OK response s.

Definition GiB : Z := 1024 * 1024 * 1024.
Definition MiB : Z := 1024 * 1024.

Definition probeSizes : list Z :=
  [256 * GiB; 128 * GiB; 64 * GiB; 32 * GiB; 16 * GiB; 8 * GiB; 4 * GiB;
   2 * GiB; 1 * GiB; 512 * MiB; 256 * MiB; 128 * MiB; 64 * MiB].

(** [testFile.preAllocate(size)]. *)
Definition preAllocate (c : SdCard) (size : Z) : bool := size <=? freeBytes c.

(** [getSDCardFreeSpace]: the probe file is created, sized and removed, and
    leaves the card as it was. *)
Definition getSDCardFreeSpace (c : SdCard) : Z :=
  if negb (openOk c) then 64 * GiB
  else
    match find (preAllocate c) probeSizes with
    | Some size => size
    | None => 64 * MiB
    end.

Definition handleFreeSpace (s : State) : State :=
  let freeBytes := getSDCardFreeSpace (card (sink s)) in
  let response := lit "{'free_space_on_device':" ++ to_string freeBytes ++ lit "}" in
  respond OpCode.OK response s.

Definition handleGetBookCount (s : State) : State :=
  respond OpCode.OK (lit "{'count':0,'willStream':true,'willScan':false}") s.

Definition handleSendBookMetadata (data : bytes) (s : State) : State :=
  respond OpCode.OK (lit "{}") s.

Definition contains (pat s : bytes) : bool :=
  match Str.find_str pat s with Some _ => true | None => false end.

Definition handleDisplayMessage (data : bytes) (s : State) : State :=
  let s := if contains (lit "'messageKind':1") data
           then set_ui (setError (lit "Password required") (ui s)) s
           else s in
  respond OpCode.OK (lit "{}") s.

Definition handleNoop (data : bytes) (s : State) : State :=
  let s := if contains (lit "'ejecting':true") data
           then set_ui (setStatus (lit "Calibre disconnected")
                          (setState WirelessState.DISCONNECTED (ui s))) s
           else s in
  respond OpCode.NOOP (lit "{}") s.

(** ** [SEND_BOOK]: the two fields read from the payload *)

(** The [lpath] value: the text between the first two quotes after the
    first colon after the key. *)
Definition extractLpath (data : bytes) : bytes :=
  match Str.find_str (lit "'lpath'") data with
  | None => []
  | Some lpathPos =>
      match Str.find_from ":" (lpathPos + 7) data with
      | None => []
      | Some colonPos =>
          match Str.find_from dquote (colonPos + 1) data with
          | None => []
          | Some quoteStart =>
              match Str.find_from dquote (quoteStart + 1) data with
              | None => []
              | Some quoteEnd =>
                  Str.substr (quoteStart + 1) (quoteEnd - quoteStart - 1) data
              end
          end
      end
  end.

Fixpoint skip_blank (s : bytes) : bytes :=
  match s with
  | c :: r => if Ascii.eqb c " " || Ascii.eqb c tab then skip_blank r else s
  | [] => []
  end.

(** The body of the loop at a quote seen while [depth] is 1, position [i]:
    [Some length] when the loop breaks there with that [length]. *)
Definition lengthAt (data : bytes) (i : nat) : option Z :=
  if (Z.of_nat i + 9 <? Str.size data)
     && Str.eqb (Str.substr i 8 data) (lit "'length'")
  then
    match Str.find_from ":" (i + 8) data with
    | None => None
    | Some colonPos =>
        let numStr := take_digits (skip_blank (skipn (colonPos + 1) data)) in
        if Str.empty numStr then None
        else
          let '(length, endPtr) := strtoul numStr in
          if Str.empty endPtr then Some length else None
    end
  else None.

Definition opens (c : ascii) : bool := Ascii.eqb c "{" || Ascii.eqb c "[".
Definition closes (c : ascii) : bool := Ascii.eqb c "}" || Ascii.eqb c "]".

(** The loop over [data]: [rest] is [data] from position [i] on, [depth]
    the counter.  The result is the position where the loop breaks and the
    [length] it breaks with. *)
Fixpoint scanLength (data rest : bytes) (i : nat) (depth : Z)
  : option (nat * Z) :=
  match rest with
  | [] => None
  | c :: rest' =>
      if opens c then scanLength data rest' (S i) (depth + 1)
      else if closes c then scanLength data rest' (S i) (depth - 1)
      else if (depth =? 1) && Ascii.eqb c dquote then
        match lengthAt data i with
        | Some length => Some (i, length)
        | None => scanLength data rest' (S i) depth
        end
      else scanLength data rest' (S i) depth
  end.

(** [length] after the loop: 0 unless the loop broke. *)
Definition extractLength (data : bytes) : Z :=
  match scanLength data data 0 0 with
  | Some (_, length) => length
  | None => 0
  end.

(** ** [SEND_BOOK] and the binary transfer *)

Definition wrap32 (z : Z) : Z := z mod (UINT32_MAX + 1).

Definition set_inBinaryMode (b : bool) (x : Xfer) : Xfer :=
  mkXfer (currentFilename x) (currentFileSize x) (bytesReceived x) b
         (binaryBytesRemaining x).
Definition set_binaryBytesRemaining (n : Z) (x : Xfer) : Xfer :=
  mkXfer (currentFilename x) (currentFileSize x) (bytesReceived x)
         (inBinaryMode x) n.

(** [bytesReceived += n; binaryBytesRemaining -= n], on [size_t]. *)
Definition consume (n : Z) (x : Xfer) : Xfer :=
  mkXfer (currentFilename x) (currentFileSize x)
         (wrap32 (bytesReceived x + n)) (inBinaryMode x)
         (wrap32 (binaryBytesRemaining x - n)).

Definition fileClose (f : FsFile) : FsFile := mkFsFile false (written f).

Definition handleSendBook (pf : Platform) (data : bytes) (s : State)
  : Result State :=
  let lpath := extractLpath data in
  let length := extractLength data in
  if Str.empty lpath || (length =? 0) then
    Ok (respond OpCode.ERROR (lit "{'message':'Invalid book data'}") s)
  else
    let filename :=
      match Str.rfind "/" lpath with
      | Some lastSlash => Str.substr_from (lastSlash + 1) lpath
      | None => lpath
      end in
    let name := lit "/" ++ sanitizeFilename pf filename in
    let name := if checkFileExtension pf name (lit ".epub") then name
                else name ++ lit ".epub" in
    let s := set_xfer (mkXfer name length 0 (inBinaryMode (xfer s))
                         (binaryBytesRemaining (xfer s))) s in
    let s := set_ui (setState WirelessState.RECEIVING (ui s)) s in
    let s := set_ui (setStatus (lit "Receiving: " ++ filename) (ui s)) s in
    if negb (openOk (card (sink s))) then
      let s := set_ui (setError (lit "Failed to create file") (ui s)) s in
      Ok (respond OpCode.ERROR (lit "{'message':'Failed to create file'}") s)
    else
      let k := set_currentFile (mkFsFile true []) (sink s) in
      let k := set_currentWriteFile true k in
      let k := set_writeBuffer [] k in
      let s := set_sink k s in
      let s := respond OpCode.OK (lit "{}") s in
      let s := set_xfer (set_inBinaryMode true (xfer s)) s in
      let s := set_xfer (set_binaryBytesRemaining length (xfer s)) s in
      if negb (Str.empty (recvBuffer s)) then
        let toWrite := Z.min (Str.size (recvBuffer s))
                             (binaryBytesRemaining (xfer s)) in
        '(ok, k) <- bufferedWrite (firstn (Z.to_nat toWrite) (recvBuffer s))
                                   (sink s) ;;
        let s := set_sink k s in
        if ok then
          let s := set_xfer (consume toWrite (xfer s)) s in
          let s := set_recvBuffer
                     (Str.substr_from (Z.to_nat toWrite) (recvBuffer s)) s in
          Ok (set_ui (set_updateRequired true (ui s)) s)
        else Ok s
      else Ok s.

Definition receiveBinaryData (s : State) : Result State :=
  let available := Str.size (rx (tcpClient s)) in
  if available =? 0 then
    if negb (connected (tcpClient s)) then
      let '(_, k) := flushWriteBuffer (sink s) in
      let k := set_currentWriteFile false k in
      let k := set_currentFile (fileClose (currentFile k)) k in
      let s := set_sink k s in
      let s := set_xfer (set_inBinaryMode false (xfer s)) s in
      Ok (set_ui (setError (lit "Transfer interrupted") (ui s)) s)
    else Ok s
  else
    let toRead := Z.to_nat (Z.min 4096 (binaryBytesRemaining (xfer s))) in
    let buffer := firstn toRead (rx (tcpClient s)) in
    let s := set_tcpClient (mkTcp (skipn toRead (rx (tcpClient s)))
                              (connected (tcpClient s)) (tx (tcpClient s))
                              (flushClearsRx (tcpClient s))) s in
    let bytesRead := Str.size buffer in
    if 0 <? bytesRead then
      '(ok, k) <- bufferedWrite buffer (sink s) ;;
      let s := set_sink k s in
      if negb ok then
        let '(_, k) := flushWriteBuffer (sink s) in
        let k := set_currentWriteFile false k in
        let k := set_currentFile (fileClose (currentFile k)) k in
        let s := set_sink k s in
        let s := set_xfer (set_inBinaryMode false (xfer s)) s in
        Ok (set_ui (setError (lit "Write error") (ui s)) s)
      else
        let s := set_xfer (consume bytesRead (xfer s)) s in
        let s := set_ui (set_updateRequired true (ui s)) s in
        if binaryBytesRemaining (xfer s) =? 0 then
          let '(_, k) := flushWriteBuffer (sink s) in
          let k := set_currentWriteFile false k in
          let k := set_currentFile (fileClose (currentFile k)) k in
          let s := set_sink k s in
          let s := set_xfer (set_inBinaryMode false (xfer s)) s in
          let s := set_ui (setState WirelessState.WAITING (ui s)) s in
          let s := set_ui (setStatus (lit "Received: " ++ currentFilename (xfer s)
                                        ++ [nl] ++ lit "Waiting for more...")
                             (ui s)) s in
          Ok (respond OpCode.OK (lit "{}") s)
        else Ok s
    else Ok s.

(** ** Command dispatcher *)

Definition handleCommand (pf : Platform) (opcode : OpCode.t) (data : bytes)
                         (s : State) : Result State :=
  match opcode with
  | OpCode.GET_INITIALIZATION_INFO => Ok (handleGetInitializationInfo s)
  | OpCode.GET_DEVICE_INFORMATION => Ok (handleGetDeviceInformation pf s)
  | OpCode.FREE_SPACE => Ok (handleFreeSpace s)
  | OpCode.GET_BOOK_COUNT => Ok (handleGetBookCount s)
  | OpCode.SEND_BOOK => handleSendBook pf data s
  | OpCode.SEND_BOOK_METADATA => Ok (handleSendBookMetadata data s)
  | OpCode.DISPLAY_MESSAGE => Ok (handleDisplayMessage data s)
  | OpCode.NOOP => Ok (handleNoop data s)
  | OpCode.SET_CALIBRE_DEVICE_INFO
  | OpCode.SET_CALIBRE_DEVICE_NAME => Ok (respond OpCode.OK (lit "{}") s)
  | OpCode.SET_LIBRARY_INFO => Ok (respond OpCode.OK (lit "{}") s)
  | OpCode.SEND_BOOKLISTS => Ok (respond OpCode.OK (lit "{}") s)
  | OpCode.TOTAL_SPACE => Ok (handleFreeSpace s)
  | _ => Ok (respond OpCode.OK (lit "{}") s)
  end.

(** The block of [handleTcpClient] that runs when [readJsonMessage] has
    returned [message]: the opcode is the number between the first bracket
    and the first comma after it, the payload what stands between that comma
    and the last closing bracket. *)
Definition dispatchMessage (pf : Platform) (message : bytes) (s : State)
  : Result State :=
  match Str.find "[" message with
  | None => Ok s
  | Some bracket =>
      let start := S bracket in
      match Str.find_from "," start message with
      | None => Ok s
      | Some end_ =>
          opcodeInt <- stoi (Str.substr start (end_ - start) message) ;;
          if (opcodeInt <? 0) || (OpCode.to_int OpCode.ERROR <=? opcodeInt)
          then Ok (respond OpCode.OK (lit "{}") s)
          else
            let opcode := OpCode.of_int opcodeInt in
            let dataStart := (end_ + 1)%nat in
            let data :=
              match Str.rfind "]" message with
              | Some dataEnd =>
                  if (dataStart <? dataEnd)%nat
                  then Str.substr dataStart (dataEnd - dataStart) message
                  else []
              | None => []
              end in
            handleCommand pf opcode data s
      end
  end.

Definition handleTcpClient (pf : Platform) (s : State) : Result State :=
  if negb (connected (tcpClient s)) then
    let s := set_ui (setState WirelessState.DISCONNECTED (ui s)) s in
    Ok (set_ui (setStatus (lit "Calibre disconnected") (ui s)) s)
  else if inBinaryMode (xfer s) then receiveBinaryData s
  else
    '(message, (rx', recvBuffer')) <-
        readJsonMessage (rx (tcpClient s)) (recvBuffer s) ;;
    let s := set_tcpClient (mkTcp rx' (connected (tcpClient s))
                              (tx (tcpClient s)) (flushClearsRx (tcpClient s))) s in
    let s := set_recvBuffer recvBuffer' s in
    match message with
    | None => Ok s
    | Some message => dispatchMessage pf message s
    end.

(** ** Discovery exchange *)

(** What the network does while [listenForDiscovery] runs: the datagram
    [udp.parsePacket] finds (if any) with the address it came from, and
    whether [tcpClient.connect] succeeds on the main and on the alternate
    port. *)
Record Air : Type := mkAir {
  packet : option bytes;
  remoteIP : bytes;
  connectMain : bool;
  connectAlt : bool
}.

(** [std::string(buffer)]: the text up to the first NUL. *)
Fixpoint cstr (b : bytes) : bytes :=
  match b with
  | c :: r => if Ascii.eqb c zero then [] else c :: cstr r
  | [] => []
  end.

Definition set_calibrePort (n : Z) (p : Peer) : Peer :=
  mkPeer (calibreHost p) n (calibreAltPort p) (calibreHostname p).
Definition set_calibreAltPort (n : Z) (p : Peer) : Peer :=
  mkPeer (calibreHost p) (calibrePort p) n (calibreHostname p).
Definition set_calibreHostname (h : bytes) (p : Peer) : Peer :=
  mkPeer (calibreHost p) (calibrePort p) (calibreAltPort p) h.
Definition set_calibreHost (h : bytes) (p : Peer) : Peer :=
  mkPeer h (calibrePort p) (calibreAltPort p) (calibreHostname p).

(** The block guarded by [semiPos != npos]: ports and host name. *)
Definition parseReply (response : bytes) (p : Peer) : Result Peer :=
  let onPos := Str.find_str (lit "(on ") response in
  let closePos := Str.find ")" response in
  match Str.find ";" response with
  | None => Ok p
  | Some semiPos =>
      '(portStr, p) <-
        match Str.find_from "," semiPos response with
        | Some commaPos =>
            if (semiPos <? commaPos)%nat then
              let portStr := Str.substr (semiPos + 1) (commaPos - semiPos - 1) response in
              let altPortStr := Str.substr_from (commaPos + 1) response in
              let altDigits := take_digits altPortStr in
              if negb (Str.empty altDigits) then
                alt <- stoi altDigits ;;
                Ok (portStr, set_calibreAltPort (to_uint16 alt) p)
              else Ok (portStr, p)
            else Ok (Str.substr_from (semiPos + 1) response, p)
        | None => Ok (Str.substr_from (semiPos + 1) response, p)
        end ;;
      let portStr := skip_blank portStr in
      p <- (if negb (Str.empty portStr) then
              port <- stoi portStr ;;
              Ok (set_calibrePort (to_uint16 port) p)
            else Ok p) ;;
      match onPos, closePos with
      | Some onPos, Some closePos =>
          if (onPos + 4 <? closePos)%nat
          then Ok (set_calibreHostname
                     (Str.substr (onPos + 4) (closePos - onPos - 4) response) p)
          else Ok p
      | _, _ => Ok p
      end
  end.

(** [listenForDiscovery] from [udp.parsePacket] on (the broadcasts and the
    wait before it leave the state as it is). *)
Definition listenForDiscovery (air : Air) (s : State) : Result State :=
  match packet air with
  | None => Ok s
  | Some payload =>
      let buffer := firstn 255 payload in     (* udp.read(buffer, 255) *)
      if 0 <? Str.size buffer then
        p <- parseReply (cstr buffer) (peer s) ;;
        let p := set_calibreHost (remoteIP air) p in
        let p := if Str.empty (calibreHostname p)
                 then set_calibreHostname (calibreHost p) p else p in
        let s := set_peer p s in
        if 0 <? calibrePort p then
          let s := set_ui (setState WirelessState.CONNECTING (ui s)) s in
          let s := set_ui (setStatus (lit "Connecting to " ++ calibreHostname p
                                        ++ lit "...") (ui s)) s in
          let connected :=
            connectMain air || ((0 <? calibreAltPort p) && connectAlt air) in
          if connected then
            let s := set_tcpClient (mkTcp (rx (tcpClient s)) true
                                      (tx (tcpClient s))
                                      (flushClearsRx (tcpClient s))) s in
            let s := set_ui (setState WirelessState.WAITING (ui s)) s in
            Ok (set_ui (setStatus (lit "Connected to " ++ calibreHostname p
                                     ++ [nl] ++ lit "Waiting for commands...")
                          (ui s)) s)
          else
            let s := set_ui (setState WirelessState.DISCOVERING (ui s)) s in
            let s := set_ui (setStatus
                               (lit "Discovering Calibre..." ++ [nl]
                                ++ lit "(Connection failed, retrying)") (ui s)) s in
            Ok (set_peer (set_calibreAltPort 0 (set_calibrePort 0 p)) s)
        else Ok s
      else Ok s
  end.

(** ** The network worker *)

(** [onEnter]: the members it resets; the statics, [currentFile] and the
    socket stay as they are. *)
Definition onEnter (s : State) : State :=
  mkState (sink s)
          (mkUi WirelessState.DISCOVERING (lit "Discovering Calibre...") [] true)
          (mkPeer [] 0 0 [])
          (mkXfer [] 0 0 false (binaryBytesRemaining (xfer s)))
          []
          (tcpClient s).

(** What happens around the worker between two rounds of its loop: bytes
    arrive on the socket, the peer may go away, the card may change its
    mind about the next writes. *)
Record Env : Type := mkEnv {
  arrived : bytes;
  peerUp : bool;
  cardNow : SdCard;
  air : Air
}.

Definition environment (e : Env) (s : State) : State :=
  let t := tcpClient s in
  let s := set_tcpClient (mkTcp (rx t ++ arrived e) (connected t && peerUp e)
                            (tx t) (flushClearsRx t)) s in
  set_sink (set_card (cardNow e) (sink s)) s.

(** One round of the loop of [networkTaskLoop]. *)
Definition networkTaskRound (pf : Platform) (e : Env) (s : State)
  : Result State :=
  let s := environment e s in
  match state (ui s) with
  | WirelessState.DISCOVERING => listenForDiscovery (air e) s
  | WirelessState.CONNECTING
  | WirelessState.WAITING
  | WirelessState.RECEIVING => handleTcpClient pf s
  | WirelessState.COMPLETE
  | WirelessState.DISCONNECTED
  | WirelessState.ERROR => Ok s
  end.

(** The states the worker can be in: after [onEnter], and after any number
    of rounds that returned. *)
Inductive reachable (pf : Platform) : State -> Prop :=
| reach_enter : forall s0, reachable pf (onEnter s0)
| reach_round : forall e s s',
    reachable pf s -> networkTaskRound pf e s = Ok s' -> reachable pf s'.

(** ** Teardown *)

Inductive Task : Type := NetworkTask | DisplayTask.

(** The calls [onExit] makes, in the order it makes them. *)
Inductive Effect : Type :=
| SetShouldStop
| UdpStop
| TcpStop
| FileWrite (requested returned : Z)
| FileFlush
| FileClose
| TaskDelay (ms : Z)
| TaskDelete (t : Task)
| WifiDisconnect
| WifiModeOff
| SemaphoreTake (taken : bool)
| SemaphoreGive
| SemaphoreDelete.

Record Tasks : Type := mkTasks {
  shouldStop : bool;
  networkTaskHandle : bool;     (* not nullptr *)
  displayTaskHandle : bool;
  renderingMutex : bool;
  stateMutex : bool
}.

(** What the scheduler answers during [onExit]: whether each worker has
    deleted itself by the time [eTaskGetState] asks, and whether the
    rendering mutex is obtained within its 500 ms. *)
Record Scheduler : Type := mkScheduler {
  networkTaskDeleted : bool;
  displayTaskDeleted : bool;
  renderingMutexTaken : bool
}.

(** [flushWriteBuffer] with the [write] it makes. *)
Definition flushWriteBufferT (k : Sink) : list Effect * (bool * Sink) :=
  (if (0 <? writeBufferPos k) && currentWriteFile k && isOpen (currentFile k)
   then [FileWrite (writeBufferPos k) (fst (fileWrite k))] else [],
   flushWriteBuffer k).

Definition onExit (sch : Scheduler) (s : State) (t : Tasks)
  : list Effect * (State * Tasks) :=
  (* shouldStop = true; udp.stop(); *)
  let e1 := [SetShouldStop; UdpStop] in
  (* if (tcpClient.connected()) tcpClient.stop(); *)
  let '(e2, s) :=
    if connected (tcpClient s)
    then ([TcpStop],
          set_tcpClient (mkTcp (rx (tcpClient s)) false (tx (tcpClient s))
                               (flushClearsRx (tcpClient s))) s)
    else ([], s) in
  (* flushWriteBuffer(); currentWriteFile = nullptr; *)
  let '(e3, (_, k)) := flushWriteBufferT (sink s) in
  let k := set_currentWriteFile false k in
  (* if (currentFile) { currentFile.flush(); currentFile.close(); } *)
  let '(e4, k) :=
    if isOpen (currentFile k)
    then ([FileFlush; FileClose], set_currentFile (fileClose (currentFile k)) k)
    else ([], k) in
  let s := set_sink k s in
  (* vTaskDelay(200); the handles are copied and cleared *)
  let netTask := networkTaskHandle t in
  let dispTask := displayTaskHandle t in
  (* if (netTask && eTaskGetState(netTask) != eDeleted) vTaskDelete(netTask); *)
  let e5 := if netTask && negb (networkTaskDeleted sch)
            then [TaskDelete NetworkTask] else [] in
  (* the display task, under the rendering mutex *)
  let e6 := if dispTask && negb (displayTaskDeleted sch)
            then if renderingMutexTaken sch
                 then [SemaphoreTake true; TaskDelete DisplayTask; SemaphoreGive]
                 else [SemaphoreTake false]
            else [] in
  let e7 := if renderingMutex t then [SemaphoreDelete] else [] in
  let e8 := if stateMutex t then [SemaphoreDelete] else [] in
  (e1 ++ e2 ++ e3 ++ e4 ++ [TaskDelay 200] ++ e5
      ++ [TaskDelay 50; WifiDisconnect; TaskDelay 30; WifiModeOff; TaskDelay 30]
      ++ e6 ++ e7 ++ e8,
   (s, mkTasks true false false false false)).

(** ** The display: [render] *)

Inductive Font : Type := UI_10_FONT_ID | UI_12_FONT_ID.

(** The calls [render] makes on the renderer, in the order it makes them.
    [drawCenteredText] takes a C string: the text ends at the first NUL.
    [drawButtonHints] is called with the labels [mapLabels] gives for
    [Back]. *)
Inductive Draw : Type :=
| ClearScreen
| DrawCenteredText (font : Font) (y : Z) (text : bytes) (bold : bool)
| DrawProgressBar (x y width height : Z) (current total : Z)
| DrawButtonHints (font : Font)
| DisplayBuffer.

(** What the renderer and the radio answer: the size of the page and the
    address of the device. *)
Record Screen : Type := mkScreen {
  pageWidth : Z;
  pageHeight : Z;
  ipAddr : bytes
}.

(** The loop over the lines of the status message: the calls made, what is
    left of [status] and [statusY] when the loop ends. *)
Fixpoint statusLoop (rounds : nat) (status : bytes) (statusY : Z)
  : Result (list Draw * (bytes * Z)) :=
  match rounds with
  | O => Spin
  | S rounds' =>
      match Str.find nl status with
      | Some pos =>
          let call := DrawCenteredText UI_10_FONT_ID statusY
                        (cstr (Str.substr 0 pos status)) false in
          '(calls, final) <- statusLoop rounds' (Str.substr_from (pos + 1) status)
                                        (statusY + 25) ;;
          Ok (call :: calls, final)
      | None => Ok ([], (status, statusY))
      end
  end.

(** The progress bar, drawn while a file is received. *)
Definition renderProgress (sc : Screen) (statusY : Z) (s : State) : list Draw :=
  match state (ui s) with
  | WirelessState.RECEIVING =>
      if 0 <? currentFileSize (xfer s)
      then [DrawProgressBar 50 (statusY + 20) (pageWidth sc - 100) 20
                            (bytesReceived (xfer s)) (currentFileSize (xfer s))]
      else []
  | _ => []
  end.

Definition renderError (sc : Screen) (s : State) : list Draw :=
  if negb (Str.empty (errorMessage (ui s)))
  then [DrawCenteredText UI_10_FONT_ID (pageHeight sc - 120)
                         (cstr (errorMessage (ui s))) false]
  else [].

Definition renderHeader (sc : Screen) : list Draw :=
  [ClearScreen;
   DrawCenteredText UI_12_FONT_ID 30 (lit "Calibre Wireless") true;
   DrawCenteredText UI_10_FONT_ID 60 (cstr (lit "IP: " ++ ipAddr sc)) false].

Definition render (sc : Screen) (s : State) : Result (list Draw) :=
  let statusY := Z.quot (pageHeight sc) 2 - 40 in
  '(lines, (status, statusY)) <-
      statusLoop (S (length (statusMessage (ui s)))) (statusMessage (ui s)) statusY ;;
  let '(last, statusY) :=
    if negb (Str.empty status)
    then ([DrawCenteredText UI_10_FONT_ID statusY (cstr status) false], statusY + 25)
    else ([], statusY) in
  Ok (renderHeader sc ++ lines ++ last ++ renderProgress sc statusY s
      ++ renderError sc s
      ++ [DrawButtonHints UI_10_FONT_ID; DisplayBuffer]).

(** One round of the loop of [displayTaskLoop]: when [updateRequired] is
    set it is cleared and [render] runs (under the rendering mutex). *)
Definition displayTaskRound (sc : Screen) (s : State)
  : Result (State * option (list Draw)) :=
  if updateRequired (ui s) then
    let s := set_ui (set_updateRequired false (ui s)) s in
    calls <- render sc s ;;
    Ok (s, Some calls)
  else Ok (s, None).

(** ** The frame buffer: [GfxRenderer] *)

(** The constants of [EInkDisplay], which is not part of the translated
    files: the panel is [DISPLAY_WIDTH] by [DISPLAY_HEIGHT] pixels, a row
    takes [DISPLAY_WIDTH_BYTES] bytes and the frame buffer holds
    [BUFFER_SIZE] bytes. *)
Record Panel : Type := mkPanel {
  DISPLAY_WIDTH : Z;
  DISPLAY_HEIGHT : Z;
  DISPLAY_WIDTH_BYTES : Z;
  BUFFER_SIZE : Z
}.

(** The memory behind [einkDisplay.getFrameBuffer()]: the bytes of the
    buffer; no buffer (the pointer is null); or the outcome of a write or
    a read outside the buffer, or through the null pointer, after which
    the program has no defined behaviour.  The coordinates are [int]s; the
    arithmetic on them is that of [Z], and the statements are about
    coordinates far from the limits of [int]. *)
Inductive Mem : Type :=
| Buffer (frameBuffer : list Z)
| NoBuffer
| OutOfBounds.

(** [frameBuffer[i] = v]. *)
Definition store (i : nat) (v : Z) (frameBuffer : list Z) : Mem :=
  if (i <? length frameBuffer)%nat
  then Buffer (firstn i frameBuffer ++ v :: skipn (S i) frameBuffer)
  else OutOfBounds.

(** [static_cast<uint8_t>(n)]. *)
Definition to_uint8 (n : Z) : Z := n mod 256.

Definition getScreenWidth (p : Panel) : Z := DISPLAY_HEIGHT p.
Definition getScreenHeight (p : Panel) : Z := DISPLAY_WIDTH p.

Definition drawPixel (p : Panel) (x y : Z) (state : bool) (m : Mem) : Mem :=
  match m with
  | Buffer frameBuffer =>
      let rotatedX := y in
      let rotatedY := DISPLAY_HEIGHT p - 1 - x in
      if (rotatedX <? 0) || (DISPLAY_WIDTH p <=? rotatedX)
         || (rotatedY <? 0) || (DISPLAY_HEIGHT p <=? rotatedY)
      then m
      else
        let byteIndex :=
          Z.to_nat (to_uint16 (rotatedY * DISPLAY_WIDTH_BYTES p + Z.quot rotatedX 8)) in
        let bitPosition := to_uint8 (7 - Z.rem rotatedX 8) in
        match nth_error frameBuffer byteIndex with
        | None => OutOfBounds
        | Some b =>
            if state
            then store byteIndex
                       (to_uint8 (Z.land b (Z.lnot (Z.shiftl 1 bitPosition))))
                       frameBuffer
            else store byteIndex
                       (to_uint8 (Z.lor b (Z.shiftl 1 bitPosition)))
                       frameBuffer
        end
  | NoBuffer => NoBuffer
  | OutOfBounds => OutOfBounds
  end.

(** [for (int i = start; i < start + count; i++) body(i)]. *)
Fixpoint forLoop (count : nat) (start : Z) (body : Z -> Mem -> Mem) (m : Mem)
  : Mem :=
  match count with
  | O => m
  | S count' => forLoop count' (start + 1) body (body start m)
  end.

Definition drawLine (p : Panel) (x1 y1 x2 y2 : Z) (state : bool) (m : Mem) : Mem :=
  if x1 =? x2 then
    let '(y1, y2) := if y2 <? y1 then (y2, y1) else (y1, y2) in
    forLoop (Z.to_nat (y2 - y1 + 1)) y1 (fun y => drawPixel p x1 y state) m
  else if y1 =? y2 then
    let '(x1, x2) := if x2 <? x1 then (x2, x1) else (x1, x2) in
    forLoop (Z.to_nat (x2 - x1 + 1)) x1 (fun x => drawPixel p x y1 state) m
  else m.

Definition drawRect (p : Panel) (x y width height : Z) (state : bool) (m : Mem)
  : Mem :=
  let m := drawLine p x y (x + width - 1) y state m in
  let m := drawLine p (x + width - 1) y (x + width - 1) (y + height - 1) state m in
  let m := drawLine p (x + width - 1) (y + height - 1) x (y + height - 1) state m in
  drawLine p x y x (y + height - 1) state m.

Definition fillRect (p : Panel) (x y width height : Z) (state : bool) (m : Mem)
  : Mem :=
  forLoop (Z.to_nat height) y
          (fun fillY => drawLine p x fillY (x + width - 1) fillY state) m.

(** [invertScreen]: [buffer[i] = ~buffer[i]] for the [BUFFER_SIZE] first
    bytes. *)
Definition invertScreen (p : Panel) (m : Mem) : Mem :=
  match m with
  | Buffer frameBuffer =>
      if (BUFFER_SIZE p <=? 0) then m
      else if (Z.to_nat (BUFFER_SIZE p) <=? length frameBuffer)%nat
      then Buffer (map (fun b => to_uint8 (Z.lnot b))
                       (firstn (Z.to_nat (BUFFER_SIZE p)) frameBuffer)
                   ++ skipn (Z.to_nat (BUFFER_SIZE p)) frameBuffer)
      else OutOfBounds
  | NoBuffer => if (BUFFER_SIZE p <=? 0) then m else OutOfBounds
  | OutOfBounds => OutOfBounds
  end.

Inductive RenderMode : Type := BW | GRAYSCALE_LSB | GRAYSCALE_MSB.

Module EpdGlyph.
(** What [renderChar] reads of a glyph; [EpdGlyph] and the data of the font
    are declared by the font library.  [bitmap] is the bitmap of the font
    from [dataOffset] on. *)
Record t : Type := mk {
  width : Z;       (* uint8_t *)
  height : Z;      (* uint8_t *)
  left : Z;
  top : Z;
  advanceX : Z;
  bitmap : list Z
}.
End EpdGlyph.

(** The body of the inner loop of [renderChar]: the point of the glyph at
    [pixelPosition] is read from the bitmap and, when the render mode asks
    for it, drawn at [(screenX, screenY)]. *)
Definition renderGlyphPixel (p : Panel) (renderMode : RenderMode) (is2Bit : bool)
    (bitmap : list Z) (pixelPosition screenX screenY : Z) (pixelState : bool)
    (m : Mem) : Mem :=
  if is2Bit then
    match nth_error bitmap (Z.to_nat (Z.quot pixelPosition 4)) with
    | None => OutOfBounds
    | Some byte =>
        let bit_index := to_uint8 ((3 - Z.rem pixelPosition 4) * 2) in
        (* 3 - (byte >> bit_index) & 0x3: the subtraction comes first *)
        let bmpVal := to_uint8 (Z.land (3 - Z.shiftr byte bit_index) 3) in
        match renderMode with
        | BW =>
            if bmpVal <? 3 then drawPixel p screenX screenY pixelState m else m
        | GRAYSCALE_MSB =>
            if (bmpVal =? 1) || (bmpVal =? 2)
            then drawPixel p screenX screenY false m else m
        | GRAYSCALE_LSB =>
            if bmpVal =? 1 then drawPixel p screenX screenY false m else m
        end
    end
  else
    match nth_error bitmap (Z.to_nat (Z.quot pixelPosition 8)) with
    | None => OutOfBounds
    | Some byte =>
        let bit_index := to_uint8 (7 - Z.rem pixelPosition 8) in
        if negb (Z.land (Z.shiftr byte bit_index) 1 =? 0)
        then drawPixel p screenX screenY pixelState m else m
    end.

(** [renderChar]: [getGlyph] is the glyph table of the font in the style
    asked for, [is2Bit] the flag of its data; the result is the buffer and
    the new [*x]. *)
Definition renderChar (p : Panel) (renderMode : RenderMode)
    (getGlyph : Z -> option EpdGlyph.t) (is2Bit : bool)
    (cp : Z) (x y : Z) (pixelState : bool) (m : Mem) : Mem * Z :=
  let glyph :=
    match getGlyph cp with
    | Some glyph => Some glyph
    | None => getGlyph 63             (* '?' *)
    end in
  match glyph with
  | None => (m, x)
  | Some glyph =>
      let width := EpdGlyph.width glyph in
      let height := EpdGlyph.height glyph in
      let left := EpdGlyph.left glyph in
      (forLoop (Z.to_nat height) 0
         (fun glyphY =>
            let screenY := y - EpdGlyph.top glyph + glyphY in
            forLoop (Z.to_nat width) 0
              (fun glyphX =>
                 let pixelPosition := glyphY * width + glyphX in
                 let screenX := x + left + glyphX in
                 renderGlyphPixel p renderMode is2Bit (EpdGlyph.bitmap glyph)
                                  pixelPosition screenX screenY pixelState))
         m,
       x + EpdGlyph.advanceX glyph)
  end.

(** ** Definitions used by the statements *)

(** The outcome of call number [n + 1] of [readJsonMessage] on a buffer to
    which nothing more arrives: the message, if any, and the buffer left. *)
Fixpoint nthPoll (n : nat) (recvBuffer : bytes) : Result (option bytes * bytes) :=
  '(message, (_, recvBuffer')) <- readJsonMessage [] recvBuffer ;;
  match n with
  | O => Ok (message, recvBuffer')
  | S n' => nthPoll n' recvBuffer'
  end.

(** The counter [depth] of the loop of [handleSendBook] when it reaches
    position [i] of [data]: the opening brackets and braces before [i],
    less the closing ones, those that stand inside string literals
    included. *)
Definition bump (depth : Z) (c : ascii) : Z :=
  if opens c then depth + 1 else if closes c then depth - 1 else depth.

Definition depthAt (data : bytes) (i : nat) : Z :=
  fold_left bump (firstn i data) 0.

Definition backslash : ascii := "092"%char.

(** The nesting depth of JSON: the brackets and braces that stand outside
    string literals, the opening ones counted up and the closing ones
    down.  [inString]: the scan is inside a literal; [escaped]: it stands
    behind a backslash of the literal. *)
Fixpoint nesting (s : bytes) (inString escaped : bool) (depth : Z) : Z :=
  match s with
  | [] => depth
  | c :: r =>
      if inString then
        if escaped then nesting r true false depth
        else if Ascii.eqb c backslash then nesting r true true depth
        else if Ascii.eqb c dquote then nesting r false false depth
        else nesting r true false depth
      else if Ascii.eqb c dquote then nesting r true false depth
      else nesting r false false (bump depth c)
  end.

Definition nestingAt (data : bytes) (i : nat) : Z :=
  nesting (firstn i data) false false 0.

(** No string literal of [s] holds a bracket or a brace. *)
Fixpoint plainStrings (s : bytes) (inString escaped : bool) : bool :=
  match s with
  | [] => true
  | c :: r =>
      if inString then
        negb (opens c || closes c)
        && (if escaped then plainStrings r true false
            else if Ascii.eqb c backslash then plainStrings r true true
            else if Ascii.eqb c dquote then plainStrings r false false
            else plainStrings r true false)
      else if Ascii.eqb c dquote then plainStrings r true false
      else plainStrings r false false
  end.

Definition sendBookPayload : bytes :=
  lit "{'lpath':'a/b.epub','info':{'length':7},'length':1234}".




(** The bound on the transfer counters that every round keeps. *)
Definition progress_inv (x : Xfer) : Prop :=
  0 <= bytesReceived x <= currentFileSize x
  /\ currentFileSize x <= UINT32_MAX
  /\ (inBinaryMode x = true ->
      0 <= binaryBytesRemaining x
      /\ bytesReceived x + binaryBytesRemaining x = currentFileSize x).

(** Rounds of the worker, one per element of [es]. *)
Fixpoint networkTaskRounds (pf : Platform) (es : list Env) (s : State)
  : Result State :=
  match es with
  | [] => Ok s
  | e :: es' => s' <- networkTaskRound pf e s ;; networkTaskRounds pf es' s'
  end.

(** ** Concrete runs *)

(** The frame a peer sends for the text [json] of an envelope. *)
Definition frame (json : bytes) : bytes := to_string (Str.size json) ++ json.

Definition ends_with (suffix s : bytes) : bool :=
  Str.starts_with (rev suffix) (rev s).

(** A platform for the concrete runs: names are kept as they are. *)
Definition plainPlatform : Platform :=
  mkPlatform (fun name => name) (fun name ext => ends_with ext name)
             (lit "1.0.0") [222; 173; 190; 239; 0; 1].

Definition goodCard : SdCard := mkSdCard true [] (8 * GiB).

(** The object before [onEnter]. *)
Definition bootState : State :=
  mkState (mkSink [] false closedFile goodCard)
          (mkUi WirelessState.DISCOVERING [] [] false)
          (mkPeer [] 0 0 []) (mkXfer [] 0 0 false 0) [] (mkTcp [] false [] true).

Definition quiet : Air := mkAir None [] false false.

(** The peer answers the broadcast and accepts the connection. *)
Definition discovered : Env :=
  mkEnv [] true goodCard
        (mkAir (Some (lit "calibre wireless device client (on myhost);9090,9091"))
               (lit "192.168.1.20") true false).

(** Bytes arrive on the socket, the card does as [card] says. *)
Definition arrival (bs : bytes) (card : SdCard) : Env := mkEnv bs true card quiet.

(** A connected activity that waits for commands. *)
Definition waitingState : State :=
  match networkTaskRound plainPlatform discovered (onEnter bootState) with
  | Ok s => s
  | _ => bootState
  end.

Definition sendBook3 : bytes := frame (lit "[8,{'lpath':'a/b.epub','length':3}]").
Definition sendBook5 : bytes := frame (lit "[8,{'lpath':'a/b.epub','length':5}]").
Definition sendBook5000 : bytes :=
  frame (lit "[8,{'lpath':'a/b.epub','length':5000}]").

(** The state a transfer is left in when the drain took the last byte. *)
Definition drained (tx0 : list bytes) (wb data : bytes) (s : State) : Prop :=
  inBinaryMode (xfer s) = true
  /\ binaryBytesRemaining (xfer s) = 0
  /\ (state (ui s) = WirelessState.RECEIVING
      \/ state (ui s) = WirelessState.DISCONNECTED)
  /\ currentFile (sink s) = mkFsFile true data
  /\ writeBuffer (sink s) = wb
  /\ tx (tcpClient s) = tx0.

Definition busySink : Sink :=
  mkSink (lit "tail") true (mkFsFile true (lit "head")) (mkSdCard true [] 0).

Definition busyState : State :=
  mkState busySink
          (mkUi WirelessState.RECEIVING [] [] false)
          (mkPeer [] 0 0 [])
          (mkXfer (lit "/b.epub") 100 8 true 92)
          []
          (mkTcp [] true [] true).

(** The sink of a transfer that is on: the write pointer is set, the file
    is open and the coalescing buffer has room. *)
Definition ready (k : Sink) : Prop :=
  currentWriteFile k = true
  /\ isOpen (currentFile k) = true
  /\ writeBufferPos k < WRITE_BUFFER_SIZE.

(** While a transfer is on, its sink is ready. *)
Definition session_inv (s : State) : Prop :=
  inBinaryMode (xfer s) = true -> ready (sink s).

(** The call returns in a state where [P] holds, or throws; it does not
    run for ever. *)
Definition returns_with (P : State -> Prop) (r : Result State) : Prop :=
  match r with
  | Ok s' => P s'
  | Throw _ => True
  | Spin => False
  end.

(** A transfer that is on, with [remaining] bytes still expected and
    [stored] the bytes taken so far (those written to the file followed by
    those in the coalescing buffer); nothing else is buffered. *)
Definition receiving (stored : bytes) (remaining : Z) (s : State) : Prop :=
  inBinaryMode (xfer s) = true
  /\ state (ui s) = WirelessState.RECEIVING
  /\ connected (tcpClient s) = true
  /\ recvBuffer s = []
  /\ ready (sink s)
  /\ binaryBytesRemaining (xfer s) = remaining
  /\ bytesReceived (xfer s) = Str.size stored
  /\ bytesReceived (xfer s) + remaining = currentFileSize (xfer s)
  /\ currentFileSize (xfer s) <= UINT32_MAX
  /\ written (currentFile (sink s)) ++ writeBuffer (sink s) = stored.

(** A transfer that has completed on top of the replies [tx0]: the file
    holds [stored] and is closed, and one acknowledgement was added. *)
Definition completed (tx0 : list bytes) (stored : bytes) (s : State) : Prop :=
  inBinaryMode (xfer s) = false
  /\ state (ui s) = WirelessState.WAITING
  /\ connected (tcpClient s) = true
  /\ recvBuffer s = []
  /\ currentFile (sink s) = mkFsFile false stored
  /\ writeBuffer (sink s) = []
  /\ currentWriteFile (sink s) = false
  /\ bytesReceived (xfer s) = currentFileSize (xfer s)
  /\ Str.size stored = currentFileSize (xfer s)
  /\ tx (tcpClient s) = tx0 ++ [frame (lit "[0,{}]")].

(** The socket delivers [chunk]; the card takes every write in full. *)
Definition feed (chunk : bytes) : Env := arrival chunk goodCard.

(** A transfer under way: [SEND_BOOK] for five bytes arrived with the
    first three behind it. *)
Definition midTransferState : State :=
  match networkTaskRound plainPlatform (arrival (sendBook5 ++ lit "abc") goodCard)
                         waitingState with
  | Ok s => s
  | _ => bootState
  end.

(** ** Definitions used by the further properties *)

(** The characters of a decimal numeral. *)
Definition digitsOf (d : Decimal.uint) : bytes :=
  list_ascii_of_string (NilEmpty.string_of_uint d).

(** The text of an envelope: [[opcode,data]]. *)
Definition envelope (opcode : Z) (data : bytes) : bytes :=
  lit "[" ++ to_string opcode ++ lit "," ++ data ++ lit "]".

(** A body a peer may frame: it opens with the bracket and is no longer than
    [readJsonMessage] accepts. *)
Definition framable (body : bytes) : Prop :=
  Str.starts_with (lit "[") body = true /\ Str.size body <= MAX_MESSAGE_LEN.

(** [readJsonMessage] called once per element of [chunks]: before each call
    the chunk arrives on the socket, on top of what an earlier call left in
    [rx].  The result: the messages returned, in the order of the calls, what
    is left on the socket and the final [recvBuffer]. *)
Fixpoint readMessages (chunks : list bytes) (rx recvBuffer : bytes)
  : Result (list bytes * (bytes * bytes)) :=
  match chunks with
  | [] => Ok ([], (rx, recvBuffer))
  | chunk :: chunks' =>
      '(message, (rx', recvBuffer')) <- readJsonMessage (rx ++ chunk) recvBuffer ;;
      '(messages, final) <- readMessages chunks' rx' recvBuffer' ;;
      Ok (match message with
          | Some m => m :: messages
          | None => messages
          end, final)
  end.

(** A connected activity that waits for a command, with nothing pending. *)
Definition idle (s : State) : Prop :=
  state (ui s) = WirelessState.WAITING
  /\ connected (tcpClient s) = true
  /\ inBinaryMode (xfer s) = false
  /\ rx (tcpClient s) = []
  /\ recvBuffer s = [].

(** The state [handleTcpClient] hands to the dispatcher after it has read
    the socket: the card is the one of the round, the socket is empty and
    [rest] is what [readJsonMessage] kept. *)
Definition afterRead (card : SdCard) (rest : bytes) (s : State) : State :=
  set_recvBuffer rest
    (set_tcpClient (mkTcp [] true (tx (tcpClient s)) (flushClearsRx (tcpClient s)))
       (set_sink (set_card card (sink s)) s)).

(** [key] stands in [data] at position [i]. *)
Definition occursAt (key data : bytes) (i : nat) : Prop :=
  Str.starts_with key (skipn i data) = true.

(** A space or a tab. *)
Definition is_blank (c : ascii) : bool := Ascii.eqb c " " || Ascii.eqb c tab.

(** The reply Calibre sends to the broadcast: a greeting, the host name in
    [(on ...)], and the two ports. *)
Definition discoveryReply (head host : bytes) (main alt : Z) (trailer : bytes)
  : bytes :=
  head ++ lit "(on " ++ host ++ lit ");" ++ to_string main ++ lit ","
       ++ to_string alt ++ trailer.

(** The hexadecimal digit of a value below 16, as [%x] prints it. *)
Definition hexDigit (d : Z) : ascii := nth (Z.to_nat d) (lit "0123456789abcdef") zero.

(** The range of a [uint8_t]. *)
Definition is_byte (n : Z) : Prop := 0 <= n <= 255.

(** The frame of the reply with opcode number [code] and payload [json]. *)
Definition reply (code : Z) (json : bytes) : bytes := frame (envelope code json).

(** What is pending on the socket of [s] after the frames [ws] have been
    written to it, each with the [flush()] of [sendJsonResponse] behind
    it. *)
Definition pendingAfter (s : State) (ws : list bytes) : bytes :=
  match ws with
  | [] => rx (tcpClient s)
  | _ :: _ => flushed (tcpClient s) (rx (tcpClient s))
  end.

(** What a call wrote to the socket: nothing, or the one frame [w]. *)
Definition wrote (s s' : State) (ws : list bytes) : Prop :=
  tx (tcpClient s') = tx (tcpClient s) ++ ws
  /\ rx (tcpClient s') = pendingAfter s ws
  /\ connected (tcpClient s') = connected (tcpClient s)
  /\ flushClearsRx (tcpClient s') = flushClearsRx (tcpClient s).

(** The command [o] was answered with one reply, and nothing else of the
    socket changed but what the [flush()] behind the reply did. *)
Definition answered (o : OpCode.t) (s s' : State) : Prop :=
  exists code json,
    wrote s s' [reply code json]
    /\ ((code = 12 /\ o = OpCode.NOOP)
        \/ (code = 0 /\ o <> OpCode.NOOP)
        \/ (code = 20 /\ o = OpCode.SEND_BOOK))
    /\ (o <> OpCode.SEND_BOOK ->
        sink s' = sink s /\ xfer s' = xfer s /\ recvBuffer s' = recvBuffer s
        /\ peer s' = peer s).

(** What a round adds to the socket: nothing, or one reply frame with
    opcode [OK], [NOOP] or [ERROR]. *)
Definition writes (s s' : State) : Prop :=
  tx (tcpClient s') = tx (tcpClient s)
  \/ exists code json,
       (code = 0 \/ code = 12 \/ code = 20)
       /\ tx (tcpClient s') = tx (tcpClient s) ++ [reply code json].

(** The state [s] on a socket whose [flush()] leaves pending input
    alone. *)
Definition keepsInput (s : State) : State :=
  set_tcpClient (mkTcp (rx (tcpClient s)) (connected (tcpClient s))
                       (tx (tcpClient s)) false) s.

(** The calls of [onExit] that delete a mutex. *)
Definition isSemaphoreDelete (e : Effect) : bool :=
  match e with SemaphoreDelete => true | _ => false end.

(** The state shown agrees with the transfer mode. *)
Definition mode_inv (s : State) : Prop :=
  state (ui s) <> WirelessState.COMPLETE
  /\ state (ui s) <> WirelessState.CONNECTING
  /\ (state (ui s) = WirelessState.RECEIVING -> inBinaryMode (xfer s) = true)
  /\ (inBinaryMode (xfer s) = true ->
      state (ui s) = WirelessState.RECEIVING
      \/ state (ui s) = WirelessState.DISCONNECTED).

(** Closes a goal on [mode_inv] once the state is known. *)
Ltac mode_done :=
  unfold mode_inv in *;
  cbn [ui xfer state inBinaryMode respond set_tcpClient set_ui set_xfer
       set_sink set_recvBuffer set_peer setState setStatus setError
       set_updateRequired set_inBinaryMode set_binaryBytesRemaining consume] in *;
  repeat split; intros; try congruence; try discriminate; intuition congruence.

(** Lines of text drawn 25 pixels apart from [y] down. *)
Fixpoint drawLines (y : Z) (texts : list bytes) : list Draw :=
  match texts with
  | [] => []
  | t :: texts' =>
      DrawCenteredText UI_10_FONT_ID y t false :: drawLines (y + 25) texts'
  end.

(** A transfer cut by the peer: the state shown is [DISCONNECTED], the
    file is still open and holds, with the coalescing buffer, the bytes
    [stored]; [tx0] is what was written to the socket. *)
Definition stranded (tx0 : list bytes) (stored : bytes) (s : State) : Prop :=
  state (ui s) = WirelessState.DISCONNECTED
  /\ inBinaryMode (xfer s) = true
  /\ currentWriteFile (sink s) = true
  /\ isOpen (currentFile (sink s)) = true
  /\ written (currentFile (sink s)) ++ writeBuffer (sink s) = stored
  /\ writeScript (card (sink s)) = []
  /\ tx (tcpClient s) = tx0.

(** A panel whose rows are whole bytes and whose buffer is indexed by a
    [uint16_t]. *)
Definition panel_ok (p : Panel) : Prop :=
  0 < DISPLAY_HEIGHT p /\ 0 < DISPLAY_WIDTH_BYTES p
  /\ DISPLAY_WIDTH p = 8 * DISPLAY_WIDTH_BYTES p
  /\ BUFFER_SIZE p = DISPLAY_WIDTH_BYTES p * DISPLAY_HEIGHT p
  /\ BUFFER_SIZE p <= 65536.

(** A buffer of the size of the panel, holding bytes. *)
Definition buffer_ok (p : Panel) (frameBuffer : list Z) : Prop :=
  Z.of_nat (length frameBuffer) = BUFFER_SIZE p /\ Forall is_byte frameBuffer.

(** A point of the screen, in the coordinates of the callers (portrait). *)
Definition onScreen (p : Panel) (x y : Z) : Prop :=
  0 <= x < getScreenWidth p /\ 0 <= y < getScreenHeight p.

(** The colour of a point of the screen in the buffer: black is a bit that
    is clear. *)
Definition isBlack (p : Panel) (frameBuffer : list Z) (x y : Z) : bool :=
  negb (Z.testbit
          (nth (Z.to_nat ((DISPLAY_HEIGHT p - 1 - x) * DISPLAY_WIDTH_BYTES p + y / 8))
               frameBuffer 0)
          (7 - y mod 8)).

(** [m'] is [m] with the points of [region] painted [state], and every
    other point of the screen as it was. *)
Definition painted (p : Panel) (region : Z -> Z -> bool) (state : bool)
                   (m m' : Mem) : Prop :=
  exists frameBuffer frameBuffer',
    m = Buffer frameBuffer /\ m' = Buffer frameBuffer'
    /\ buffer_ok p frameBuffer'
    /\ forall x y, onScreen p x y ->
         isBlack p frameBuffer' x y
         = if region x y then state else isBlack p frameBuffer x y.

(** [lo <= v <= hi]. *)
Definition between (lo hi v : Z) : bool := (lo <=? v) && (v <=? hi).

(** A panel of 16 by 4 points, two bytes a row, and its buffer, all
    white. *)
Definition smallPanel : Panel := mkPanel 16 4 2 8.
Definition whiteBuffer : list Z := repeat 255 8.

(** The points of the segment from [(x1, y1)] to [(x2, y2)] that
    [drawLine] draws: all of them for a vertical or a horizontal segment,
    none otherwise. *)
Definition segment (x1 y1 x2 y2 : Z) (x y : Z) : bool :=
  if x1 =? x2 then (x =? x1) && between (Z.min y1 y2) (Z.max y1 y2) y
  else if y1 =? y2 then (y =? y1) && between (Z.min x1 x2) (Z.max x1 x2) x
  else false.

(** The rows [fillRect] fills: [height] rows from [y] down, each from
    column [x] to column [x + width - 1]. *)
Definition filled (x y width height : Z) (px py : Z) : bool :=
  between y (y + height - 1) py
  && between (Z.min x (x + width - 1)) (Z.max x (x + width - 1)) px.

(** The outline [drawRect] draws for a rectangle that is not empty. *)
Definition outline (x y width height : Z) (px py : Z) : bool :=
  between x (x + width - 1) px && between y (y + height - 1) py
  && ((px =? x) || (px =? x + width - 1) || (py =? y) || (py =? y + height - 1)).

(** What [render] reads of the activity. *)
Definition shown (s : State) : WirelessState.t * bytes * bytes * Z * Z :=
  (state (ui s), statusMessage (ui s), errorMessage (ui s),
   bytesReceived (xfer s), currentFileSize (xfer s)).

(** The round left the display to be redrawn, or changed nothing of what
    is drawn. *)
Definition refreshed (s s' : State) : Prop :=
  updateRequired (ui s') = true \/ shown s' = shown s.

(** Closes a goal on [refreshed] once the state is known. *)
Ltac refresh_done :=
  unfold refreshed, shown;
  cbn [ui xfer state statusMessage errorMessage updateRequired bytesReceived
       currentFileSize respond set_tcpClient set_ui set_xfer
       set_sink set_recvBuffer set_peer setState setStatus setError
       set_updateRequired set_inBinaryMode set_binaryBytesRemaining consume];
  first [left; reflexivity | right; reflexivity].

(** The value the font holds for the point at [pixelPosition] of a glyph:
    two bits a point, four points a byte, the first point in the top bits
    (0 is white, 3 is black); or one bit a point, eight points a byte. *)
Definition fontValue (is2Bit : bool) (bitmap : list Z) (pixelPosition : Z) : Z :=
  if is2Bit
  then Z.land (Z.shiftr (nth (Z.to_nat (pixelPosition / 4)) bitmap 0)
                        (2 * (3 - pixelPosition mod 4))) 3
  else Z.land (Z.shiftr (nth (Z.to_nat (pixelPosition / 8)) bitmap 0)
                        (7 - pixelPosition mod 8)) 1.

(** Whether a point with that value is drawn in a render mode. *)
Definition inked (renderMode : RenderMode) (is2Bit : bool) (v : Z) : bool :=
  if is2Bit then
    match renderMode with
    | BW => negb (v =? 0)
    | GRAYSCALE_MSB => (v =? 1) || (v =? 2)
    | GRAYSCALE_LSB => v =? 2
    end
  else negb (v =? 0).

(** The colour it is drawn in. *)
Definition inkColour (renderMode : RenderMode) (is2Bit : bool) (pixelState : bool)
  : bool :=
  if is2Bit then
    match renderMode with BW => pixelState | _ => false end
  else pixelState.

(** The points of the screen a glyph drawn at [(x, y)] covers. *)
Definition glyphRegion (renderMode : RenderMode) (is2Bit : bool)
    (glyph : EpdGlyph.t) (x y : Z) (px py : Z) : bool :=
  let glyphX := px - (x + EpdGlyph.left glyph) in
  let glyphY := py - (y - EpdGlyph.top glyph) in
  between 0 (EpdGlyph.width glyph - 1) glyphX
  && between 0 (EpdGlyph.height glyph - 1) glyphY
  && inked renderMode is2Bit
       (fontValue is2Bit (EpdGlyph.bitmap glyph)
                  (glyphY * EpdGlyph.width glyph + glyphX)).

(** A glyph whose bitmap holds all its points. *)
Definition glyph_ok (is2Bit : bool) (glyph : EpdGlyph.t) : Prop :=
  0 <= EpdGlyph.width glyph <= 255 /\ 0 <= EpdGlyph.height glyph <= 255
  /\ Forall is_byte (EpdGlyph.bitmap glyph)
  /\ EpdGlyph.width glyph * EpdGlyph.height glyph
     <= (if is2Bit then 4 else 8) * Z.of_nat (length (EpdGlyph.bitmap glyph)).

(** A glyph of three points by two, two bits a point: black, light gray,
    white; dark gray, black, white. *)
Definition sampleGlyph : EpdGlyph.t := EpdGlyph.mk 3 2 1 2 4 [210; 192].

Definition sampleFont (cp : Z) : option EpdGlyph.t :=
  if cp =? 63 then Some sampleGlyph else None.

(** Projections of a state through the setters. *)
Ltac fields :=
  cbn [xfer sink ui peer recvBuffer tcpClient
       set_sink set_ui set_peer set_xfer set_recvBuffer set_tcpClient respond
       set_inBinaryMode set_binaryBytesRemaining consume
       currentFilename currentFileSize bytesReceived inBinaryMode
       binaryBytesRemaining] in *.

(** * Properties *)

(** ** The reply and the socket *)

(** What [sendJsonResponse] leaves of the socket: the frame is added to what
    was written, and [flush()] has gone over what was pending. *)
Lemma sendJsonResponse_eq (opcode : OpCode.t) (data : bytes) (t : Tcp) :
  sendJsonResponse opcode data t
  = mkTcp (flushed t (rx t)) (connected t)
          (tx t ++ [frame (lit "[" ++ to_string (OpCode.to_int opcode)
                             ++ lit "," ++ data ++ lit "]")])
          (flushClearsRx t).
Proof.
  unfold sendJsonResponse, tcpFlush, tcpWrite, flushed, frame.
  destruct t as [r c x [|]]; reflexivity.
Qed.

Lemma flushed_nil (t : Tcp) : flushed t [] = [].
Proof. unfold flushed. now destruct (flushClearsRx t). Qed.

Lemma respond_tx (opcode : OpCode.t) (data : bytes) (s : State) :
  tx (tcpClient (respond opcode data s))
  = tx (tcpClient s) ++ [reply (OpCode.to_int opcode) data].
Proof.
  unfold respond. cbn [tcpClient set_tcpClient]. now rewrite sendJsonResponse_eq.
Qed.

Lemma respond_rx (opcode : OpCode.t) (data : bytes) (s : State) :
  rx (tcpClient (respond opcode data s))
  = flushed (tcpClient s) (rx (tcpClient s)).
Proof.
  unfold respond. cbn [tcpClient set_tcpClient]. now rewrite sendJsonResponse_eq.
Qed.

(** ** Facts about strings *)

Lemma size_nonneg (s : bytes) : 0 <= Str.size s.
Proof. unfold Str.size. lia. Qed.

Lemma size_app (a b : bytes) : Str.size (a ++ b) = Str.size a + Str.size b.
Proof. unfold Str.size. rewrite length_app. lia. Qed.

Lemma size_nil_iff (s : bytes) : Str.size s = 0 <-> s = [].
Proof.
  unfold Str.size. destruct s; split; intros H;
    try reflexivity; try discriminate; simpl length in H; lia.
Qed.


Lemma empty_true_iff (s : bytes) : Str.empty s = true <-> s = [].
Proof. destruct s; simpl; split; intros; congruence. Qed.

(** [Str.find] returns the first position of the character. *)
Lemma find_some (c : ascii) (s : bytes) (i : nat) :
  Str.find c s = Some i ->
  exists pre post, s = pre ++ c :: post /\ length pre = i /\ ~ In c pre.
Proof.
  revert i. induction s as [|x r IH]; simpl; intros i H.
  - discriminate.
  - destruct (Ascii.eqb_spec x c) as [->|Hne].
    + injection H as <-. exists [], r. simpl. auto.
    + destruct (Str.find c r) as [j|] eqn:Hr; simpl in H; [|discriminate].
      injection H as <-.
      destruct (IH j eq_refl) as (pre & post & -> & Hlen & Hnot).
      exists (x :: pre), post. simpl. repeat split; auto.
      intros [Hx|Hin]; auto.
Qed.

Lemma find_none (c : ascii) (s : bytes) :
  Str.find c s = None -> ~ In c s.
Proof.
  induction s as [|x r IH]; simpl; intros H; auto.
  destruct (Ascii.eqb_spec x c) as [->|Hne]; [discriminate|].
  destruct (Str.find c r); simpl in H; [discriminate|].
  intros [Hx|Hin]; auto. now apply IH.
Qed.

Lemma find_first (c : ascii) (pre post : bytes) :
  ~ In c pre -> Str.find c (pre ++ c :: post) = Some (length pre).
Proof.
  induction pre as [|x r IH]; simpl; intros Hnot.
  - now rewrite Ascii.eqb_refl.
  - destruct (Ascii.eqb_spec x c) as [->|Hne].
    + exfalso. apply Hnot. now left.
    + rewrite IH; auto.
Qed.

Lemma find_absent (c : ascii) (s : bytes) :
  ~ In c s -> Str.find c s = None.
Proof.
  induction s as [|x r IH]; simpl; intros Hnot; auto.
  destruct (Ascii.eqb_spec x c) as [->|Hne].
  - exfalso. apply Hnot. now left.
  - rewrite IH; auto.
Qed.

(** ** The read loop takes everything the socket holds *)

Lemma readLoop_all (rounds : nat) (rx recvBuffer : bytes) :
  (length rx < rounds)%nat ->
  readLoop rounds (Str.size rx) rx recvBuffer = ([], recvBuffer ++ rx).
Proof.
  revert rx recvBuffer.
  induction rounds as [|rounds IH]; intros rx recvBuffer Hlt; [lia|].
  simpl. destruct (0 <? Str.size rx) eqn:Hpos.
  - apply Z.ltb_lt in Hpos.
    set (toRead := Z.to_nat (Z.min (Str.size rx) 1024)).
    assert (Hto : (0 < toRead <= length rx)%nat) by (unfold toRead, Str.size in *; lia).
    assert (Hchunk : Str.size (firstn toRead rx) = Z.of_nat toRead).
    { unfold Str.size. rewrite length_firstn. lia. }
    rewrite Hchunk.
    replace (0 <? Z.of_nat toRead) with true by (symmetry; apply Z.ltb_lt; lia).
    replace (Str.size rx - Z.of_nat toRead) with (Str.size (skipn toRead rx))
      by (unfold Str.size; rewrite length_skipn; lia).
    rewrite IH by (rewrite length_skipn; lia).
    now rewrite <- app_assoc, firstn_skipn.
  - apply Z.ltb_ge in Hpos.
    assert (rx = []) as -> by (apply size_nil_iff; pose proof (size_nonneg rx); lia).
    now rewrite app_nil_r.
Qed.

(** [readJsonMessage] in one equation: the guard on the size, then the
    extraction from the buffer with everything pending appended. *)
Lemma readJsonMessage_eq (rx recvBuffer : bytes) :
  readJsonMessage rx recvBuffer =
  if (0 <? Str.size rx) && (RECV_BUFFER_CAP <? Str.size recvBuffer)
  then Ok (None, (rx, []))
  else '(message, buf) <- extractMessage (recvBuffer ++ rx) ;;
       Ok (message, ([], buf)).
Proof.
  unfold readJsonMessage.
  destruct ((0 <? Str.size rx) && (RECV_BUFFER_CAP <? Str.size recvBuffer)); auto.
  destruct (0 <? Str.size rx) eqn:Hpos.
  - rewrite readLoop_all by lia. reflexivity.
  - apply Z.ltb_ge in Hpos.
    assert (rx = []) as -> by (apply size_nil_iff; pose proof (size_nonneg rx); lia).
    now rewrite app_nil_r.
Qed.


(** ** Facts about digits *)

Lemma digit_facts (c : ascii) :
  is_digit c = true ->
  is_space c = false /\ c <> "-"%char /\ c <> "+"%char /\ c <> "["%char
  /\ 0 <= digit_val c <= 9.
Proof.
  destruct c as [b0 b1 b2 b3 b4 b5 b6 b7].
  destruct b0, b1, b2, b3, b4, b5, b6, b7; vm_compute; intros H;
    try discriminate H;
    (repeat split; try discriminate; intros ?; discriminate).
Qed.

Lemma decimal_app (a b : bytes) :
  decimal (a ++ b) =
  fold_left (fun acc c => acc * 10 + digit_val c) b (decimal a).
Proof. unfold decimal. now rewrite fold_left_app. Qed.

Lemma fold_digits_nonneg (ds : bytes) (acc : Z) :
  forallb is_digit ds = true -> 0 <= acc ->
  0 <= fold_left (fun acc c => acc * 10 + digit_val c) ds acc.
Proof.
  revert acc. induction ds as [|c r IH]; simpl; intros acc Hd Hacc; [lia|].
  apply andb_prop in Hd as [Hc Hr].
  apply IH; auto. pose proof (digit_facts c Hc). lia.
Qed.

Lemma decimal_nonneg (ds : bytes) :
  forallb is_digit ds = true -> 0 <= decimal ds.
Proof. intros. apply fold_digits_nonneg; auto. lia. Qed.

Lemma take_digits_all (ds : bytes) :
  forallb is_digit ds = true -> take_digits ds = ds.
Proof.
  induction ds as [|c r IH]; simpl; auto.
  intros H. apply andb_prop in H as [-> Hr]. now rewrite IH.
Qed.

Lemma take_digits_digits (s : bytes) : forallb is_digit (take_digits s) = true.
Proof.
  induction s as [|c r IH]; simpl; auto.
  destruct (is_digit c) eqn:Hc; simpl; auto. now rewrite Hc.
Qed.

Lemma drop_digits_all (ds : bytes) :
  forallb is_digit ds = true -> drop_digits ds = [].
Proof.
  induction ds as [|c r IH]; simpl; auto.
  intros H. apply andb_prop in H as [-> Hr]. now apply IH.
Qed.

Lemma digits_no_bracket (ds : bytes) :
  forallb is_digit ds = true -> ~ In "["%char ds.
Proof.
  induction ds as [|c r IH]; simpl; auto.
  intros H. apply andb_prop in H as [Hc Hr].
  intros [->|Hin]; [discriminate Hc|]. now apply IH.
Qed.

(** On a text made of digits only, the three readers see the whole text. *)
Lemma digits_subject (ds : bytes) :
  ds <> [] -> forallb is_digit ds = true ->
  split_sign (skip_space ds) = (false, ds).
Proof.
  destruct ds as [|c r]; [congruence|]. simpl. intros _ H.
  apply andb_prop in H as [Hc _].
  destruct (digit_facts c Hc) as (Hsp & Hm & Hp & _).
  rewrite Hsp. unfold split_sign.
  destruct c as [b0 b1 b2 b3 b4 b5 b6 b7].
  destruct b0, b1, b2, b3, b4, b5, b6, b7; try reflexivity; congruence.
Qed.

Lemma stoul_digits (ds : bytes) :
  ds <> [] -> forallb is_digit ds = true ->
  stoul ds = if UINT32_MAX <? decimal ds then Throw out_of_range
             else Ok (decimal ds).
Proof.
  intros Hne Hd. unfold stoul. rewrite digits_subject by auto.
  rewrite take_digits_all by auto.
  destruct ds; [congruence|reflexivity].
Qed.

Lemma strtoul_digits (ds : bytes) :
  ds <> [] -> forallb is_digit ds = true ->
  strtoul ds = (Z.min (decimal ds) UINT32_MAX, []).
Proof.
  intros Hne Hd. unfold strtoul. rewrite digits_subject by auto.
  rewrite take_digits_all, drop_digits_all by auto.
  destruct ds as [|c r]; [congruence|].
  destruct (UINT32_MAX <? decimal (c :: r)) eqn:Hcmp; f_equal.
  - apply Z.ltb_lt in Hcmp. lia.
  - apply Z.ltb_ge in Hcmp. lia.
Qed.

Lemma firstn_app_exact {A} (a b : list A) : firstn (length a) (a ++ b) = a.
Proof. now rewrite firstn_app, Nat.sub_diag, firstn_all, app_nil_r. Qed.

Lemma skipn_app_exact {A} (a b : list A) : skipn (length a) (a ++ b) = b.
Proof. now rewrite skipn_app, Nat.sub_diag, skipn_all. Qed.

(** ** A well-formed frame at the head of the buffer is extracted *)

Lemma extractMessage_frame (ds body' rest : bytes) :
  ds <> [] -> (length ds <= 12)%nat -> forallb is_digit ds = true ->
  decimal ds = Str.size ("["%char :: body') ->
  Str.size ("["%char :: body') <= MAX_MESSAGE_LEN ->
  extractMessage (ds ++ ("["%char :: body') ++ rest)
  = Ok (Some ("["%char :: body'), rest).
Proof.
  intros Hne Hlen Hd Hdec Hmax.
  assert (Hfind : Str.find "[" (ds ++ ("["%char :: body') ++ rest) = Some (length ds))
    by (apply find_first; now apply digits_no_bracket).
  remember ("["%char :: body') as body eqn:Hbody.
  assert (Hsize : Str.size (ds ++ body ++ rest)
                  = Z.of_nat (length ds) + decimal ds + Str.size rest).
  { rewrite !size_app. unfold Str.size at 1. lia. }
  pose proof (size_nonneg rest) as Hrest.
  unfold extractMessage.
  replace (Str.empty (ds ++ body ++ rest)) with false
    by (destruct ds; [congruence|reflexivity]).
  rewrite Hfind. unfold lengthPrefix.
  replace ((0 <? length ds)%nat && (length ds <=? 12)%nat) with true.
  2:{ symmetry. apply andb_true_iff. split.
      - apply Nat.ltb_lt. destruct ds; [congruence|simpl; lia].
      - now apply Nat.leb_le. }
  unfold Str.substr. simpl skipn.
  rewrite !firstn_app_exact, Hd, (stoul_digits ds Hne Hd).
  unfold MAX_MESSAGE_LEN, UINT32_MAX in *.
  replace (4294967295 <? decimal ds) with false by (symmetry; apply Z.ltb_ge; lia).
  simpl bind.
  replace (1000000 <? decimal ds) with false by (symmetry; apply Z.ltb_ge; lia).
  rewrite Hsize.
  replace (Z.of_nat (length ds) + decimal ds + Str.size rest
           <? Z.of_nat (length ds) + decimal ds) with false
    by (symmetry; apply Z.ltb_ge; lia).
  rewrite skipn_app_exact.
  replace (Z.to_nat (decimal ds)) with (length body)
    by (rewrite Hdec; unfold Str.size; lia).
  rewrite firstn_app_exact.
  destruct (Z.of_nat (length ds) + decimal ds
            <? Z.of_nat (length ds) + decimal ds + Str.size rest) eqn:Hmore.
  - f_equal. f_equal. unfold Str.substr_from.
    replace (Z.to_nat (Z.of_nat (length ds) + decimal ds))
      with (length (ds ++ body)) by (rewrite length_app, Hdec; unfold Str.size; lia).
    now rewrite app_assoc, skipn_app_exact.
  - apply Z.ltb_ge in Hmore.
    assert (rest = []) as -> by (apply size_nil_iff; lia). reflexivity.
Qed.

(** ** Framing codec *)

(** A buffer that starts with the bracket is left as it is. *)
Lemma extractMessage_bracket_first (r : bytes) :
  extractMessage ("["%char :: r) = Ok (None, "["%char :: r).
Proof. reflexivity. Qed.

(** With nothing pending on the socket the call is the extraction alone. *)
Lemma readJsonMessage_idle (recvBuffer : bytes) :
  readJsonMessage [] recvBuffer =
  '(message, buf) <- extractMessage recvBuffer ;; Ok (message, ([], buf)).
Proof. rewrite readJsonMessage_eq. simpl andb. cbv iota. now rewrite app_nil_r. Qed.

Lemma nthPoll_bracket_first (n : nat) (r : bytes) :
  nthPoll n ("["%char :: r) = Ok (None, "["%char :: r).
Proof.
  induction n as [|n IH]; cbn [nthPoll];
    rewrite readJsonMessage_idle, extractMessage_bracket_first; simpl bind.
  - reflexivity.
  - exact IH.
Qed.

(** An invalid prefix is discarded up to the bracket. *)
Lemma extractMessage_invalid_prefix (pre post : bytes) :
  pre <> [] -> ~ In "["%char pre ->
  forallb is_digit pre = false \/ (12 < length pre)%nat ->
  extractMessage (pre ++ "["%char :: post) = Ok (None, "["%char :: post).
Proof.
  intros Hne Hnot Hbad. unfold extractMessage.
  replace (Str.empty (pre ++ "["%char :: post)) with false
    by (destruct pre; [congruence|reflexivity]).
  rewrite find_first by assumption.
  assert (Hpos : (0 <? length pre)%nat = true)
    by (apply Nat.ltb_lt; destruct pre; [congruence|simpl; lia]).
  assert (Hpre : lengthPrefix (length pre) (pre ++ "["%char :: post) = Ok None).
  { unfold lengthPrefix. rewrite Hpos, firstn_app_exact. simpl andb.
    destruct Hbad as [Hdig|Hlong].
    - rewrite Hdig. now destruct (length pre <=? 12)%nat.
    - replace (length pre <=? 12)%nat with false; auto.
      symmetry. apply Nat.leb_gt. lia. }
  rewrite Hpre. simpl bind. rewrite Hpos.
  unfold Str.substr_from. now rewrite skipn_app_exact.
Qed.

(** A message comes out only from behind a prefix of one to twelve digits,
    and is as long as the prefix says. *)
Lemma extractMessage_some (w message rest : bytes) :
  extractMessage w = Ok (Some message, rest) ->
  exists ds tail,
    w = ds ++ "["%char :: tail /\ ds <> [] /\ (length ds <= 12)%nat
    /\ forallb is_digit ds = true
    /\ message = firstn (Z.to_nat (decimal ds)) ("["%char :: tail)
    /\ Str.size message = decimal ds.
Proof.
  unfold extractMessage. intros H.
  destruct (Str.empty w); [discriminate|].
  destruct (Str.find "[" w) as [p|] eqn:Hfind.
  2:{ destruct (NO_BRACKET_LIMIT <? Str.size w); discriminate. }
  destruct (find_some _ _ _ Hfind) as (ds & tail & -> & Hlen & Hnot).
  subst p. unfold lengthPrefix in H.
  destruct ((0 <? length ds)%nat && (length ds <=? 12)%nat) eqn:Hrange.
  2:{ simpl in H. destruct (0 <? length ds)%nat; discriminate. }
  apply andb_prop in Hrange as [Hpos Hle].
  apply Nat.ltb_lt in Hpos. apply Nat.leb_le in Hle.
  assert (Hne : ds <> []) by (destruct ds; [simpl in Hpos; lia|congruence]).
  unfold Str.substr in H. simpl skipn in H. rewrite !firstn_app_exact in H.
  destruct (forallb is_digit ds) eqn:Hd.
  2:{ simpl in H. destruct (0 <? length ds)%nat; discriminate. }
  rewrite (stoul_digits ds Hne Hd) in H.
  destruct (UINT32_MAX <? decimal ds); [discriminate|]. simpl bind in H.
  destruct (MAX_MESSAGE_LEN <? decimal ds); [discriminate|].
  destruct (Str.size (ds ++ "["%char :: tail) <? Z.of_nat (length ds) + decimal ds)
    eqn:Hshort; [discriminate|].
  apply Z.ltb_ge in Hshort. rewrite skipn_app_exact in H.
  assert (Hmsg : message = firstn (Z.to_nat (decimal ds)) ("["%char :: tail))
    by (destruct (Z.of_nat (length ds) + decimal ds <? Str.size (ds ++ "["%char :: tail));
        now injection H as <- _).
  exists ds, tail. repeat split; auto.
  rewrite Hmsg. unfold Str.size in *. rewrite length_firstn.
  rewrite length_app in Hshort. pose proof (decimal_nonneg ds Hd). lia.
Qed.

(** C1, as the code has it: on ["garbage[5,{}]more"] the first call
    discards exactly ["garbage"] and reports no frame, keeping
    ["[5,{}]more"]; whenever the bytes before the first bracket are not empty
    and are not one to twelve digits, a call discards them (at least one
    byte) and reports no frame; and a call yields a frame only from behind a
    prefix of one to twelve digits, so the frame without a prefix is not
    extracted. *)
Theorem garbage_resync_needs_prefix :
  readJsonMessage [] (lit "garbage[5,{}]more") = Ok (None, ([], lit "[5,{}]more"))
  /\ (forall pre post : bytes,
        pre <> [] -> ~ In "["%char pre ->
        forallb is_digit pre = false \/ (12 < length pre)%nat ->
        readJsonMessage [] (pre ++ "["%char :: post)
        = Ok (None, ([], "["%char :: post))
        /\ Str.size ("["%char :: post) + 1 <= Str.size (pre ++ "["%char :: post))
  /\ (forall rx recvBuffer message rx' recvBuffer',
        readJsonMessage rx recvBuffer = Ok (Some message, (rx', recvBuffer')) ->
        exists ds tail,
          recvBuffer ++ rx = ds ++ "["%char :: tail /\ ds <> []
          /\ (length ds <= 12)%nat /\ forallb is_digit ds = true
          /\ message = firstn (Z.to_nat (decimal ds)) ("["%char :: tail)
          /\ Str.size message = decimal ds).
Proof.
  split; [reflexivity|]. split.
  - intros pre post Hne Hnot Hbad. split.
    + rewrite readJsonMessage_idle.
      now rewrite extractMessage_invalid_prefix.
    + rewrite size_app. unfold Str.size at 2.
      destruct pre; [congruence|]. simpl length. lia.
  - intros rx recvBuffer message rx' recvBuffer' H.
    rewrite readJsonMessage_eq in H.
    destruct ((0 <? Str.size rx) && (RECV_BUFFER_CAP <? Str.size recvBuffer));
      [discriminate|].
    destruct (extractMessage (recvBuffer ++ rx)) as [[m b]| |] eqn:Hex;
      simpl in H; try discriminate.
    injection H as -> _ _. eapply extractMessage_some. exact Hex.
Qed.

Lemma garbage_resync_needs_prefix_witness :
  lit "garbage" <> [] /\ ~ In "["%char (lit "garbage")
  /\ readJsonMessage [] (lit "garbage" ++ "["%char :: lit "5,{}]more")
     = Ok (None, ([], "["%char :: lit "5,{}]more")).
Proof.
  assert (Hne : lit "garbage" <> []) by discriminate.
  assert (Hnot : ~ In "["%char (lit "garbage"))
    by (vm_compute; intros H; repeat (destruct H as [H|H]; [discriminate H|]); exact H).
  split; [exact Hne|]. split; [exact Hnot|].
  apply (proj1 (proj2 garbage_resync_needs_prefix) (lit "garbage") (lit "5,{}]more")
               Hne Hnot (or_introl eq_refl)).
Defined.

(** C1 as stated fails: on ["garbage[5,{}]more"], with nothing more
    arriving, no call ever returns a frame, and from the second call on the
    buffer keeps all its bytes. *)
Lemma unprefixed_frame_never_extracted :
  ~ (exists n message rest,
       nthPoll n (lit "garbage[5,{}]more") = Ok (Some message, rest))
  /\ nthPoll 1 (lit "garbage[5,{}]more") = Ok (None, lit "[5,{}]more")
  /\ readJsonMessage [] (lit "[5,{}]more") = Ok (None, ([], lit "[5,{}]more")).
Proof.
  split; [|split; reflexivity].
  intros (n & message & rest & H).
  destruct n as [|n]; [discriminate H|].
  change (nthPoll (S n) (lit "garbage[5,{}]more"))
    with (nthPoll n ("["%char :: lit "5,{}]more")) in H.
  rewrite nthPoll_bracket_first in H. discriminate H.
Qed.








(** ** The top-level [length] *)

Lemma skipn_step {A} (l : list A) (i : nat) (c : A) (r : list A) :
  skipn i l = c :: r ->
  skipn (S i) l = r /\ firstn (S i) l = firstn i l ++ [c].
Proof.
  revert i. induction l as [|x l IH]; intros i H.
  - rewrite skipn_nil in H. discriminate.
  - destruct i as [|i].
    + simpl in H. injection H as -> ->. simpl. auto.
    + simpl in H. destruct (IH i H) as [Hs Hf]. split.
      * exact Hs.
      * change (firstn (S (S i)) (x :: l)) with (x :: firstn (S i) l).
        rewrite Hf. reflexivity.
Qed.

Lemma depthAt_step (data : bytes) (i : nat) (c : ascii) (r : bytes) :
  skipn i data = c :: r -> depthAt data (S i) = bump (depthAt data i) c.
Proof.
  intros H. unfold depthAt. destruct (skipn_step _ _ _ _ H) as [_ ->].
  now rewrite fold_left_app.
Qed.

Lemma str_eqb_eq (a b : bytes) : Str.eqb a b = true -> a = b.
Proof. unfold Str.eqb. destruct (list_eq_dec ascii_dec a b); congruence. Qed.

Lemma lengthAt_key (data : bytes) (p : nat) (n : Z) :
  lengthAt data p = Some n -> Str.substr p 8 data = lit "'length'".
Proof.
  unfold lengthAt. intros H.
  destruct (Z.of_nat p + 9 <? Str.size data); simpl in H; [|discriminate].
  destruct (Str.eqb (Str.substr p 8 data) (lit "'length'")) eqn:Hkey;
    [|discriminate].
  now apply str_eqb_eq.
Qed.

(** The counter of the loop is [depthAt], and the loop breaks only where
    it is 1. *)
Lemma scanLength_depth (data rest : bytes) (i : nat) (p : nat) (n : Z) :
  skipn i data = rest ->
  scanLength data rest i (depthAt data i) = Some (p, n) ->
  depthAt data p = 1 /\ lengthAt data p = Some n /\ (i <= p)%nat.
Proof.
  revert i. induction rest as [|c rest' IH]; intros i Hrest H; [discriminate|].
  destruct (skipn_step _ _ _ _ Hrest) as [Hnext _].
  pose proof (depthAt_step _ _ _ _ Hrest) as Hdepth.
  unfold bump in Hdepth. simpl in H.
  destruct (opens c).
  { rewrite <- Hdepth in H. destruct (IH _ Hnext H) as (? & ? & ?).
    repeat split; auto; lia. }
  destruct (closes c).
  { rewrite <- Hdepth in H. destruct (IH _ Hnext H) as (? & ? & ?).
    repeat split; auto; lia. }
  destruct ((depthAt data i =? 1) && Ascii.eqb c dquote) eqn:Hq.
  - destruct (lengthAt data i) as [len|] eqn:Hat.
    + injection H as <- <-. apply andb_prop in Hq as [Hone _].
      apply Z.eqb_eq in Hone. auto.
    + rewrite <- Hdepth in H. destruct (IH _ Hnext H) as (? & ? & ?).
      repeat split; auto; lia.
  - rewrite <- Hdepth in H. destruct (IH _ Hnext H) as (? & ? & ?).
    repeat split; auto; lia.
Qed.

(** The payload with a nested [length] of 7 and a top-level [length] of
    1234 gives 1234, the counter being 2 at the nested key; and for every
    payload, a [length] that is not 0 was read at a position where the
    text is the quoted key and the counter of the loop is 1. *)
Lemma top_level_length_only :
  extractLength sendBookPayload = 1234
  /\ Str.substr 28 8 sendBookPayload = lit "'length'"
  /\ depthAt sendBookPayload 28 = 2
  /\ (forall data : bytes,
        extractLength data <> 0 ->
        exists p,
          depthAt data p = 1
          /\ Str.substr p 8 data = lit "'length'"
          /\ lengthAt data p = Some (extractLength data))
  /\ (forall (data : bytes) (p : nat) (n : Z),
        depthAt data p <> 1 -> scanLength data data 0 0 <> Some (p, n)).
Proof.
  split; [reflexivity|]. split; [reflexivity|]. split; [reflexivity|]. split.
  - intros data Hnz. unfold extractLength in *.
    destruct (scanLength data data 0 0) as [[p n]|] eqn:Hscan; [|congruence].
    apply (scanLength_depth data data 0 p n eq_refl) in Hscan as (Hd & Hat & _).
    exists p. repeat split; auto. eapply lengthAt_key; eauto.
  - intros data p n Hd Hscan.
    apply (scanLength_depth data data 0 p n eq_refl) in Hscan as (Hone & _).
    contradiction.
Qed.


(** ** The transfer counters *)

Lemma wrap32_small (z : Z) : 0 <= z <= UINT32_MAX -> wrap32 z = z.
Proof. unfold wrap32, UINT32_MAX. intros H. apply Z.mod_small. lia. Qed.

Lemma scanLength_value (data rest : bytes) (i : nat) (depth : Z) (p : nat) (n : Z) :
  scanLength data rest i depth = Some (p, n) -> lengthAt data p = Some n.
Proof.
  revert i depth. induction rest as [|c rest' IH]; intros i depth H; [discriminate|].
  simpl in H.
  destruct (opens c); [eauto|]. destruct (closes c); [eauto|].
  destruct ((depth =? 1) && Ascii.eqb c dquote); [|eauto].
  destruct (lengthAt data i) as [len|] eqn:Hat; [|eauto].
  now injection H as <- <-.
Qed.

Lemma lengthAt_range (data : bytes) (p : nat) (n : Z) :
  lengthAt data p = Some n -> 0 <= n <= UINT32_MAX.
Proof.
  unfold lengthAt. intros H.
  destruct ((Z.of_nat p + 9 <? Str.size data)
            && Str.eqb (Str.substr p 8 data) (lit "'length'")); [|discriminate].
  destruct (Str.find_from ":" (p + 8) data) as [colonPos|]; [|discriminate].
  remember (take_digits (skip_blank (skipn (colonPos + 1) data))) as numStr eqn:Hnum.
  assert (Hd : forallb is_digit numStr = true)
    by (subst numStr; apply take_digits_digits).
  destruct (Str.empty numStr) eqn:Hempty; [discriminate|].
  assert (Hne : numStr <> []) by (intros ->; discriminate Hempty).
  rewrite (strtoul_digits numStr Hne Hd) in H. simpl in H. injection H as <-.
  pose proof (decimal_nonneg numStr Hd). unfold UINT32_MAX. lia.
Qed.

Lemma extractLength_range (data : bytes) : 0 <= extractLength data <= UINT32_MAX.
Proof.
  unfold extractLength.
  destruct (scanLength data data 0 0) as [[p n]|] eqn:Hscan.
  - eapply lengthAt_range, scanLength_value, Hscan.
  - unfold UINT32_MAX. lia.
Qed.

Lemma handleSendBook_progress (pf : Platform) (data : bytes) (s s' : State) :
  handleSendBook pf data s = Ok s' ->
  inBinaryMode (xfer s) = false ->
  progress_inv (xfer s) -> progress_inv (xfer s').
Proof.
  unfold handleSendBook. intros H Hoff Hinv.
  pose proof (extractLength_range data) as Hrange.
  destruct (Str.empty (extractLpath data) || (extractLength data =? 0)) eqn:Hbad.
  { injection H as <-. exact Hinv. }
  apply orb_false_iff in Hbad as [_ Hnz]. apply Z.eqb_neq in Hnz.
  fields.
  destruct (negb (openOk (card (sink s)))).
  { injection H as <-. fields. unfold progress_inv. fields.
    rewrite Hoff. repeat split; try lia; discriminate. }
  destruct (negb (Str.empty (recvBuffer s))).
  2:{ injection H as <-. unfold progress_inv. fields. repeat split; lia. }
  match type of H with
  | context [bufferedWrite ?d ?k] =>
      destruct (bufferedWrite d k) as [[ok k']| |]; simpl bind in H;
        try discriminate H
  end.
  pose proof (size_nonneg (recvBuffer s)).
  destruct ok; injection H as <-; unfold progress_inv; fields.
  - rewrite !wrap32_small by lia. repeat split; lia.
  - repeat split; lia.
Qed.

Lemma receiveBinaryData_progress (s s' : State) :
  receiveBinaryData s = Ok s' ->
  inBinaryMode (xfer s) = true ->
  progress_inv (xfer s) -> progress_inv (xfer s').
Proof.
  unfold receiveBinaryData. intros H Hbin (Hrecv & Hmax & Hrem).
  destruct (Hrem Hbin) as [Hrem0 Hsum]. clear Hrem.
  assert (Hoff : progress_inv (set_inBinaryMode false (xfer s))).
  { unfold progress_inv. fields. repeat split; try lia; discriminate. }
  destruct (Str.size (rx (tcpClient s)) =? 0).
  { destruct (negb (connected (tcpClient s))).
    - destruct (flushWriteBuffer (sink s)) as [? ?]. cbv beta iota zeta in H.
      injection H as <-. exact Hoff.
    - injection H as <-. unfold progress_inv. repeat split; auto; lia. }
  fields.
  set (toRead := Z.to_nat (Z.min 4096 (binaryBytesRemaining (xfer s)))) in *.
  set (buffer := firstn toRead (rx (tcpClient s))) in *.
  assert (Hread : 0 <= Str.size buffer <= binaryBytesRemaining (xfer s)).
  { unfold buffer, Str.size. rewrite length_firstn. unfold toRead. lia. }
  destruct (0 <? Str.size buffer).
  2:{ injection H as <-. unfold progress_inv. fields. repeat split; auto; lia. }
  match type of H with
  | context [bufferedWrite ?d ?k] =>
      destruct (bufferedWrite d k) as [[ok k']| |]; simpl bind in H;
        try discriminate H
  end.
  fields. destruct ok; simpl negb in H; cbv iota in H.
  - rewrite !wrap32_small in H by lia.
    destruct (binaryBytesRemaining (xfer s) - Str.size buffer =? 0).
    + destruct (flushWriteBuffer k') as [? ?]. cbv beta iota zeta in H.
      injection H as <-.
      unfold progress_inv. fields. rewrite ?wrap32_small by lia.
      repeat split; try lia; discriminate.
    + injection H as <-. unfold progress_inv. fields.
      rewrite ?wrap32_small by lia. repeat split; lia.
  - destruct (flushWriteBuffer k') as [? ?]. cbv beta iota zeta in H.
      injection H as <-. exact Hoff.
Qed.

Lemma handleCommand_progress (pf : Platform) (o : OpCode.t) (data : bytes)
                             (s s' : State) :
  handleCommand pf o data s = Ok s' ->
  inBinaryMode (xfer s) = false ->
  progress_inv (xfer s) -> progress_inv (xfer s').
Proof.
  intros H Hoff Hinv.
  destruct o; simpl in H;
    try (injection H as <-; exact Hinv);
    try (eapply handleSendBook_progress; eassumption).
  all: unfold handleDisplayMessage, handleNoop in H;
    destruct (contains _ data); injection H as <-; exact Hinv.
Qed.

Lemma dispatchMessage_progress (pf : Platform) (message : bytes) (s s' : State) :
  dispatchMessage pf message s = Ok s' ->
  inBinaryMode (xfer s) = false ->
  progress_inv (xfer s) -> progress_inv (xfer s').
Proof.
  unfold dispatchMessage. intros H Hoff Hinv.
  destruct (Str.find "[" message) as [bracket|]; [|injection H as <-; exact Hinv].
  destruct (Str.find_from "," (S bracket) message) as [end_|];
    [|injection H as <-; exact Hinv].
  destruct (stoi _) as [opcodeInt| |]; try discriminate H.
  unfold bind in H.
  destruct ((opcodeInt <? 0) || (OpCode.to_int OpCode.ERROR <=? opcodeInt)).
  { injection H as <-. exact Hinv. }
  eapply handleCommand_progress in H; [exact H|exact Hoff|exact Hinv].
Qed.

Lemma handleTcpClient_progress (pf : Platform) (s s' : State) :
  handleTcpClient pf s = Ok s' ->
  progress_inv (xfer s) -> progress_inv (xfer s').
Proof.
  unfold handleTcpClient. intros H Hinv.
  destruct (negb (connected (tcpClient s))).
  { injection H as <-. exact Hinv. }
  destruct (inBinaryMode (xfer s)) eqn:Hbin.
  { eapply receiveBinaryData_progress; eassumption. }
  destruct (readJsonMessage (rx (tcpClient s)) (recvBuffer s))
    as [[message [rx' buf']]| |]; unfold bind in H; try discriminate H.
  cbv beta iota zeta in H.
  destruct message as [message|]; [|injection H as <-; exact Hinv].
  eapply dispatchMessage_progress in H; [exact H|exact Hbin|exact Hinv].
Qed.

Lemma listenForDiscovery_xfer (a : Air) (s s' : State) :
  listenForDiscovery a s = Ok s' -> xfer s' = xfer s.
Proof.
  unfold listenForDiscovery. intros H.
  destruct (packet a) as [payload|]; [|now injection H as <-].
  destruct (0 <? Str.size (firstn 255 payload)); [|now injection H as <-].
  destruct (parseReply _ (peer s)) as [p| |]; simpl bind in H; try discriminate H.
  match type of H with
  | context [if 0 <? calibrePort ?q then _ else _] =>
      destruct (0 <? calibrePort q); [|now injection H as <-]
  end.
  match type of H with
  | context [if ?c then _ else _] => destruct c
  end; now injection H as <-.
Qed.

(** C7: in every state the network worker can reach, the bytes received
    are at most the declared length of the file, and while a transfer is
    on, the bytes received and the bytes still expected add up to it: both
    the drain in [handleSendBook] and the read in [receiveBinaryData] take
    at most what is still expected. *)
Theorem bytesReceived_le_total (pf : Platform) (s : State) :
  reachable pf s ->
  0 <= bytesReceived (xfer s) <= currentFileSize (xfer s)
  /\ (inBinaryMode (xfer s) = true ->
      0 <= binaryBytesRemaining (xfer s)
      /\ bytesReceived (xfer s) + binaryBytesRemaining (xfer s)
         = currentFileSize (xfer s)).
Proof.
  intros Hreach.
  assert (Hinv : progress_inv (xfer s)).
  { induction Hreach as [s0|e s s' Hreach IH Hround].
    - unfold progress_inv, UINT32_MAX. simpl. repeat split; try lia; discriminate.
    - unfold networkTaskRound in Hround.
      assert (Henv : xfer (environment e s) = xfer s) by reflexivity.
      rewrite <- Henv in IH.
      destruct (state (ui (environment e s)));
        try (eapply handleTcpClient_progress; eassumption);
        try (injection Hround as <-; exact IH).
      apply listenForDiscovery_xfer in Hround. now rewrite Hround. }
  destruct Hinv as (H1 & _ & H2). auto.
Qed.

Example waitingState_connected :
  state (ui waitingState) = WirelessState.WAITING
  /\ connected (tcpClient waitingState) = true
  /\ calibreHostname (peer waitingState) = lit "myhost"
  /\ calibrePort (peer waitingState) = 9090
  /\ calibreAltPort (peer waitingState) = 9091.
Proof. repeat split. Qed.

Lemma midTransferState_reachable : reachable plainPlatform midTransferState.
Proof.
  eapply reach_round with (e := arrival (sendBook5 ++ lit "abc") goodCard)
                          (s := waitingState).
  - eapply reach_round with (e := discovered).
    + apply (reach_enter plainPlatform bootState).
    + vm_compute. reflexivity.
  - vm_compute. reflexivity.
Qed.

Lemma bytesReceived_le_total_witness :
  reachable plainPlatform midTransferState
  /\ bytesReceived (xfer midTransferState) = 3
  /\ currentFileSize (xfer midTransferState) = 5
  /\ 0 <= bytesReceived (xfer midTransferState)
       <= currentFileSize (xfer midTransferState).
Proof.
  split; [exact midTransferState_reachable|].
  split; [reflexivity|]. split; [reflexivity|].
  exact (proj1 (bytesReceived_le_total plainPlatform midTransferState
                  midTransferState_reachable)).
Defined.

(** ** A whole file pipelined behind [SEND_BOOK] *)

Lemma drained_round (pf : Platform) (tx0 : list bytes) (wb data : bytes)
                    (e : Env) (s : State) :
  drained tx0 wb data s ->
  exists s', networkTaskRound pf e s = Ok s' /\ drained tx0 wb data s'.
Proof.
  intros (Hbin & Hrem & Hstate & Hfile & Hwb & Htx).
  unfold networkTaskRound.
  set (s1 := environment e s).
  assert (H1 : drained tx0 wb data s1) by (unfold drained; simpl; auto 10).
  assert (Hst : state (ui s1) = state (ui s)) by reflexivity.
  destruct Hstate as [Hstate|Hstate]; rewrite Hst, Hstate.
  2:{ exists s1. auto. }
  unfold handleTcpClient.
  destruct (connected (tcpClient s1)) eqn:Hconn; simpl negb; cbv iota.
  2:{ eexists. split; [reflexivity|]. unfold drained. simpl. auto 10. }
  replace (inBinaryMode (xfer s1)) with true by (symmetry; exact Hbin).
  unfold receiveBinaryData. rewrite Hconn.
  replace (binaryBytesRemaining (xfer s1)) with 0 by (symmetry; exact Hrem).
  destruct (Str.size (rx (tcpClient s1)) =? 0); simpl.
  - exists s1. auto.
  - eexists. split; [reflexivity|]. unfold drained. simpl. auto 10.
Qed.

Lemma drained_rounds (pf : Platform) (tx0 : list bytes) (wb data : bytes)
                     (es : list Env) (s : State) :
  drained tx0 wb data s ->
  exists s', networkTaskRounds pf es s = Ok s' /\ drained tx0 wb data s'.
Proof.
  revert s. induction es as [|e es IH]; intros s Hd.
  - exists s. auto.
  - destruct (drained_round pf tx0 wb data e s Hd) as (s1 & Hround & Hd1).
    destruct (IH s1 Hd1) as (s' & Hrounds & Hd').
    exists s'. simpl. rewrite Hround. auto.
Qed.

(** C2 fails on the code when the whole file is pipelined: the frame
    [SEND_BOOK] with [length] 3 arrives together with the three bytes of
    the file.  The drain takes the three bytes, so the bytes received equal
    the declared length, but nothing completes: the file stays open with
    nothing written to it, the only reply is the acknowledgement of
    [SEND_BOOK], and whatever arrives in whatever later rounds, the worker
    stays in binary mode with the file open and sends nothing more. *)
Theorem pipelined_file_never_completes (pf : Platform) :
  exists s,
    networkTaskRound pf (arrival (sendBook3 ++ lit "abc") goodCard) waitingState
    = Ok s
    /\ bytesReceived (xfer s) = 3 /\ currentFileSize (xfer s) = 3
    /\ state (ui s) = WirelessState.RECEIVING
    /\ tx (tcpClient s) = [frame (lit "[0,{}]")]
    /\ forall es : list Env,
         exists s',
           networkTaskRounds pf es s = Ok s'
           /\ inBinaryMode (xfer s') = true
           /\ currentFile (sink s') = mkFsFile true []
           /\ writeBuffer (sink s') = lit "abc"
           /\ tx (tcpClient s') = [frame (lit "[0,{}]")].
Proof.
  eexists. split; [vm_compute; reflexivity|].
  repeat (split; [reflexivity|]).
  intros es.
  match goal with
  | |- exists s', networkTaskRounds pf es ?s = _ /\ _ =>
      destruct (drained_rounds pf [frame (lit "[0,{}]")] (lit "abc") [] es s)
        as (s' & Hrounds & Hd)
  end.
  { unfold drained. repeat split. now left. }
  destruct Hd as (Hbin & _ & _ & Hfile & Hwb & Htx).
  exists s'. auto.
Qed.

(** ** Short writes *)

(** C3 fails on the code in two places.  In the drain of [handleSendBook]:
    [SEND_BOOK] with [length] 5000 arrives with 4096 bytes of the file
    behind it and the card takes none of them; the write fails, yet the
    file stays open, no error is set, the state stays [RECEIVING] in binary
    mode, and the 4096 bytes are neither stored nor counted.  In the last
    flush of [receiveBinaryData]: the three bytes of a file of length 3
    arrive on the socket and the card takes none of them; the transfer is
    acknowledged and the state returns to [WAITING] with nothing stored. *)
Theorem short_write_not_fatal (pf : Platform) :
  (exists s,
     networkTaskRound pf
       (arrival (sendBook5000 ++ repeat "x"%char 4096) (mkSdCard true [0] 0))
       waitingState = Ok s
     /\ state (ui s) = WirelessState.RECEIVING
     /\ errorMessage (ui s) = []
     /\ inBinaryMode (xfer s) = true
     /\ bytesReceived (xfer s) = 0
     /\ currentFile (sink s) = mkFsFile true []
     /\ writeBuffer (sink s) = []
     /\ writeScript (card (sink s)) = [])
  /\ (exists s,
        networkTaskRounds pf
          [arrival sendBook3 goodCard; arrival (lit "abc") (mkSdCard true [0] 0)]
          waitingState = Ok s
        /\ state (ui s) = WirelessState.WAITING
        /\ errorMessage (ui s) = []
        /\ bytesReceived (xfer s) = 3
        /\ currentFile (sink s) = mkFsFile false []
        /\ tx (tcpClient s) = [frame (lit "[0,{}]"); frame (lit "[0,{}]")]).
Proof.
  split; eexists; (split; [vm_compute; reflexivity|]); repeat split.
Qed.

(** ** The coalescing buffer *)

Lemma flushWriteBuffer_ready (k : Sink) :
  currentWriteFile k = true -> isOpen (currentFile k) = true ->
  0 < writeBufferPos k ->
  exists ok k',
    flushWriteBuffer k = (ok, k')
    /\ currentWriteFile k' = true /\ isOpen (currentFile k') = true
    /\ writeBuffer k' = []
    /\ (writeScript (card k) = [] ->
        ok = true /\ card k' = card k
        /\ written (currentFile k') = written (currentFile k) ++ writeBuffer k).
Proof.
  intros Hptr Hopen Hpos. unfold flushWriteBuffer.
  replace (0 <? writeBufferPos k) with true by (symmetry; now apply Z.ltb_lt).
  rewrite Hptr, Hopen. simpl andb. cbv iota.
  unfold fileWrite.
  destruct (writeScript (card k)) as [|r script] eqn:Hscript.
  - rewrite Z.eqb_refl. simpl negb. cbv iota.
    eexists _, _. split; [reflexivity|]. simpl. rewrite Hptr, Hopen.
    repeat split.
    + destruct (card k); simpl in *; congruence.
    + unfold writeBufferPos, Str.size. now rewrite Nat2Z.id, firstn_all.
  - destruct (negb (Z.max 0 (Z.min r (writeBufferPos k)) =? writeBufferPos k));
      eexists _, _; (split; [reflexivity|]); simpl; rewrite Hptr, Hopen;
      repeat split; discriminate.
Qed.

Lemma bufferedWrite_loop_returns (rounds : nat) (data : bytes) (k : Sink) :
  ready k -> (length data < rounds)%nat ->
  exists ok k',
    bufferedWrite_loop rounds data k = Ok (ok, k')
    /\ ready k'
    /\ (writeScript (card k) = [] ->
        ok = true /\ card k' = card k
        /\ written (currentFile k') ++ writeBuffer k'
           = written (currentFile k) ++ writeBuffer k ++ data).
Proof.
  revert data k. induction rounds as [|rounds IH]; intros data k Hready Hlen; [lia|].
  destruct Hready as (Hptr & Hopen & Hroom).
  cbn [bufferedWrite_loop].
  destruct (0 <? Str.size data) eqn:Hdata.
  2:{ apply Z.ltb_ge in Hdata.
      assert (data = []) as -> by (apply size_nil_iff; pose proof (size_nonneg data); lia).
      exists true, k. split; [reflexivity|]. split; [split; auto|].
      intros _. now rewrite !app_nil_r. }
  apply Z.ltb_lt in Hdata.
  pose proof (size_nonneg (writeBuffer k)) as Hpos0.
  unfold writeBufferPos, WRITE_BUFFER_SIZE in *.
  set (toCopy := Z.to_nat (Z.min (4096 - Str.size (writeBuffer k)) (Str.size data))).
  assert (HtoCopy : (0 < toCopy <= length data)%nat)
    by (unfold toCopy, Str.size in *; lia).
  assert (Htaken : Str.size (firstn toCopy data) = Z.of_nat toCopy)
    by (unfold Str.size; rewrite length_firstn; lia).
  cbn [set_writeBuffer writeBuffer].
  rewrite size_app, Htaken.
  destruct (4096 <=? Str.size (writeBuffer k) + Z.of_nat toCopy) eqn:Hfull.
  - apply Z.leb_le in Hfull.
    destruct (flushWriteBuffer_ready
                (set_writeBuffer (writeBuffer k ++ firstn toCopy data) k))
      as (ok & k2 & Hflush & Hptr2 & Hopen2 & Hwb2 & Hgood); auto.
    { unfold writeBufferPos. cbn [set_writeBuffer writeBuffer].
      rewrite size_app, Htaken. lia. }
    rewrite Hflush.
    destruct ok.
    + destruct (IH (skipn toCopy data) k2) as (ok' & k' & Hloop & Hready' & Hgood').
      { repeat split; auto. unfold writeBufferPos. rewrite Hwb2. reflexivity. }
      { rewrite length_skipn. lia. }
      exists ok', k'. split; [exact Hloop|]. split; [exact Hready'|].
      intros Hscript. destruct (Hgood Hscript) as (_ & Hcard & Hwritten).
      cbn [set_writeBuffer card currentFile writeBuffer] in Hcard, Hwritten.
      destruct Hgood' as (Hok & Hcard' & Hall); [now rewrite Hcard|].
      repeat split; auto; [congruence|].
      rewrite Hall, Hwritten, Hwb2. cbn [app].
      rewrite <- !app_assoc. now rewrite firstn_skipn.
    + exists false, k2. split; [reflexivity|]. split.
      * repeat split; auto. unfold writeBufferPos. rewrite Hwb2. reflexivity.
      * intros Hscript. destruct (Hgood Hscript) as (Hok & _). discriminate Hok.
  - apply Z.leb_gt in Hfull.
    destruct (IH (skipn toCopy data)
                 (set_writeBuffer (writeBuffer k ++ firstn toCopy data) k))
      as (ok' & k' & Hloop & Hready' & Hgood').
    { repeat split; auto. unfold writeBufferPos. cbn [set_writeBuffer writeBuffer].
      rewrite size_app, Htaken. exact Hfull. }
    { rewrite length_skipn. lia. }
    exists ok', k'. split; [exact Hloop|]. split; [exact Hready'|].
    intros Hscript. destruct (Hgood' Hscript) as (Hok & Hcard & Hall).
    repeat split; auto.
    rewrite Hall. cbn [set_writeBuffer currentFile writeBuffer].
    rewrite <- !app_assoc. now rewrite firstn_skipn.
Qed.

(** With the file open and room in the buffer, [bufferedWrite] returns;
    and when the card takes every write in full, it succeeds and no byte is
    lost or reordered between the file and the buffer. *)
Lemma bufferedWrite_returns (data : bytes) (k : Sink) :
  ready k ->
  exists ok k',
    bufferedWrite data k = Ok (ok, k')
    /\ ready k'
    /\ (writeScript (card k) = [] ->
        ok = true /\ card k' = card k
        /\ written (currentFile k') ++ writeBuffer k'
           = written (currentFile k) ++ writeBuffer k ++ data).
Proof. intros Hready. apply bufferedWrite_loop_returns; auto. Qed.

(** With the file closed and more than a buffer of data, the loop goes on
    for ever. *)
Example bufferedWrite_spins :
  bufferedWrite (repeat "x"%char 4097) (mkSink [] true closedFile goodCard) = Spin.
Proof. vm_compute. reflexivity. Qed.

(** ** No round of the worker runs for ever *)

Lemma handleSendBook_returns (pf : Platform) (data : bytes) (s : State) :
  inBinaryMode (xfer s) = false ->
  returns_with session_inv (handleSendBook pf data s).
Proof.
  intros Hoff. unfold handleSendBook.
  destruct (Str.empty (extractLpath data) || (extractLength data =? 0)).
  { simpl. unfold session_inv. simpl. congruence. }
  fields.
  destruct (negb (openOk (card (sink s)))).
  { simpl. unfold session_inv. simpl. congruence. }
  assert (Hfresh : ready (set_writeBuffer []
                            (set_currentWriteFile true
                               (set_currentFile (mkFsFile true []) (sink s)))))
    by (repeat split).
  destruct (negb (Str.empty (recvBuffer s))).
  2:{ simpl. intros _. exact Hfresh. }
  match goal with
  | |- context [bufferedWrite ?d ?k] =>
      destruct (bufferedWrite_returns d k Hfresh) as (ok & k' & -> & Hready & _)
  end.
  unfold bind. destruct ok; simpl; intros _; exact Hready.
Qed.

Lemma receiveBinaryData_returns (s : State) :
  session_inv s -> inBinaryMode (xfer s) = true ->
  returns_with session_inv (receiveBinaryData s).
Proof.
  intros Hinv Hbin. pose proof (Hinv Hbin) as Hready.
  assert (Hoff : forall s', inBinaryMode (xfer s') = false -> session_inv s')
    by (unfold session_inv; intros; congruence).
  unfold receiveBinaryData.
  destruct (Str.size (rx (tcpClient s)) =? 0).
  { destruct (negb (connected (tcpClient s))); [|exact Hinv].
    destruct (flushWriteBuffer (sink s)) as [? ?]. simpl. now apply Hoff. }
  fields.
  match goal with
  | |- context [if 0 <? ?n then _ else _] => destruct (0 <? n)
  end.
  2:{ simpl. intros _. exact Hready. }
  match goal with
  | |- context [bufferedWrite ?d ?k] =>
      destruct (bufferedWrite_returns d k Hready) as (ok & k' & -> & Hready' & _)
  end.
  unfold bind. fields. destruct ok; simpl negb; cbv iota.
  - match goal with
    | |- context [if ?c then _ else _] => destruct c
    end.
    + destruct (flushWriteBuffer k') as [? ?]. simpl. now apply Hoff.
    + simpl. intros _. exact Hready'.
  - destruct (flushWriteBuffer k') as [? ?]. simpl. now apply Hoff.
Qed.

Lemma handleCommand_returns (pf : Platform) (o : OpCode.t) (data : bytes)
                            (s : State) :
  inBinaryMode (xfer s) = false ->
  returns_with session_inv (handleCommand pf o data s).
Proof.
  intros Hoff.
  assert (Hkeep : forall s', xfer s' = xfer s -> session_inv s')
    by (unfold session_inv; intros s' ->; congruence).
  destruct o; simpl;
    try (apply Hkeep; reflexivity);
    try (now apply handleSendBook_returns).
  all: unfold handleDisplayMessage, handleNoop;
    destruct (contains _ data); apply Hkeep; reflexivity.
Qed.

Lemma stoi_not_spin (t : bytes) : stoi t <> Spin.
Proof.
  unfold stoi. destruct (split_sign (skip_space t)) as [neg r].
  destruct (take_digits r); [discriminate|].
  match goal with |- context [if ?c then _ else _] => destruct c end; discriminate.
Qed.

Lemma stoul_not_spin (t : bytes) : stoul t <> Spin.
Proof.
  unfold stoul. destruct (split_sign (skip_space t)) as [neg r].
  destruct (take_digits r); [discriminate|].
  match goal with |- context [if ?c then _ else _] => destruct c end; discriminate.
Qed.

Lemma extractMessage_not_spin (w : bytes) : extractMessage w <> Spin.
Proof.
  unfold extractMessage.
  destruct (Str.empty w); [discriminate|].
  destruct (Str.find "[" w) as [bracketPos|].
  2:{ destruct (NO_BRACKET_LIMIT <? Str.size w); discriminate. }
  unfold lengthPrefix.
  destruct ((0 <? bracketPos)%nat && (bracketPos <=? 12)%nat).
  2:{ simpl. destruct (0 <? bracketPos)%nat; discriminate. }
  destruct (forallb is_digit (firstn bracketPos w)).
  2:{ simpl. destruct (0 <? bracketPos)%nat; discriminate. }
  pose proof (stoul_not_spin (Str.substr 0 bracketPos w)) as Hstoul.
  destruct (stoul (Str.substr 0 bracketPos w)) as [msgLen| |];
    [|discriminate|contradiction].
  simpl.
  repeat match goal with
         | |- context [if ?c then _ else _] => destruct c
         end; discriminate.
Qed.

Lemma parseReply_not_spin (response : bytes) (p : Peer) :
  parseReply response p <> Spin.
Proof.
  unfold parseReply.
  destruct (Str.find ";" response) as [semiPos|]; [|discriminate].
  assert (Hport : forall portStr q,
            (if negb (Str.empty (skip_blank portStr))
             then port <- stoi (skip_blank portStr) ;;
                  Ok (set_calibrePort (to_uint16 port) q)
             else Ok q) <> Spin).
  { intros portStr q. destruct (negb (Str.empty (skip_blank portStr)));
      [|discriminate].
    pose proof (stoi_not_spin (skip_blank portStr)).
    destruct (stoi (skip_blank portStr)); simpl; congruence. }
  assert (Htail : forall portStr q,
            (let portStr := skip_blank portStr in
             p0 <- (if negb (Str.empty portStr)
                    then port <- stoi portStr ;;
                         Ok (set_calibrePort (to_uint16 port) q)
                    else Ok q) ;;
             match Str.find_str (lit "(on ") response, Str.find ")" response with
             | Some onPos, Some closePos =>
                 if (onPos + 4 <? closePos)%nat
                 then Ok (set_calibreHostname
                            (Str.substr (onPos + 4) (closePos - onPos - 4) response)
                            p0)
                 else Ok p0
             | _, _ => Ok p0
             end) <> Spin).
  { intros portStr q. cbv zeta. specialize (Hport portStr q).
    destruct (if negb (Str.empty (skip_blank portStr))
              then port <- stoi (skip_blank portStr) ;;
                   Ok (set_calibrePort (to_uint16 port) q)
              else Ok q); simpl; try congruence.
    destruct (Str.find_str (lit "(on ") response); [|discriminate].
    destruct (Str.find ")" response); [|discriminate].
    match goal with |- context [if ?c then _ else _] => destruct c end;
      discriminate. }
  destruct (Str.find_from "," semiPos response) as [commaPos|].
  2:{ apply Htail. }
  destruct (semiPos <? commaPos)%nat.
  2:{ apply Htail. }
  destruct (negb (Str.empty (take_digits (Str.substr_from (commaPos + 1) response)))).
  2:{ apply Htail. }
  pose proof (stoi_not_spin (take_digits (Str.substr_from (commaPos + 1) response))).
  destruct (stoi (take_digits (Str.substr_from (commaPos + 1) response)));
    simpl; try congruence.
  apply Htail.
Qed.

Lemma handleTcpClient_returns (pf : Platform) (s : State) :
  session_inv s -> returns_with session_inv (handleTcpClient pf s).
Proof.
  intros Hinv. unfold handleTcpClient.
  destruct (negb (connected (tcpClient s))); [exact Hinv|].
  destruct (inBinaryMode (xfer s)) eqn:Hbin.
  { now apply receiveBinaryData_returns. }
  assert (Hkeep : forall s', xfer s' = xfer s -> session_inv s')
    by (unfold session_inv; intros s' ->; congruence).
  rewrite readJsonMessage_eq.
  destruct ((0 <? Str.size (rx (tcpClient s)))
            && (RECV_BUFFER_CAP <? Str.size (recvBuffer s))).
  { simpl. apply Hkeep. reflexivity. }
  pose proof (extractMessage_not_spin (recvBuffer s ++ rx (tcpClient s))) as Hex.
  destruct (extractMessage (recvBuffer s ++ rx (tcpClient s)))
    as [[message buf]| |] eqn:Hmsg; simpl; auto.
  destruct message as [message|]; [|apply Hkeep; reflexivity].
  unfold dispatchMessage.
  destruct (Str.find "[" message) as [bracket|]; [|apply Hkeep; reflexivity].
  destruct (Str.find_from "," (S bracket) message) as [end_|];
    [|apply Hkeep; reflexivity].
  match goal with
  | |- context [stoi ?t] =>
      pose proof (stoi_not_spin t) as Hstoi; destruct (stoi t) as [opcodeInt| |]
  end; simpl; auto.
  match goal with
  | |- context [if ?c then _ else _] => destruct c
  end.
  - apply Hkeep. reflexivity.
  - apply handleCommand_returns. exact Hbin.
Qed.

Lemma listenForDiscovery_returns (a : Air) (s : State) :
  session_inv s -> returns_with session_inv (listenForDiscovery a s).
Proof.
  intros Hinv.
  assert (Hkeep : forall s', xfer s' = xfer s -> sink s' = sink s -> session_inv s')
    by (unfold session_inv; intros s' -> ->; exact Hinv).
  unfold listenForDiscovery.
  destruct (packet a) as [payload|]; [|exact Hinv].
  destruct (0 <? Str.size (firstn 255 payload)); [|exact Hinv].
  pose proof (parseReply_not_spin (cstr (firstn 255 payload)) (peer s)) as Hparse.
  destruct (parseReply (cstr (firstn 255 payload)) (peer s)) as [p| |];
    simpl; auto.
  repeat match goal with
         | |- context [if ?c then _ else _] => destruct c
         end; apply Hkeep; reflexivity.
Qed.

Lemma networkTaskRound_returns (pf : Platform) (e : Env) (s : State) :
  session_inv s -> returns_with session_inv (networkTaskRound pf e s).
Proof.
  intros Hinv. unfold networkTaskRound.
  assert (Henv : session_inv (environment e s)).
  { unfold session_inv in *. simpl. intros Hbin.
    destruct (Hinv Hbin) as (? & ? & ?). repeat split; auto. }
  destruct (state (ui (environment e s)));
    try (now apply handleTcpClient_returns);
    try exact Henv.
  now apply listenForDiscovery_returns.
Qed.

Lemma reachable_session_inv (pf : Platform) (s : State) :
  reachable pf s -> session_inv s.
Proof.
  induction 1 as [s0|e s s' Hreach IH Hround].
  - unfold session_inv. simpl. discriminate.
  - pose proof (networkTaskRound_returns pf e s IH) as Hret.
    rewrite Hround in Hret. exact Hret.
Qed.

(** X2: from every state the worker can reach, and whatever happens around
    it, a round of its loop returns or throws: no loop of the engine runs for
    ever, and while a transfer is on, the write pointer is set, the file is
    open and the coalescing buffer holds fewer than 4096 bytes. *)
Theorem network_round_never_spins (pf : Platform) (e : Env) (s : State) :
  reachable pf s ->
  networkTaskRound pf e s <> Spin
  /\ (inBinaryMode (xfer s) = true ->
      currentWriteFile (sink s) = true
      /\ isOpen (currentFile (sink s)) = true
      /\ writeBufferPos (sink s) < WRITE_BUFFER_SIZE).
Proof.
  intros Hreach. pose proof (reachable_session_inv pf s Hreach) as Hinv.
  split; [|exact Hinv].
  pose proof (networkTaskRound_returns pf e s Hinv) as Hret.
  intros Hspin. rewrite Hspin in Hret. exact Hret.
Qed.

(** ** A transfer fed over the socket completes exactly once *)

(** One call of [receiveBinaryData] on a good card: nothing pending changes
    nothing; otherwise the call takes [n] bytes, the smallest of 4096, what
    is expected and what is pending, and completes when that was all that
    was expected. *)
Lemma receiveBinaryData_step (stored : bytes) (remaining : Z) (s : State) :
  receiving stored remaining s -> 0 < remaining ->
  writeScript (card (sink s)) = [] ->
  let pending := rx (tcpClient s) in
  let n := Z.to_nat (Z.min 4096 remaining) in
  (pending = [] -> receiveBinaryData s = Ok s)
  /\ (pending <> [] ->
      exists s',
        receiveBinaryData s = Ok s'
        /\ (Str.size (firstn n pending) < remaining ->
            receiving (stored ++ firstn n pending)
                      (remaining - Str.size (firstn n pending)) s'
            /\ tx (tcpClient s') = tx (tcpClient s)
            /\ card (sink s') = card (sink s)
            /\ rx (tcpClient s') = skipn n pending)
        /\ (Str.size (firstn n pending) = remaining ->
            completed (tx (tcpClient s)) (stored ++ firstn n pending) s'
            /\ rx (tcpClient s') = flushed (tcpClient s) (skipn n pending))).
Proof.
  intros (Hbin & Hstate & Hconn & Hbuf & Hready & Hrem & Hrecv0 & Hsum & Hmax & Hstored)
         Hpos Hscript.
  pose proof (size_nonneg stored) as Hstored0.
  cbv zeta. unfold receiveBinaryData. split.
  - intros ->. simpl. now rewrite Hconn.
  - intros Hne.
    assert (Hsize : 0 < Str.size (rx (tcpClient s))).
    { pose proof (size_nonneg (rx (tcpClient s))).
      destruct (Z.eq_dec (Str.size (rx (tcpClient s))) 0) as [E|E]; [|lia].
      apply size_nil_iff in E. contradiction. }
    replace (Str.size (rx (tcpClient s)) =? 0) with false
      by (symmetry; apply Z.eqb_neq; lia).
    fields. rewrite Hrem.
    set (n := Z.to_nat (Z.min 4096 remaining)).
    set (buffer := firstn n (rx (tcpClient s))).
    assert (Hread : 0 < Str.size buffer <= remaining).
    { unfold buffer, Str.size in *. rewrite length_firstn. unfold n. lia. }
    replace (0 <? Str.size buffer) with true by (symmetry; apply Z.ltb_lt; lia).
    destruct (bufferedWrite_returns buffer (sink s) Hready)
      as (ok & k' & Hwrite & Hready' & Hgood).
    destruct (Hgood Hscript) as (-> & Hcard & Hall).
    rewrite Hwrite. unfold bind. fields. simpl negb. cbv iota.
    rewrite ?Hrem, ?wrap32_small by lia.
    destruct (remaining - Str.size buffer =? 0) eqn:Hdone.
    + apply Z.eqb_eq in Hdone.
      destruct Hready' as (Hptr' & Hopen' & Hroom').
      destruct (flushWriteBuffer k') as [ok2 k2] eqn:Hflush.
      assert (Hk2 : written (currentFile k2) = written (currentFile k') ++ writeBuffer k'
                    /\ writeBuffer k2 = []).
      { pose proof (size_nonneg (writeBuffer k')) as Hp.
        destruct (Z.eq_dec (writeBufferPos k') 0) as [E|E].
        - unfold flushWriteBuffer in Hflush. rewrite E in Hflush. simpl in Hflush.
          injection Hflush as <- <-.
          apply size_nil_iff in E. rewrite E. now rewrite app_nil_r.
        - destruct (flushWriteBuffer_ready k') as (ok3 & k3 & Hf & _ & _ & Hwb & Hg);
            auto; [unfold writeBufferPos in *; lia|].
          rewrite Hf in Hflush. injection Hflush as <- <-.
          destruct Hg as (_ & _ & Hw); [congruence|]. auto. }
      destruct Hk2 as [Hw2 Hwb2].
      eexists. split; [reflexivity|]. fields. split; [lia|].
      intros _. split; [|now rewrite sendJsonResponse_eq].
      unfold completed. simpl. rewrite !sendJsonResponse_eq. simpl.
      unfold fileClose.
      rewrite Hw2, Hall, app_assoc, Hstored, ?wrap32_small by lia.
      rewrite size_app. repeat split; auto; lia.
    + apply Z.eqb_neq in Hdone.
      eexists. split; [reflexivity|]. fields. split; [|lia].
      intros _. split; [|split; [reflexivity|split; [exact Hcard|reflexivity]]].
      unfold receiving. simpl. rewrite ?wrap32_small by lia.
      rewrite Hall, app_assoc, Hstored, size_app.
      destruct Hready' as (? & ? & ?).
      repeat split; auto; lia.
Qed.

Lemma receiving_environment (stored chunk : bytes) (remaining : Z) (s : State) :
  receiving stored remaining s ->
  receiving stored remaining (environment (feed chunk) s)
  /\ writeScript (card (sink (environment (feed chunk) s))) = []
  /\ rx (tcpClient (environment (feed chunk) s)) = rx (tcpClient s) ++ chunk
  /\ tx (tcpClient (environment (feed chunk) s)) = tx (tcpClient s).
Proof.
  intros (Hbin & Hstate & Hconn & Hbuf & (Hptr & Hopen & Hroom) & Hrest).
  unfold receiving, ready. simpl. rewrite Hconn. repeat split; auto; apply Hrest.
Qed.

(** A round in binary mode is the call of [receiveBinaryData] on the state
    the environment leaves. *)
Lemma receiving_round (pf : Platform) (stored chunk : bytes) (remaining : Z)
                      (s : State) :
  receiving stored remaining s ->
  networkTaskRound pf (feed chunk) s
  = receiveBinaryData (environment (feed chunk) s).
Proof.
  intros Hrecv.
  destruct (receiving_environment stored chunk remaining s Hrecv)
    as ((Hbin & Hstate & Hconn & _) & _).
  unfold networkTaskRound. rewrite Hstate. unfold handleTcpClient.
  now rewrite Hconn, Hbin.
Qed.

(** After completion, rounds in which nothing arrives change nothing. *)
Lemma completed_idle (pf : Platform) (tx0 : list bytes) (stored : bytes)
                     (chunks : list bytes) (s : State) :
  completed tx0 stored s -> rx (tcpClient s) = [] -> concat chunks = [] ->
  exists s',
    networkTaskRounds pf (map feed chunks) s = Ok s'
    /\ completed tx0 stored s' /\ rx (tcpClient s') = [].
Proof.
  revert s. induction chunks as [|chunk rest IH]; intros s Hdone Hrx Hnone.
  - exists s. auto.
  - simpl in Hnone. apply app_eq_nil in Hnone as [-> Hrest].
    destruct Hdone as (Hbin & Hstate & Hconn & Hbuf & Hfile & Hwb & Hptr & Hall
                       & Hcount & Htx).
    assert (Hround : networkTaskRound pf (feed []) s
                     = Ok (set_recvBuffer []
                             (set_tcpClient (mkTcp [] true (tx (tcpClient s))
                                                   (flushClearsRx (tcpClient s)))
                                (environment (feed []) s)))).
    { unfold networkTaskRound.
      replace (state (ui (environment (feed []) s))) with WirelessState.WAITING
        by (symmetry; exact Hstate).
      unfold handleTcpClient. simpl connected. rewrite Hconn. simpl negb. cbv iota.
      replace (inBinaryMode (xfer (environment (feed []) s))) with false
        by (symmetry; exact Hbin).
      simpl rx. simpl recvBuffer. rewrite Hrx, Hbuf. reflexivity. }
    destruct (IH (set_recvBuffer []
                    (set_tcpClient (mkTcp [] true (tx (tcpClient s))
                                          (flushClearsRx (tcpClient s)))
                       (environment (feed []) s))))
      as (s' & Hrounds & Hdone' & Hrx'); auto.
    { unfold completed. simpl. repeat split; auto. }
    exists s'. simpl. rewrite Hround. simpl. auto.
Qed.

Lemma size_firstn_min (n : nat) (l : bytes) :
  Str.size (firstn n l) = Z.min (Z.of_nat n) (Str.size l).
Proof. unfold Str.size. rewrite length_firstn. lia. Qed.

(** Nothing more arrives and everything still expected is pending: rounds
    in which nothing arrives take it all and complete. *)
Lemma drain_pending (pf : Platform) (len : nat) :
  forall (stored : bytes) (remaining : Z) (s : State),
    length (rx (tcpClient s)) = len ->
    receiving stored remaining s -> 0 < remaining ->
    Str.size (rx (tcpClient s)) = remaining ->
    exists n s',
      networkTaskRounds pf (repeat (feed []) n) s = Ok s'
      /\ completed (tx (tcpClient s)) (stored ++ rx (tcpClient s)) s'
      /\ rx (tcpClient s') = [].
Proof.
  induction len as [len IH] using lt_wf_ind.
  intros stored remaining s Hlen Hrecv Hpos Hsize.
  destruct (receiving_environment stored [] remaining s Hrecv)
    as (Henv & Hscript & Hrx & Htx).
  rewrite app_nil_r in Hrx.
  destruct (receiveBinaryData_step stored remaining _ Henv Hpos Hscript)
    as [_ Hstep].
  rewrite Hrx in Hstep.
  destruct Hstep as (s1 & Hcall & Hmore & Hlast).
  { intros E. rewrite E in Hsize. simpl in Hsize. unfold Str.size in Hsize.
    simpl in Hsize. lia. }
  set (n0 := Z.to_nat (Z.min 4096 remaining)) in *.
  assert (Htaken : Str.size (firstn n0 (rx (tcpClient s))) = Z.min 4096 remaining).
  { rewrite size_firstn_min. unfold n0. lia. }
  assert (Hround : networkTaskRound pf (feed []) s = Ok s1)
    by (rewrite (receiving_round pf stored [] remaining s Hrecv); exact Hcall).
  destruct (Z.lt_ge_cases 4096 remaining) as [Hbig|Hsmall].
  - destruct Hmore as (Hrecv1 & Htx1 & _ & Hrx1); [lia|].
    assert (Hless : (length (rx (tcpClient s1)) < len)%nat).
    { rewrite Hrx1, length_skipn. unfold Str.size in Hsize. lia. }
    assert (Hpos1 : 0 < remaining - Str.size (firstn n0 (rx (tcpClient s)))) by lia.
    assert (Hsize1 : Str.size (rx (tcpClient s1))
                     = remaining - Str.size (firstn n0 (rx (tcpClient s)))).
    { rewrite Hrx1, Htaken. unfold Str.size in *. rewrite length_skipn. lia. }
    destruct (IH _ Hless _ _ s1 eq_refl Hrecv1 Hpos1 Hsize1)
      as (n & s' & Hrounds & Hdone & Hrx').
    exists (S n), s'. cbn [repeat networkTaskRounds]. rewrite Hround.
    split; [exact Hrounds|]. split; [|exact Hrx'].
    rewrite Htx1, Htx, Hrx1, <- app_assoc, firstn_skipn in Hdone. exact Hdone.
  - destruct (Hlast ltac:(lia)) as [Hdone Hrx1].
    exists 1%nat, s1. cbn [repeat networkTaskRounds]. rewrite Hround.
    split; [reflexivity|].
    assert (Hall : firstn n0 (rx (tcpClient s)) = rx (tcpClient s)).
    { apply firstn_all2. unfold n0, Str.size in *. lia. }
    rewrite Htx, Hall in Hdone. split; [exact Hdone|].
    rewrite Hrx1, skipn_all2, flushed_nil; [reflexivity|].
    unfold n0, Str.size in *. lia.
Qed.

(** A transfer that is on and still expects bytes, fed exactly those
    bytes over the socket in any chunks (empty ones included, chunks larger
    than the 4096-byte buffer included) on a card that takes every write,
    completes: after the rounds of the chunks and some rounds in which
    nothing arrives, the file is closed and holds the bytes taken before
    followed by the bytes fed, in order; exactly one acknowledgement has
    been sent; the state is [WAITING] again, out of binary mode, with the
    bytes received equal to the declared length. *)
Lemma transfer_completes_once (pf : Platform) (chunks : list bytes) :
  forall (stored : bytes) (remaining : Z) (s : State),
    receiving stored remaining s -> 0 < remaining ->
    Str.size (rx (tcpClient s) ++ concat chunks) = remaining ->
    exists n s',
      networkTaskRounds pf (map feed chunks ++ repeat (feed []) n) s = Ok s'
      /\ completed (tx (tcpClient s))
                   (stored ++ rx (tcpClient s) ++ concat chunks) s'
      /\ rx (tcpClient s') = [].
Proof.
  induction chunks as [|chunk rest IH]; intros stored remaining s Hrecv Hpos Hsize.
  - simpl in *. rewrite app_nil_r in *.
    eapply drain_pending; eauto.
  - destruct (receiving_environment stored chunk remaining s Hrecv)
      as (Henv & Hscript & Hrx & Htx).
    pose proof (receiving_round pf stored chunk remaining s Hrecv) as Hround.
    destruct (receiveBinaryData_step stored remaining _ Henv Hpos Hscript)
      as [Hnone Hstep].
    rewrite Hrx in Hnone, Hstep.
    simpl concat in *. cbn [map app networkTaskRounds].
    destruct (rx (tcpClient s) ++ chunk) as [|c pending] eqn:Hpending.
    + rewrite Hround, (Hnone eq_refl). unfold bind.
      apply app_eq_nil in Hpending as [Hrx0 ->].
      destruct (IH stored remaining (environment (feed []) s)) as (n & s' & H1 & H2 & H3);
        auto.
      { rewrite Hrx. rewrite Hrx0 in Hsize. exact Hsize. }
      exists n, s'. split; [exact H1|]. split; [|exact H3].
      rewrite Htx, Hrx in H2. rewrite Hrx0. exact H2.
    + destruct Hstep as (s1 & Hcall & Hmore & Hlast); [discriminate|].
      rewrite Hround, Hcall. unfold bind.
      set (n0 := Z.to_nat (Z.min 4096 remaining)) in *.
      set (taken := firstn n0 (c :: pending)) in *.
      assert (Hsplit : rx (tcpClient s) ++ chunk ++ concat rest
                       = taken ++ skipn n0 (c :: pending) ++ concat rest).
      { rewrite !app_assoc. rewrite Hpending. unfold taken.
        now rewrite firstn_skipn. }
      assert (Htaken : Str.size taken <= remaining).
      { unfold taken. rewrite size_firstn_min. unfold n0. lia. }
      destruct (Z.eq_dec (Str.size taken) remaining) as [Heq|Hlt].
      * destruct (Hlast Heq) as [Hfin Hrx1].
        assert (Hzero : skipn n0 (c :: pending) = [] /\ concat rest = []).
        { rewrite Hsplit, !size_app in Hsize.
          pose proof (size_nonneg (skipn n0 (c :: pending))).
          pose proof (size_nonneg (concat rest)).
          split; apply size_nil_iff; lia. }
        destruct Hzero as [Hskip Hrest].
        destruct (completed_idle pf (tx (tcpClient s)) (stored ++ taken) rest s1)
          as (s' & Hrounds & Hdone & Hrx'); auto.
        { now rewrite Hrx1, Hskip, flushed_nil. }
        exists 0%nat, s'. cbn [repeat]. rewrite app_nil_r.
        split; [exact Hrounds|]. split; [|exact Hrx'].
        rewrite Hsplit, Hskip, Hrest, !app_nil_r. exact Hdone.
      * destruct Hmore as (Hrecv1 & Htx1 & _ & Hrx1); [lia|].
        destruct (IH (stored ++ taken) (remaining - Str.size taken) s1)
          as (n & s' & Hrounds & Hdone & Hrx'); auto.
        { lia. }
        { rewrite Hrx1. rewrite Hsplit, !size_app in Hsize.
          rewrite size_app. lia. }
        exists n, s'. split; [exact Hrounds|]. split; [|exact Hrx'].
        rewrite Htx1, Htx, Hrx1, <- app_assoc in Hdone.
        rewrite Hsplit. exact Hdone.
Qed.

(** [SEND_BOOK] with fewer bytes pipelined than the declared length starts
    a transfer that has taken exactly the pipelined bytes. *)
Lemma handleSendBook_partial (pf : Platform) (data : bytes) (s : State) :
  extractLpath data <> [] ->
  openOk (card (sink s)) = true -> writeScript (card (sink s)) = [] ->
  connected (tcpClient s) = true ->
  Str.size (recvBuffer s) < extractLength data ->
  exists s',
    handleSendBook pf data s = Ok s'
    /\ receiving (recvBuffer s) (extractLength data - Str.size (recvBuffer s)) s'
    /\ currentFileSize (xfer s') = extractLength data
    /\ tx (tcpClient s') = tx (tcpClient s) ++ [frame (lit "[0,{}]")]
    /\ rx (tcpClient s') = flushed (tcpClient s) (rx (tcpClient s)).
Proof.
  intros Hlpath Hopen Hscript Hconn Hless.
  pose proof (extractLength_range data) as Hrange.
  pose proof (size_nonneg (recvBuffer s)) as Hbuf0.
  unfold handleSendBook.
  replace (Str.empty (extractLpath data)) with false
    by (destruct (extractLpath data); [congruence|reflexivity]).
  replace (extractLength data =? 0) with false by (symmetry; apply Z.eqb_neq; lia).
  simpl orb. cbv iota. fields. rewrite Hopen. simpl negb. cbv iota.
  set (k0 := set_writeBuffer []
               (set_currentWriteFile true
                  (set_currentFile (mkFsFile true []) (sink s)))).
  assert (Hfresh : ready k0) by (repeat split).
  destruct (recvBuffer s) as [|c buf] eqn:Hbuf; simpl Str.empty; simpl negb; cbv iota.
  - eexists. split; [reflexivity|]. unfold receiving. simpl.
    rewrite !sendJsonResponse_eq. simpl.
    rewrite Hconn, Hbuf. change (Str.size (@nil ascii)) with 0 in *.
    repeat split; auto; lia.
  - rewrite <- Hbuf in *.
    replace (Z.to_nat (Z.min (Str.size (recvBuffer s)) (extractLength data)))
      with (length (recvBuffer s)) by (unfold Str.size in *; lia).
    rewrite firstn_all.
    destruct (bufferedWrite_returns (recvBuffer s) k0 Hfresh)
      as (ok & k' & Hwrite & Hready & Hgood).
    destruct (Hgood Hscript) as (-> & _ & Hall).
    rewrite Hwrite. unfold bind. fields.
    eexists. split; [reflexivity|].
    unfold receiving. simpl. rewrite !sendJsonResponse_eq. simpl.
    unfold Str.substr_from. rewrite skipn_all.
    rewrite !wrap32_small by lia. rewrite Hall, Hconn. simpl.
    repeat split; auto; try lia; apply Hready.
Qed.

(** X1: [SEND_BOOK] with fewer bytes pipelined behind it than the
    declared length, followed by exactly the missing bytes over the socket
    in any chunks, on a card that opens the file and takes every write:
    the transfer completes with the file closed and holding the pipelined
    bytes followed by the fed ones, as many bytes as declared, the
    acknowledgement of [SEND_BOOK] followed by exactly one acknowledgement
    of the completion, and the state back to [WAITING]. *)
Theorem send_book_transfer_completes
    (pf : Platform) (data : bytes) (s : State) (chunks : list bytes) :
  extractLpath data <> [] ->
  openOk (card (sink s)) = true -> writeScript (card (sink s)) = [] ->
  connected (tcpClient s) = true -> rx (tcpClient s) = [] ->
  Str.size (recvBuffer s) < extractLength data ->
  Str.size (recvBuffer s ++ concat chunks) = extractLength data ->
  exists s1 n s',
    handleSendBook pf data s = Ok s1
    /\ networkTaskRounds pf (map feed chunks ++ repeat (feed []) n) s1 = Ok s'
    /\ completed (tx (tcpClient s) ++ [frame (lit "[0,{}]")])
                 (recvBuffer s ++ concat chunks) s'
    /\ Str.size (written (currentFile (sink s'))) = extractLength data.
Proof.
  intros Hlpath Hopen Hscript Hconn Hrx Hless Htotal.
  destruct (handleSendBook_partial pf data s Hlpath Hopen Hscript Hconn Hless)
    as (s1 & Hsend & Hrecv & Hsize & Htx & Hrx1).
  destruct (transfer_completes_once pf chunks (recvBuffer s)
              (extractLength data - Str.size (recvBuffer s)) s1 Hrecv)
    as (n & s' & Hrounds & Hdone & _).
  { lia. }
  { rewrite Hrx1, Hrx, flushed_nil. simpl. rewrite size_app in Htotal. lia. }
  exists s1, n, s'. split; [exact Hsend|]. split; [exact Hrounds|].
  rewrite Htx, Hrx1, Hrx, flushed_nil in Hdone. simpl in Hdone.
  split; [exact Hdone|].
  destruct Hdone as (_ & _ & _ & _ & -> & _). simpl. exact Htotal.
Qed.

Lemma send_book_transfer_completes_witness :
  exists s1 n s',
    handleSendBook plainPlatform (lit "{'lpath':'a/b.epub','length':5}")
                   (set_recvBuffer (lit "abc") waitingState) = Ok s1
    /\ networkTaskRounds plainPlatform
         (map feed [lit "d"; []; lit "e"] ++ repeat (feed []) n) s1 = Ok s'
    /\ completed (tx (tcpClient waitingState) ++ [frame (lit "[0,{}]")])
                 (lit "abc" ++ concat [lit "d"; []; lit "e"]) s'
    /\ Str.size (written (currentFile (sink s'))) = 5.
Proof.
  apply (send_book_transfer_completes plainPlatform
           (lit "{'lpath':'a/b.epub','length':5}")
           (set_recvBuffer (lit "abc") waitingState) [lit "d"; []; lit "e"]).
  - vm_compute. discriminate.
  - reflexivity.
  - reflexivity.
  - reflexivity.
  - reflexivity.
  - vm_compute. reflexivity.
  - vm_compute. reflexivity.
Defined.

Lemma network_round_never_spins_witness :
  networkTaskRound plainPlatform (feed (lit "de")) midTransferState <> Spin.
Proof.
  exact (proj1 (network_round_never_spins plainPlatform (feed (lit "de"))
                  midTransferState midTransferState_reachable)).
Defined.

(** ** Dispatch *)

(** [rfind] skips a leading character that is not the one looked for. *)
Lemma rfind_skip (c x : ascii) (r : bytes) :
  x <> c ->
  Str.rfind c (x :: r) = option_map S (Str.rfind c r).
Proof.
  intros Hne. simpl. destruct (Str.rfind c r); [reflexivity|].
  destruct (Ascii.eqb_spec x c); [contradiction|reflexivity].
Qed.

(** A message [[N,data]] whose opcode is one digit dispatches to the handler
    of [N] with [data] as payload. *)
Lemma dispatchMessage_digit (pf : Platform) (d : ascii) (data : bytes) (s : State) :
  is_digit d = true ->
  dispatchMessage pf ("["%char :: d :: ","%char :: data ++ lit "]") s
  = handleCommand pf (OpCode.of_int (digit_val d)) data s.
Proof.
  intros Hd. destruct (digit_facts d Hd) as (Hsp & Hm & Hp & Hb & Hval).
  assert (Hcomma : Ascii.eqb d "," = false).
  { destruct (Ascii.eqb_spec d ","); [subst d; discriminate Hd|reflexivity]. }
  assert (Hclose : d <> "]"%char) by (intros ->; discriminate Hd).
  unfold dispatchMessage. cbn [Str.find Ascii.eqb Bool.eqb].
  unfold Str.find_from. cbn [skipn Str.find option_map]. rewrite Hcomma.
  cbn [Ascii.eqb Bool.eqb option_map Nat.add Nat.sub].
  unfold Str.substr. cbn [skipn firstn].
  assert (Hstoi : stoi [d] = Ok (digit_val d)).
  { unfold stoi. rewrite (digits_subject [d]) by (simpl; now rewrite ?Hd).
    simpl take_digits. rewrite Hd. unfold decimal. simpl fold_left.
    unfold INT_MIN, INT_MAX.
    replace ((digit_val d <? -2147483648) || (2147483647 <? digit_val d))
      with false; [reflexivity|].
    symmetry. apply orb_false_iff. split; apply Z.ltb_ge; lia. }
  rewrite Hstoi. unfold bind.
  replace ((digit_val d <? 0) || (OpCode.to_int OpCode.ERROR <=? digit_val d))
    with false
    by (symmetry; apply orb_false_iff; split;
        [apply Z.ltb_ge|apply Z.leb_gt; simpl]; lia).
  f_equal.
  rewrite !rfind_skip by (auto; discriminate).
  assert (Hlast : Str.rfind "]" (data ++ lit "]") = Some (length data)).
  { clear. induction data as [|x r IH]; [reflexivity|].
    simpl app. simpl Str.rfind. rewrite IH. reflexivity. }
  rewrite Hlast. cbn [option_map].
  destruct data as [|x r].
  - reflexivity.
  - cbn [Nat.add skipn].
    replace (3 <? S (S (S (length (x :: r)))))%nat with true
      by (symmetry; apply Nat.ltb_lt; simpl; lia).
    replace (S (S (S (length (x :: r)))) - 3)%nat with (length (x :: r))
      by (simpl; lia).
    apply firstn_app_exact.
Qed.

(** C10: for every payload and state, dispatching [TOTAL_SPACE] (4) does
    what dispatching [FREE_SPACE] (5) does, in the switch of [handleCommand]
    and for the messages [[4,data]] and [[5,data]] off the wire: one probe of
    the card and the reply [OK] with [{"free_space_on_device":N}], [N] the
    result of the probe. *)
Theorem total_space_is_free_space (pf : Platform) (data : bytes) (s : State) :
  handleCommand pf OpCode.TOTAL_SPACE data s
  = handleCommand pf OpCode.FREE_SPACE data s
  /\ dispatchMessage pf (lit "[4," ++ data ++ lit "]") s
     = dispatchMessage pf (lit "[5," ++ data ++ lit "]") s
  /\ dispatchMessage pf (lit "[4," ++ data ++ lit "]") s
     = Ok (respond OpCode.OK
             (lit "{'free_space_on_device':"
              ++ to_string (getSDCardFreeSpace (card (sink s))) ++ lit "}") s).
Proof.
  split; [reflexivity|].
  change (lit "[4," ++ data ++ lit "]")
    with ("["%char :: "4"%char :: ","%char :: data ++ lit "]").
  change (lit "[5," ++ data ++ lit "]")
    with ("["%char :: "5"%char :: ","%char :: data ++ lit "]").
  rewrite !dispatchMessage_digit by reflexivity.
  split; reflexivity.
Qed.

(** ** Discovery *)

(** A reply [pre;portText] with no comma: whatever [std::stoi] throws on
    the port text leaves [parseReply]. *)
Lemma parseReply_port_throws (pre portText : bytes) (p : Peer) (e : Exn) :
  ~ In ";"%char pre -> ~ In ","%char portText ->
  skip_blank portText <> [] ->
  stoi (skip_blank portText) = Throw e ->
  parseReply (pre ++ ";"%char :: portText) p = Throw e.
Proof.
  intros Hsemi Hcomma Hne Hstoi. unfold parseReply.
  rewrite find_first by assumption.
  unfold Str.find_from. rewrite skipn_app_exact.
  cbn [Str.find Ascii.eqb Bool.eqb]. rewrite (find_absent _ _ Hcomma).
  cbn [option_map]. unfold Str.substr_from.
  replace (skipn (length pre + 1) (pre ++ ";"%char :: portText)) with portText.
  2:{ change (pre ++ ";"%char :: portText) with (pre ++ [";"%char] ++ portText).
      rewrite app_assoc.
      replace (length pre + 1)%nat with (length (pre ++ [";"%char]))
        by (rewrite length_app; reflexivity).
      now rewrite skipn_app_exact. }
  unfold bind. cbv beta iota.
  destruct (skip_blank portText) as [|c r] eqn:Hport; [congruence|].
  cbn [Str.empty negb]. rewrite Hstoi. reflexivity.
Qed.

(** C6 fails on the code: the reply ["foo;abc"] makes [std::stoi] throw
    [std::invalid_argument], which nothing catches, whatever the state and
    the rest of the network, and so does every reply whose port text, with
    no comma after it, is one [std::stoi] rejects.  Only an empty port text
    is a clean retry, and a port text that merely starts with digits is
    taken as a port. *)
Theorem nonnumeric_port_throws (s : State) (ip : bytes) (main alt : bool) :
  listenForDiscovery (mkAir (Some (lit "foo;abc")) ip main alt) s
  = Throw invalid_argument
  /\ (forall (pre portText : bytes) (p : Peer) (e : Exn),
        ~ In ";"%char pre -> ~ In ","%char portText ->
        skip_blank portText <> [] ->
        stoi (skip_blank portText) = Throw e ->
        parseReply (pre ++ ";"%char :: portText) p = Throw e)
  /\ parseReply (lit "foo;") (peer s) = Ok (peer s)
  /\ parseReply (lit "foo;12abc") (peer s) = Ok (set_calibrePort 12 (peer s)).
Proof.
  split; [reflexivity|]. split; [|split; reflexivity].
  intros pre portText p e. apply parseReply_port_throws.
Qed.

(** Two replies.  The first gives the host name [myhost], the main port
    9090 and the alternate port 9091; the second gives the main port 8080
    and no alternate port, the host name falls back to the address of the
    sender, and the worker connects to it. *)
Example discovery_parse_examples :
  parseReply (lit "calibre wireless device client (on myhost);9090,9091")
             (mkPeer [] 0 0 [])
  = Ok (mkPeer [] 9090 9091 (lit "myhost"))
  /\ exists s,
       listenForDiscovery (mkAir (Some (lit "foo;8080")) (lit "10.0.0.7") true false)
                          (onEnter bootState) = Ok s
       /\ peer s = mkPeer (lit "10.0.0.7") 8080 0 (lit "10.0.0.7")
       /\ state (ui s) = WirelessState.WAITING
       /\ connected (tcpClient s) = true.
Proof.
  split; [reflexivity|].
  eexists. split; [reflexivity|]. repeat split.
Qed.

(** ** Teardown *)

Lemma fileWrite_keeps (k : Sink) :
  isOpen (currentFile (snd (fileWrite k))) = isOpen (currentFile k)
  /\ currentWriteFile (snd (fileWrite k)) = currentWriteFile k
  /\ writeBuffer (snd (fileWrite k)) = writeBuffer k.
Proof. unfold fileWrite. destruct (writeScript (card k)); simpl; auto. Qed.

Lemma flushWriteBuffer_file (k : Sink) :
  isOpen (currentFile (snd (flushWriteBuffer k))) = isOpen (currentFile k)
  /\ (currentWriteFile k = true -> isOpen (currentFile k) = true ->
      writeBuffer (snd (flushWriteBuffer k)) = []).
Proof.
  unfold flushWriteBuffer.
  destruct ((0 <? writeBufferPos k) && currentWriteFile k && isOpen (currentFile k))
    eqn:Hcond.
  - destruct (fileWrite_keeps k) as (Hopen & _ & _).
    destruct (fileWrite k) as [n k1]. simpl snd in Hopen.
    destruct (negb (n =? writeBufferPos k)); simpl; auto.
  - simpl. split; auto. intros Hptr Hopen. rewrite Hptr, Hopen, !andb_true_r in Hcond.
    apply Z.ltb_ge in Hcond. apply size_nil_iff.
    pose proof (size_nonneg (writeBuffer k)). unfold writeBufferPos in Hcond. lia.
Qed.

Lemma fileWrite_written (k : Sink) :
  written (currentFile (snd (fileWrite k)))
  = written (currentFile k) ++ firstn (Z.to_nat (fst (fileWrite k))) (writeBuffer k).
Proof. unfold fileWrite. destruct (writeScript (card k)); reflexivity. Qed.

Lemma flushWriteBuffer_flushes (k : Sink) :
  currentWriteFile k = true -> isOpen (currentFile k) = true ->
  writeBuffer k <> [] ->
  snd (flushWriteBuffer k) = set_writeBuffer [] (snd (fileWrite k)).
Proof.
  intros Hptr Hopen Hne. unfold flushWriteBuffer.
  replace (0 <? writeBufferPos k) with true.
  - rewrite Hptr, Hopen. simpl andb. cbv iota.
    destruct (fileWrite k) as [n k1]. simpl snd.
    destruct (negb (n =? writeBufferPos k)); reflexivity.
  - symmetry. apply Z.ltb_lt. unfold writeBufferPos.
    pose proof (size_nonneg (writeBuffer k)).
    destruct (Z.eq_dec (Str.size (writeBuffer k)) 0) as [E|E]; [|lia].
    apply size_nil_iff in E. contradiction.
Qed.

(** C9: if the transfer file is open when [onExit] starts, the calls of
    [onExit] include the flush and the close of the file, no task is
    deleted before them, a worker that did not delete itself is deleted
    only after them, and when [onExit] ends the file is closed and the
    write pointer is null.  If the file is the one being written (the
    write pointer is set), the coalescing buffer is empty at the end, and
    what it held was handed to one [write] that comes before the close;
    the file ends with the bytes that [write] took. *)
Theorem onExit_closes_file_before_force_delete
    (sch : Scheduler) (s : State) (t : Tasks) :
  isOpen (currentFile (sink s)) = true ->
  exists before after,
    fst (onExit sch s t) = before ++ [FileFlush; FileClose] ++ after
    /\ (forall task, ~ In (TaskDelete task) before)
    /\ (networkTaskHandle t = true -> networkTaskDeleted sch = false ->
        In (TaskDelete NetworkTask) after)
    /\ isOpen (currentFile (sink (fst (snd (onExit sch s t))))) = false
    /\ currentWriteFile (sink (fst (snd (onExit sch s t)))) = false
    /\ (currentWriteFile (sink s) = true ->
        writeBuffer (sink (fst (snd (onExit sch s t)))) = []
        /\ (writeBuffer (sink s) <> [] ->
            exists returned,
              In (FileWrite (writeBufferPos (sink s)) returned) before
              /\ written (currentFile (sink (fst (snd (onExit sch s t)))))
                 = written (currentFile (sink s))
                   ++ firstn (Z.to_nat returned) (writeBuffer (sink s)))).
Proof.
  intros Hopen.
  set (s1 := if connected (tcpClient s)
             then set_tcpClient (mkTcp (rx (tcpClient s)) false (tx (tcpClient s))
                                       (flushClearsRx (tcpClient s))) s
             else s).
  assert (Hsink : sink s1 = sink s)
    by (unfold s1; destruct (connected (tcpClient s)); reflexivity).
  destruct (flushWriteBuffer_file (sink s)) as [Hkeep Hempty].
  pose proof (flushWriteBuffer_flushes (sink s)) as Hflushes.
  exists ([SetShouldStop; UdpStop]
          ++ (if connected (tcpClient s) then [TcpStop] else [])
          ++ fst (flushWriteBufferT (sink s))).
  eexists.
  unfold onExit.
  replace (if connected (tcpClient s)
           then ([TcpStop],
                 set_tcpClient (mkTcp (rx (tcpClient s)) false (tx (tcpClient s))
                                      (flushClearsRx (tcpClient s))) s)
           else ([], s))
    with (if connected (tcpClient s) then [TcpStop] else [], s1)
    by (unfold s1; destruct (connected (tcpClient s)); reflexivity).
  rewrite Hsink. unfold flushWriteBufferT.
  destruct (flushWriteBuffer (sink s)) as [ok k] eqn:Hflush.
  simpl snd in Hkeep, Hempty, Hflushes.
  cbn [fst snd set_currentWriteFile currentFile isOpen].
  rewrite Hkeep, Hopen. cbn [fst snd].
  split; [rewrite <- !app_assoc; reflexivity|].
  split; [|split; [|split; [|split]]].
  - intros task Hin.
    apply in_app_or in Hin as [Hin|Hin];
      [|apply in_app_or in Hin as [Hin|Hin]].
    + simpl in Hin. destruct Hin as [H|[H|H]];
        [discriminate H | discriminate H | exact H].
    + destruct (connected (tcpClient s)); simpl in Hin;
        [destruct Hin as [H|H]; [discriminate H | exact H] | exact Hin].
    + destruct ((0 <? writeBufferPos (sink s)) && currentWriteFile (sink s) && true);
        simpl in Hin;
        [destruct Hin as [H|H]; [discriminate H | exact H] | exact Hin].
  - intros Hnet Hdel. rewrite Hnet, Hdel. simpl. auto.
  - reflexivity.
  - reflexivity.
  - intros Hptr. split; [simpl; exact (Hempty Hptr Hopen)|].
    intros Hne. exists (fst (fileWrite (sink s))). split.
    + apply in_or_app. right. apply in_or_app. right.
      rewrite Hptr.
      replace (0 <? writeBufferPos (sink s)) with true; [now left|].
      symmetry. apply Z.ltb_lt. unfold writeBufferPos.
      pose proof (size_nonneg (writeBuffer (sink s))).
      destruct (Z.eq_dec (Str.size (writeBuffer (sink s))) 0) as [E|E]; [|lia].
      apply size_nil_iff in E. contradiction.
    + simpl. rewrite (Hflushes Hptr Hopen Hne). simpl.
      apply fileWrite_written.
Qed.

Lemma onExit_closes_file_before_force_delete_witness :
  exists before after,
    fst (onExit (mkScheduler false false true) busyState
                (mkTasks false true true true true))
    = before ++ [FileFlush; FileClose] ++ after
    /\ (forall task, ~ In (TaskDelete task) before)
    /\ In (TaskDelete NetworkTask) after
    /\ currentFile (sink (fst (snd (onExit (mkScheduler false false true) busyState
                                           (mkTasks false true true true true)))))
       = mkFsFile false (lit "headtail").
Proof.
  destruct (onExit_closes_file_before_force_delete
              (mkScheduler false false true) busyState
              (mkTasks false true true true true) eq_refl)
    as (before & after & Htrace & Hnone & Hnet & _).
  exists before, after. repeat split; auto.
Defined.

(** ** The decimal text of a number *)

Lemma digitsOf_digits (d : Decimal.uint) : forallb is_digit (digitsOf d) = true.
Proof. induction d; simpl; auto. Qed.

Lemma digitsOf_acc (d : Decimal.uint) (acc : positive) :
  fold_left (fun a c => a * 10 + digit_val c) (digitsOf d) (Z.pos acc)
  = Z.pos (Pos.of_uint_acc d acc).
Proof.
  revert acc; induction d; intro acc; [reflexivity | ..];
    cbn [digitsOf NilEmpty.string_of_uint list_ascii_of_string fold_left
         Pos.of_uint_acc];
    fold (digitsOf d); rewrite <- IHd; f_equal;
    match goal with
    | |- _ + digit_val ?c = _ =>
        let v := eval vm_compute in (digit_val c) in
        change (digit_val c) with v
    end; lia.
Qed.

Lemma digitsOf_value (d : Decimal.uint) :
  decimal (digitsOf d) = Z.of_N (N.of_uint d).
Proof.
  unfold decimal, N.of_uint.
  induction d; [reflexivity | ..];
    cbn [digitsOf NilEmpty.string_of_uint list_ascii_of_string fold_left
         Pos.of_uint];
    fold (digitsOf d);
    [ exact IHd | .. ];
    cbn [Z.of_N]; rewrite <- digitsOf_acc; f_equal.
Qed.

Lemma to_string_digitsOf (n : Z) :
  to_string n = digitsOf (N.to_uint (Z.to_N n)).
Proof.
  unfold to_string, digitsOf, NilZero.string_of_uint.
  destruct (N.to_uint (Z.to_N n)) eqn:E; try reflexivity.
  destruct (Z.to_N n); simpl in E; [discriminate|].
  exfalso; revert E; apply Unsigned.to_uint_nonnil.
Qed.

Lemma to_string_digits (n : Z) : forallb is_digit (to_string n) = true.
Proof. rewrite to_string_digitsOf; apply digitsOf_digits. Qed.

Lemma to_string_value (n : Z) : 0 <= n -> decimal (to_string n) = n.
Proof.
  intro H. rewrite to_string_digitsOf, digitsOf_value, DecimalN.Unsigned.of_to.
  apply Z2N.id, H.
Qed.

Lemma to_string_nonempty (n : Z) : to_string n <> [].
Proof.
  rewrite to_string_digitsOf.
  destruct (N.to_uint (Z.to_N n)) eqn:E; try discriminate.
  destruct (Z.to_N n); simpl in E; [discriminate|].
  exfalso; revert E; apply Unsigned.to_uint_nonnil.
Qed.

Lemma digits_lower (ds : bytes) (acc : Z) :
  forallb is_digit ds = true -> 0 <= acc ->
  acc * 10 ^ Z.of_nat (length ds)
  <= fold_left (fun a c => a * 10 + digit_val c) ds acc.
Proof.
  revert acc; induction ds as [|c r IH]; intros acc Hd Hacc.
  - simpl. lia.
  - simpl in Hd. apply andb_prop in Hd as [Hc Hr].
    destruct (digit_facts c Hc) as (_ & _ & _ & _ & Hv).
    cbn [fold_left length]. rewrite Nat2Z.inj_succ, Z.pow_succ_r by lia.
    specialize (IH (acc * 10 + digit_val c) Hr ltac:(lia)).
    pose proof (Z.pow_nonneg 10 (Z.of_nat (length r)) ltac:(lia)).
    nia.
Qed.

Lemma to_uint_head (n : N) (d : Decimal.uint) :
  N.to_uint n = Decimal.D0 d -> n = 0%N.
Proof.
  intro E.
  pose proof (DecimalN.Unsigned.to_of (N.to_uint n)) as H.
  rewrite DecimalN.Unsigned.of_to, E in H.
  unfold Decimal.unorm in H.
  destruct (Decimal.nzhead (Decimal.D0 d)) eqn:Hz; try discriminate H.
  - rewrite <- (DecimalN.Unsigned.of_to n), E.
    injection H as H; subst d. reflexivity.
  - exfalso; exact (nzhead_nonzero _ _ Hz).
Qed.

Lemma to_string_length (n : Z) (k : nat) :
  0 <= n < 10 ^ Z.of_nat k -> (1 <= k)%nat -> (length (to_string n) <= k)%nat.
Proof.
  intros Hn Hk.
  destruct (Z.eq_dec n 0) as [->|Hnz]; [exact Hk|].
  pose proof (to_string_value n ltac:(lia)) as Hv.
  pose proof (to_string_digits n) as Hd.
  rewrite to_string_digitsOf in *.
  destruct (N.to_uint (Z.to_N n)) eqn:E.
  1: { cbn in Hv. lia. }
  1: { apply to_uint_head in E. lia. }
  all: cbn [digitsOf NilEmpty.string_of_uint list_ascii_of_string] in *;
    fold (digitsOf u) in *;
    cbn [forallb] in Hd; apply andb_prop in Hd as [_ Hd];
    unfold decimal in Hv; cbn [fold_left] in Hv;
    match type of Hv with
    | context [digit_val ?c] =>
        let v := eval vm_compute in (digit_val c) in
        change (digit_val c) with v in Hv
    end;
    match type of Hv with
    | fold_left _ _ ?a = _ =>
        pose proof (digits_lower (digitsOf u) a Hd ltac:(lia)) as Hl
    end;
    rewrite Hv in Hl; cbn [length];
    assert (10 ^ Z.of_nat (length (digitsOf u)) < 10 ^ Z.of_nat k)
      by (pose proof (Z.pow_pos_nonneg 10 (Z.of_nat (length (digitsOf u)))
                        ltac:(lia) ltac:(lia)); nia);
    apply Z.pow_lt_mono_r_iff in H; lia.
Qed.

(** ** Frames in a stream *)

Lemma frame_prefix (body : bytes) :
  Str.size body <= MAX_MESSAGE_LEN ->
  let ds := to_string (Str.size body) in
  ds <> [] /\ (length ds <= 12)%nat /\ forallb is_digit ds = true
  /\ decimal ds = Str.size body.
Proof.
  intros Hmax ds. pose proof (size_nonneg body) as Hnn.
  repeat split.
  - apply to_string_nonempty.
  - apply to_string_length; [|lia]. unfold MAX_MESSAGE_LEN in Hmax.
    change (10 ^ Z.of_nat 12) with 1000000000000. lia.
  - apply to_string_digits.
  - apply to_string_value, Hnn.
Qed.

Lemma framable_bracket (body : bytes) :
  framable body -> exists body', body = "["%char :: body'.
Proof.
  intros [Hs _]. destruct body as [|c r]; [discriminate|].
  change (lit "[") with ["["%char] in Hs. cbn [Str.starts_with] in Hs.
  rewrite andb_true_r in Hs. apply Ascii.eqb_eq in Hs. subst c. now exists r.
Qed.

(** A complete frame at the head of the buffer is extracted. *)
Lemma extractMessage_whole (body rest : bytes) :
  framable body ->
  extractMessage (frame body ++ rest) = Ok (Some body, rest).
Proof.
  intros Hf. destruct (framable_bracket body Hf) as [body' ->].
  destruct Hf as [_ Hmax].
  destruct (frame_prefix _ Hmax) as (Hne & Hlen & Hd & Hv).
  unfold frame. rewrite <- app_assoc.
  now apply extractMessage_frame.
Qed.

(** A frame that has not arrived in full stays in the buffer. *)
Lemma extractMessage_partial (body w more : bytes) :
  framable body -> frame body = w ++ more -> more <> [] ->
  extractMessage w = Ok (None, w).
Proof.
  intros Hf Hw Hmore. destruct (framable_bracket body Hf) as [body' ->].
  destruct Hf as [_ Hmax].
  destruct (frame_prefix _ Hmax) as (Hne & Hlen & Hd & Hv).
  unfold frame in Hw. set (ds := to_string (Str.size ("["%char :: body'))) in *.
  assert (Hdigits : forall x, (length x <= 12)%nat -> forallb is_digit x = true ->
                              extractMessage x = Ok (None, x)).
  { intros x Hx Hdx. unfold extractMessage.
    destruct (Str.empty x); [reflexivity|].
    rewrite (find_absent "["%char x) by now apply digits_no_bracket.
    replace (NO_BRACKET_LIMIT <? Str.size x) with false; [reflexivity|].
    symmetry; apply Z.ltb_ge. unfold NO_BRACKET_LIMIT, Str.size. lia. }
  apply app_eq_app in Hw as [l [[Hds Hm]|[Hwl Hb]]].
  - (* the buffer ends inside the digits *)
    apply Hdigits.
    + rewrite Hds, length_app in Hlen. lia.
    + rewrite Hds, forallb_app in Hd. now apply andb_prop in Hd as [? _].
  - destruct l as [|c t].
    + rewrite app_nil_r in Hwl. subst w. now apply Hdigits.
    + injection Hb as <- Hb. subst w.
      assert (Hfind : Str.find "[" (ds ++ "["%char :: t) = Some (length ds))
        by (apply find_first; now apply digits_no_bracket).
      unfold extractMessage.
      replace (Str.empty (ds ++ "["%char :: t)) with false
        by (destruct ds; [congruence|reflexivity]).
      rewrite Hfind. unfold lengthPrefix.
      replace ((0 <? length ds)%nat && (length ds <=? 12)%nat) with true.
      2:{ symmetry. apply andb_true_iff. split.
          - apply Nat.ltb_lt. destruct ds; [congruence|simpl; lia].
          - now apply Nat.leb_le. }
      unfold Str.substr. simpl skipn.
      rewrite !firstn_app_exact, Hd, (stoul_digits ds Hne Hd).
      unfold MAX_MESSAGE_LEN, UINT32_MAX in *.
      replace (4294967295 <? decimal ds) with false by (symmetry; apply Z.ltb_ge; lia).
      simpl bind.
      replace (1000000 <? decimal ds) with false by (symmetry; apply Z.ltb_ge; lia).
      replace (Str.size (ds ++ "["%char :: t) <? Z.of_nat (length ds) + decimal ds)
        with true; [reflexivity|].
      symmetry; apply Z.ltb_lt. rewrite Hv, Hb.
      assert (0 < Str.size more).
      { destruct more; [congruence|]. unfold Str.size. simpl. lia. }
      change ("["%char :: t ++ more) with (("["%char :: t) ++ more).
      rewrite !size_app. unfold Str.size at 1. lia.
Qed.

Lemma readJsonMessage_under_cap (rx recvBuffer : bytes) :
  Str.size recvBuffer <= RECV_BUFFER_CAP ->
  readJsonMessage rx recvBuffer =
  '(message, buf) <- extractMessage (recvBuffer ++ rx) ;; Ok (message, ([], buf)).
Proof.
  intro H. rewrite readJsonMessage_eq.
  replace (RECV_BUFFER_CAP <? Str.size recvBuffer) with false
    by (symmetry; apply Z.ltb_ge; lia).
  now rewrite andb_false_r.
Qed.

Lemma readMessages_app (a b : list bytes) :
  forall rx buf,
    readMessages (a ++ b) rx buf =
    '(ms, (rx', buf')) <- readMessages a rx buf ;;
    '(ms2, final) <- readMessages b rx' buf' ;;
    Ok (ms ++ ms2, final).
Proof.
  induction a as [|c cs IH]; intros rx buf.
  - cbn [app readMessages bind].
    destruct (readMessages b rx buf) as [[ms2 final]| |]; reflexivity.
  - cbn [app readMessages].
    destruct (readJsonMessage (rx ++ c) buf) as [[m [rx' buf']]| |];
      cbn [bind]; try reflexivity.
    rewrite IH.
    destruct (readMessages cs rx' buf') as [[ms [rx2 buf2]]| |];
      cbn [bind]; try reflexivity.
    destruct (readMessages b rx2 buf2) as [[ms2 final]| |];
      cbn [bind]; try reflexivity.
    destruct m; reflexivity.
Qed.

(** Calls on an empty buffer with nothing pending return nothing. *)
Lemma readMessages_idle (n : nat) :
  readMessages (repeat [] n) [] [] = Ok ([], ([], [])).
Proof.
  induction n as [|n IH]; [reflexivity|].
  cbn [repeat readMessages app]. rewrite readJsonMessage_idle.
  change (extractMessage []) with (@Ok (option bytes * bytes) (None, [])).
  cbn [bind]. rewrite IH. reflexivity.
Qed.

(** With every frame in the buffer, one call per frame hands them over. *)
Lemma readMessages_buffered (bodies : list bytes) :
  Forall framable bodies ->
  readMessages (repeat [] (length bodies)) [] (concat (map frame bodies))
  = Ok (bodies, ([], [])).
Proof.
  induction 1 as [|b bs Hb Hbs IH]; [reflexivity|].
  cbn [length repeat map concat readMessages app].
  rewrite readJsonMessage_idle, (extractMessage_whole b _ Hb).
  cbn [bind]. rewrite IH. reflexivity.
Qed.

Lemma readMessages_stream (chunks : list bytes) :
  forall (bodies : list bytes) (buf : bytes) (n : nat),
    Forall framable bodies ->
    buf ++ concat chunks = concat (map frame bodies) ->
    Str.size (concat (map frame bodies)) <= RECV_BUFFER_CAP ->
    (length bodies <= n)%nat ->
    readMessages (chunks ++ repeat [] n) [] buf = Ok (bodies, ([], [])).
Proof.
  induction chunks as [|c cs IH]; intros bodies buf n Hf Heq Hcap Hn.
  - simpl in Heq. rewrite app_nil_r in Heq. subst buf. cbn [app].
    replace n with (length bodies + (n - length bodies))%nat by lia.
    rewrite repeat_app, readMessages_app, (readMessages_buffered bodies Hf).
    cbn [bind]. rewrite readMessages_idle. cbn [bind]. now rewrite app_nil_r.
  - cbn [app readMessages concat] in *.
    assert (Hbuf : Str.size buf <= RECV_BUFFER_CAP).
    { rewrite <- Heq, size_app in Hcap.
      pose proof (size_nonneg (c ++ concat cs)). lia. }
    rewrite readJsonMessage_under_cap by exact Hbuf.
    destruct Hf as [|b bs Hb Hbs].
    + (* no frame is on its way: nothing arrives *)
      simpl in Heq. apply app_eq_nil in Heq as [-> Heq].
      apply app_eq_nil in Heq as [-> Hcs].
      cbn [app bind]. change (extractMessage []) with (@Ok (option bytes * bytes) (None, [])).
      cbn [bind]. rewrite (IH [] [] n); auto.
    + cbn [map concat] in Heq, Hcap.
      rewrite app_assoc in Heq.
      apply app_eq_app in Heq as [l [[Hw Hrest]|[Hfr Hcs]]].
      * (* the first frame is complete *)
        rewrite Hw, (extractMessage_whole b l Hb). cbn [bind].
        assert (Hl : Str.size (concat (map frame bs)) <= RECV_BUFFER_CAP).
        { rewrite size_app in Hcap. pose proof (size_nonneg (frame b)). lia. }
        rewrite (IH bs l n Hbs (eq_sym Hrest) Hl) by (simpl in Hn; lia).
        reflexivity.
      * destruct l as [|x l'].
        { (* the chunk ends with the frame *)
          rewrite app_nil_r in Hfr. rewrite <- Hfr.
          rewrite <- (app_nil_r (frame b)), (extractMessage_whole b [] Hb).
          cbn [bind]. simpl in Hcs.
          assert (Hl : Str.size (concat (map frame bs)) <= RECV_BUFFER_CAP).
          { rewrite size_app in Hcap. pose proof (size_nonneg (frame b)). lia. }
          rewrite (IH bs [] n Hbs Hcs Hl) by (simpl in Hn; lia).
          reflexivity. }
        (* the first frame is not complete yet *)
        rewrite (extractMessage_partial b (buf ++ c) (x :: l') Hb Hfr)
          by discriminate.
        cbn [bind].
        rewrite (IH (b :: bs) (buf ++ c) n); auto.
        -- cbn [map concat]. rewrite Hfr, Hcs, <- !app_assoc. reflexivity.
Qed.

Lemma stoi_digits (ds : bytes) :
  ds <> [] -> forallb is_digit ds = true ->
  stoi ds = if INT_MAX <? decimal ds then Throw out_of_range
            else Ok (decimal ds).
Proof.
  intros Hne Hd. unfold stoi. rewrite digits_subject by auto.
  rewrite take_digits_all by auto.
  destruct ds as [|c r]; [congruence|].
  pose proof (decimal_nonneg (c :: r) Hd) as Hnn.
  replace (decimal (c :: r) <? INT_MIN) with false
    by (symmetry; apply Z.ltb_ge; unfold INT_MIN; lia).
  reflexivity.
Qed.

Lemma rfind_last (c : ascii) (l : bytes) :
  Str.rfind c (l ++ [c]) = Some (length l).
Proof.
  induction l as [|x r IH]; simpl.
  - now rewrite Ascii.eqb_refl.
  - now rewrite IH.
Qed.

Lemma digits_no_comma (ds : bytes) :
  forallb is_digit ds = true -> ~ In ","%char ds.
Proof.
  intros Hd Hin. rewrite forallb_forall in Hd. apply Hd in Hin. discriminate.
Qed.

(** The opcode text and the payload [dispatchMessage] takes from an
    envelope whose opcode text holds no comma. *)
Lemma dispatchMessage_fields (pf : Platform) (op data : bytes) (s : State) :
  ~ In ","%char op -> ~ In "["%char op ->
  dispatchMessage pf ("["%char :: op ++ ","%char :: data ++ ["]"%char]) s
  = (opcodeInt <- stoi op ;;
     if (opcodeInt <? 0) || (OpCode.to_int OpCode.ERROR <=? opcodeInt)
     then Ok (respond OpCode.OK (lit "{}") s)
     else handleCommand pf (OpCode.of_int opcodeInt) data s).
Proof.
  intros Hc Hb.
  remember ("["%char :: op ++ ","%char :: data ++ ["]"%char]) as msg eqn:Hmsg.
  assert (Hfb : Str.find "[" msg = Some 0%nat) by (subst msg; reflexivity).
  assert (Hfc : Str.find_from "," 1 msg = Some (S (length op))).
  { subst msg. unfold Str.find_from. cbn [skipn].
    now rewrite (find_first ","%char op (data ++ ["]"%char]) Hc). }
  assert (Hop : Str.substr 1 (S (length op) - 1) msg = op).
  { subst msg. unfold Str.substr. cbn [skipn].
    replace (S (length op) - 1)%nat with (length op) by lia.
    apply firstn_app_exact. }
  assert (Hdata :
    match Str.rfind "]" msg with
    | Some dataEnd =>
        if (S (length op) + 1 <? dataEnd)%nat
        then Str.substr (S (length op) + 1) (dataEnd - (S (length op) + 1)) msg
        else []
    | None => []
    end = data).
  { replace msg with (("["%char :: op ++ [","%char]) ++ data ++ ["]"%char])
      by (subst msg; cbn [app]; now rewrite <- app_assoc).
    replace (S (length op) + 1)%nat with (length ("["%char :: op ++ [","%char]))
      by (cbn [length]; rewrite length_app; simpl; lia).
    set (pre := "["%char :: op ++ [","%char]).
    rewrite (app_assoc pre data), rfind_last, length_app.
    destruct data as [|x r].
    - replace (length pre <? length pre + length (@nil ascii))%nat with false;
        [reflexivity|].
      symmetry; apply Nat.ltb_ge; simpl; lia.
    - replace (length pre <? length pre + length (x :: r))%nat with true
        by (symmetry; apply Nat.ltb_lt; simpl; lia).
      replace (length pre + length (x :: r) - length pre)%nat
        with (length (x :: r)) by lia.
      unfold Str.substr. rewrite <- app_assoc, skipn_app_exact.
      apply firstn_app_exact. }
  unfold dispatchMessage. rewrite Hfb. cbv zeta. rewrite Hfc, Hop.
  destruct (stoi op) as [n| |]; cbn [bind]; try reflexivity.
  destruct ((n <? 0) || (OpCode.to_int OpCode.ERROR <=? n)); [reflexivity|].
  now rewrite Hdata.
Qed.

Lemma envelope_eq (n : Z) (data : bytes) :
  envelope n data = "["%char :: to_string n ++ ","%char :: data ++ ["]"%char].
Proof. reflexivity. Qed.

(** X6: what [handleTcpClient] reads from an envelope [[n,data]], [n] written
    in decimal: the handler of opcode [n] runs on exactly [data], whatever
    characters [data] holds, when [n] is below [ERROR] (20); from 20 up to
    [INT_MAX] the only effect is the reply [OK] with [{}]; above [INT_MAX]
    [std::stoi] throws [out_of_range]. *)
Theorem dispatch_decodes_envelope (pf : Platform) (n : Z) (data : bytes) (s : State) :
  (0 <= n < 20 ->
   dispatchMessage pf (envelope n data) s
   = handleCommand pf (OpCode.of_int n) data s)
  /\ (20 <= n <= INT_MAX ->
      dispatchMessage pf (envelope n data) s
      = Ok (respond OpCode.OK (lit "{}") s))
  /\ (INT_MAX < n ->
      dispatchMessage pf (envelope n data) s = Throw out_of_range).
Proof.
  assert (Hgen : 0 <= n ->
            dispatchMessage pf (envelope n data) s
            = if INT_MAX <? n then Throw out_of_range
              else if (n <? 0) || (OpCode.to_int OpCode.ERROR <=? n)
                   then Ok (respond OpCode.OK (lit "{}") s)
                   else handleCommand pf (OpCode.of_int n) data s).
  { intro Hn. rewrite envelope_eq, dispatchMessage_fields.
    - rewrite stoi_digits, to_string_value
        by (auto using to_string_nonempty, to_string_digits).
      destruct (INT_MAX <? n); reflexivity.
    - apply digits_no_comma, to_string_digits.
    - apply digits_no_bracket, to_string_digits. }
  unfold INT_MAX in *. cbn [OpCode.to_int] in Hgen.
  repeat split; intros Hn; rewrite Hgen by lia.
  - replace (2147483647 <? n) with false by (symmetry; apply Z.ltb_ge; lia).
    replace (n <? 0) with false by (symmetry; apply Z.ltb_ge; lia).
    replace (20 <=? n) with false by (symmetry; apply Z.leb_gt; lia).
    reflexivity.
  - replace (2147483647 <? n) with false by (symmetry; apply Z.ltb_ge; lia).
    replace (20 <=? n) with true by (symmetry; apply Z.leb_le; lia).
    now rewrite orb_true_r.
  - replace (2147483647 <? n) with true by (symmetry; apply Z.ltb_lt; lia).
    reflexivity.
Qed.

(** X5: the frame [sendJsonResponse] writes is one [write] of the decimal
    length of [[opcode,data]] followed by that text, and the reader of the
    same file takes it back: [readJsonMessage] on that frame, whatever
    follows it on the socket, returns [[opcode,data]] and keeps what
    follows in [recvBuffer].  The [flush()] behind the write decides what
    is left of the bytes that were pending on the socket of the device:
    none when the [flush()] of the library throws pending input away, all
    of them when it does not. *)
Theorem response_frame_reads_back
    (o : OpCode.t) (data : bytes) (t : Tcp) (rest : bytes) :
  Str.size (envelope (OpCode.to_int o) data) <= MAX_MESSAGE_LEN ->
  exists w,
    tx (sendJsonResponse o data t) = tx t ++ [w]
    /\ rx (sendJsonResponse o data t) = (if flushClearsRx t then [] else rx t)
    /\ connected (sendJsonResponse o data t) = connected t
    /\ flushClearsRx (sendJsonResponse o data t) = flushClearsRx t
    /\ w = to_string (Str.size (envelope (OpCode.to_int o) data))
           ++ envelope (OpCode.to_int o) data
    /\ readJsonMessage (w ++ rest) []
       = Ok (Some (envelope (OpCode.to_int o) data), ([], rest)).
Proof.
  intros Hmax. exists (frame (envelope (OpCode.to_int o) data)).
  rewrite sendJsonResponse_eq. repeat split.
  rewrite readJsonMessage_under_cap by (unfold RECV_BUFFER_CAP; cbn; lia).
  cbn [app]. rewrite extractMessage_whole; [reflexivity|].
  split; [reflexivity|exact Hmax].
Qed.

Lemma response_frame_reads_back_witness :
  exists w,
    tx (sendJsonResponse OpCode.OK (lit "{}")
          (mkTcp (lit "7[12,{}]") true [] true)) = [w]
    /\ rx (sendJsonResponse OpCode.OK (lit "{}")
             (mkTcp (lit "7[12,{}]") true [] true)) = []
    /\ connected (sendJsonResponse OpCode.OK (lit "{}")
                    (mkTcp (lit "7[12,{}]") true [] true)) = true
    /\ flushClearsRx (sendJsonResponse OpCode.OK (lit "{}")
                        (mkTcp (lit "7[12,{}]") true [] true)) = true
    /\ w = lit "6[0,{}]"
    /\ readJsonMessage (w ++ lit "7[12,{}]") []
       = Ok (Some (lit "[0,{}]"), ([], lit "7[12,{}]")).
Proof.
  apply (response_frame_reads_back OpCode.OK (lit "{}")
           (mkTcp (lit "7[12,{}]") true [] true) (lit "7[12,{}]")).
  vm_compute. discriminate.
Defined.

(** X4: frames arrive in order whatever the segmentation.  [bodies] are
    texts that open with the bracket, each at most 1000000 bytes; the
    stream is their frames one after the other, at most 100000 bytes in
    all, cut into [chunks] at any places (inside a length prefix, inside a
    body, empty chunks).  Calling [readJsonMessage] once as each chunk
    arrives and then [n] more times, [n] at least the number of frames,
    returns exactly [bodies] in order, and leaves the socket and
    [recvBuffer] empty. *)
Theorem frames_delivered_in_order (bodies chunks : list bytes) (n : nat) :
  Forall framable bodies ->
  concat chunks = concat (map frame bodies) ->
  Str.size (concat chunks) <= RECV_BUFFER_CAP ->
  (length bodies <= n)%nat ->
  readMessages (chunks ++ repeat [] n) [] [] = Ok (bodies, ([], [])).
Proof.
  intros Hf Heq Hcap Hn. apply readMessages_stream; auto.
  now rewrite <- Heq.
Qed.

Lemma frames_delivered_in_order_witness :
  readMessages ([lit "6[9,{"; lit "}]7[1"; []; lit "2,{}]"] ++ repeat [] 2) [] []
  = Ok ([lit "[9,{}]"; lit "[12,{}]"], ([], [])).
Proof.
  apply frames_delivered_in_order.
  - repeat constructor; vm_compute; discriminate.
  - reflexivity.
  - vm_compute. discriminate.
  - simpl. lia.
Defined.

(** ** Frames that throw *)

(** A round on a connected activity that is not receiving a file: the
    socket is read and a message, if one is complete, dispatched. *)
Lemma waiting_round (pf : Platform) (bs : bytes) (card : SdCard) (s : State) :
  state (ui s) = WirelessState.WAITING -> connected (tcpClient s) = true ->
  inBinaryMode (xfer s) = false ->
  networkTaskRound pf (arrival bs card) s
  = ('(message, (rx', recvBuffer')) <-
         readJsonMessage (rx (tcpClient s) ++ bs) (recvBuffer s) ;;
     match message with
     | None => Ok (set_recvBuffer recvBuffer'
                     (set_tcpClient (mkTcp rx' true (tx (tcpClient s))
                                           (flushClearsRx (tcpClient s)))
                        (set_sink (set_card card (sink s)) s)))
     | Some m => dispatchMessage pf m
                   (set_recvBuffer recvBuffer'
                      (set_tcpClient (mkTcp rx' true (tx (tcpClient s))
                                            (flushClearsRx (tcpClient s)))
                         (set_sink (set_card card (sink s)) s)))
     end).
Proof.
  intros Hst Hc Hb.
  unfold networkTaskRound, environment, arrival.
  cbn [arrived peerUp cardNow air set_tcpClient set_sink ui tcpClient sink
       peer xfer recvBuffer rx connected tx].
  rewrite Hst, Hc. cbn [andb].
  unfold handleTcpClient.
  cbn [set_tcpClient set_sink ui tcpClient sink peer xfer recvBuffer rx
       connected tx negb].
  rewrite Hb.
  destruct (readJsonMessage _ _) as [[m [rx' buf']]| |]; cbn [bind];
    reflexivity.
Qed.

Lemma idle_round (pf : Platform) (bs : bytes) (card : SdCard) (s : State) :
  idle s ->
  networkTaskRound pf (arrival bs card) s
  = ('(message, (rx', recvBuffer')) <- readJsonMessage bs [] ;;
     match message with
     | None => Ok (set_recvBuffer recvBuffer'
                     (set_tcpClient (mkTcp rx' true (tx (tcpClient s))
                                           (flushClearsRx (tcpClient s)))
                        (set_sink (set_card card (sink s)) s)))
     | Some m => dispatchMessage pf m
                   (set_recvBuffer recvBuffer'
                      (set_tcpClient (mkTcp rx' true (tx (tcpClient s))
                                            (flushClearsRx (tcpClient s)))
                         (set_sink (set_card card (sink s)) s)))
     end).
Proof.
  intros (Hst & Hc & Hb & Hrx & Hbuf).
  rewrite waiting_round by assumption. now rewrite Hrx, Hbuf.
Qed.

(** One round on an idle activity to which a whole frame arrives: the
    dispatcher runs on the body. *)
Lemma idle_round_frame (pf : Platform) (body rest : bytes) (card : SdCard)
                       (s : State) :
  idle s -> framable body ->
  networkTaskRound pf (arrival (frame body ++ rest) card) s
  = dispatchMessage pf body (afterRead card rest s).
Proof.
  intros Hi Hf. rewrite idle_round by exact Hi.
  rewrite readJsonMessage_under_cap by (unfold RECV_BUFFER_CAP; cbn; lia).
  cbn [app]. rewrite extractMessage_whole by exact Hf. reflexivity.
Qed.

Lemma extractMessage_huge (ds rest : bytes) :
  ds <> [] -> (length ds <= 12)%nat -> forallb is_digit ds = true ->
  UINT32_MAX < decimal ds ->
  extractMessage (ds ++ "["%char :: rest) = Throw out_of_range.
Proof.
  intros Hne Hlen Hd Hbig.
  assert (Hfind : Str.find "[" (ds ++ "["%char :: rest) = Some (length ds))
    by (apply find_first; now apply digits_no_bracket).
  unfold extractMessage.
  replace (Str.empty (ds ++ "["%char :: rest)) with false
    by (destruct ds; [congruence|reflexivity]).
  rewrite Hfind. unfold lengthPrefix.
  replace ((0 <? length ds)%nat && (length ds <=? 12)%nat) with true.
  2:{ symmetry. apply andb_true_iff. split.
      - apply Nat.ltb_lt. destruct ds; [congruence|simpl; lia].
      - now apply Nat.leb_le. }
  unfold Str.substr. simpl skipn.
  rewrite !firstn_app_exact, Hd, (stoul_digits ds Hne Hd).
  replace (UINT32_MAX <? decimal ds) with true by (symmetry; apply Z.ltb_lt; lia).
  reflexivity.
Qed.

(** X7: a length prefix of at most twelve digits whose value is above
    4294967295 makes [std::stoul] throw [out_of_range]: [readJsonMessage]
    throws as soon as the bracket behind the digits is in the buffer, before
    the check against 1000000, and so does the round of the network worker
    on an idle connection, whatever follows the bracket. *)
Theorem oversized_length_prefix_throws (ds rest : bytes) :
  ds <> [] -> (length ds <= 12)%nat -> forallb is_digit ds = true ->
  UINT32_MAX < decimal ds ->
  (forall rx recvBuffer : bytes,
      recvBuffer ++ rx = ds ++ "["%char :: rest ->
      Str.size recvBuffer <= RECV_BUFFER_CAP ->
      readJsonMessage rx recvBuffer = Throw out_of_range)
  /\ (forall (pf : Platform) (card : SdCard) (s : State),
        idle s ->
        networkTaskRound pf (arrival (ds ++ "["%char :: rest) card) s
        = Throw out_of_range).
Proof.
  intros Hne Hlen Hd Hbig. split.
  - intros rx buf Heq Hcap. rewrite readJsonMessage_under_cap by exact Hcap.
    rewrite Heq, extractMessage_huge by auto. reflexivity.
  - intros pf card s Hi. rewrite idle_round by exact Hi.
    rewrite readJsonMessage_under_cap by (unfold RECV_BUFFER_CAP; cbn; lia).
    cbn [app]. rewrite extractMessage_huge by auto. reflexivity.
Qed.

Lemma oversized_length_prefix_throws_witness :
  readJsonMessage (lit "67296[") (lit "42949") = Throw out_of_range
  /\ readJsonMessage (lit "4294967295[") [] = Ok (None, ([], [])).
Proof.
  split; [|reflexivity].
  refine (proj1 (oversized_length_prefix_throws (lit "4294967296") [] _ _ _ _)
                (lit "67296[") (lit "42949") _ _).
  - discriminate.
  - simpl. lia.
  - reflexivity.
  - reflexivity.
  - reflexivity.
  - vm_compute. discriminate.
Defined.

(** X8: a complete frame whose opcode field (the text between the bracket
    and the first comma) is not a number makes [std::stoi] throw in
    [handleTcpClient]: the exception leaves the dispatcher and the round of
    the network worker, no reply is sent. *)
Theorem nonnumeric_opcode_throws (op data : bytes) (e : Exn) :
  ~ In ","%char op -> ~ In "["%char op -> stoi op = Throw e ->
  (forall (pf : Platform) (s : State),
      dispatchMessage pf ("["%char :: op ++ ","%char :: data ++ ["]"%char]) s
      = Throw e)
  /\ (forall (pf : Platform) (card : SdCard) (s : State) (rest : bytes),
        idle s ->
        Str.size ("["%char :: op ++ ","%char :: data ++ ["]"%char])
        <= MAX_MESSAGE_LEN ->
        networkTaskRound pf
          (arrival (frame ("["%char :: op ++ ","%char :: data ++ ["]"%char]) ++ rest)
                   card) s
        = Throw e).
Proof.
  intros Hc Hb He.
  assert (Hd : forall pf s,
             dispatchMessage pf ("["%char :: op ++ ","%char :: data ++ ["]"%char]) s
             = Throw e).
  { intros pf s. rewrite dispatchMessage_fields by assumption.
    rewrite He. reflexivity. }
  split; [exact Hd|].
  intros pf card s rest Hi Hmax.
  rewrite idle_round_frame; [apply Hd|exact Hi|].
  split; [reflexivity|exact Hmax].
Qed.

Lemma nonnumeric_opcode_throws_witness :
  dispatchMessage plainPlatform (lit "[x,{}]") waitingState = Throw invalid_argument
  /\ dispatchMessage plainPlatform (lit "[,]") waitingState = Throw invalid_argument
  /\ networkTaskRound plainPlatform (arrival (frame (lit "[99999999999,{}]")) goodCard)
                      waitingState = Throw out_of_range.
Proof.
  split; [|split].
  - apply (proj1 (nonnumeric_opcode_throws (lit "x") (lit "{}") invalid_argument
                    ltac:(simpl; intuition discriminate)
                    ltac:(simpl; intuition discriminate) eq_refl)).
  - apply (proj1 (nonnumeric_opcode_throws [] [] invalid_argument
                    ltac:(simpl; intuition) ltac:(simpl; intuition) eq_refl)).
  - vm_compute. reflexivity.
Defined.

(** ** The fields of [SEND_BOOK], found and missing *)

Lemma starts_with_app (key rest : bytes) : Str.starts_with key (key ++ rest) = true.
Proof.
  induction key as [|c k IH]; [reflexivity|].
  simpl. now rewrite Ascii.eqb_refl, IH.
Qed.

Lemma starts_with_firstn (key s : bytes) :
  Str.starts_with key s = true <-> firstn (length key) s = key.
Proof.
  revert s. induction key as [|c k IH]; intros s.
  - simpl. tauto.
  - destruct s as [|x r]; simpl.
    + split; discriminate.
    + rewrite andb_true_iff, Ascii.eqb_eq, IH. split.
      * intros [-> ->]. reflexivity.
      * intros H. injection H as -> H. auto.
Qed.

Lemma find_str_first (key data : bytes) (p : nat) :
  occursAt key data p ->
  (forall i, (i < p)%nat -> ~ occursAt key data i) ->
  Str.find_str key data = Some p.
Proof.
  unfold occursAt. revert data.
  induction p as [|p IH]; intros data Hat Hfirst.
  - simpl in Hat. destruct data; simpl; now rewrite Hat.
  - destruct data as [|x r].
    + simpl in Hat. specialize (Hfirst 0%nat ltac:(lia)). simpl in Hfirst.
      congruence.
    + pose proof (Hfirst 0%nat ltac:(lia)) as H0. simpl in H0.
      cbn [Str.find_str].
      destruct (Str.starts_with key (x :: r)); [congruence|].
      rewrite (IH r); [reflexivity|exact Hat|].
      intros i Hi. apply (Hfirst (S i)). lia.
Qed.

Lemma find_str_none (key data : bytes) :
  (forall i, ~ occursAt key data i) -> Str.find_str key data = None.
Proof.
  unfold occursAt. induction data as [|x r IH]; intros Hno.
  - pose proof (Hno 0%nat) as H0. simpl in *.
    destruct (Str.starts_with key []); congruence.
  - pose proof (Hno 0%nat) as H0. simpl in H0. cbn [Str.find_str].
    destruct (Str.starts_with key (x :: r)); [congruence|].
    rewrite IH; [reflexivity|]. intros i. apply (Hno (S i)).
Qed.

Lemma find_from_first (c : ascii) (pre sep post : bytes) :
  ~ In c sep ->
  Str.find_from c (length pre) (pre ++ sep ++ c :: post)
  = Some (length pre + length sep)%nat.
Proof.
  intros H. unfold Str.find_from. rewrite skipn_app_exact.
  now rewrite find_first.
Qed.

(** X9: the value of [lpath].  When the first occurrence of the quoted key
    in the payload is followed, after the next colon, by a quoted text, that
    text is what [handleSendBook] takes as [lpath], whatever stands before
    the key and after the closing quote. *)
Theorem lpath_value_extracted (pre sep gap value post : bytes) :
  let data := pre ++ lit "'lpath'" ++ sep ++ ":"%char :: gap
                  ++ dquote :: value ++ dquote :: post in
  (forall i, (i < length pre)%nat -> ~ occursAt (lit "'lpath'") data i) ->
  ~ In ":"%char sep -> ~ In dquote gap -> ~ In dquote value ->
  extractLpath data = value.
Proof.
  intros data Hfirst Hsep Hgap Hval.
  unfold extractLpath.
  rewrite (find_str_first _ data (length pre)); [| |exact Hfirst].
  2:{ unfold occursAt, data. rewrite skipn_app_exact. apply starts_with_app. }
  set (key := lit "'lpath'") in *.
  assert (Hcolon : Str.find_from ":" (length pre + 7) data
                   = Some (length (pre ++ key) + length sep)%nat).
  { replace (length pre + 7)%nat with (length (pre ++ key))
      by (rewrite length_app; reflexivity).
    unfold data. rewrite (app_assoc pre key).
    now apply find_from_first. }
  rewrite Hcolon.
  set (a := pre ++ key ++ sep ++ [":"%char]).
  assert (Ha : (length (pre ++ key) + length sep + 1 = length a)%nat).
  { unfold a. rewrite !length_app. simpl. lia. }
  assert (Hdata : data = a ++ gap ++ dquote :: value ++ dquote :: post).
  { unfold data, a. rewrite <- !app_assoc. reflexivity. }
  rewrite Ha, Hdata, (find_from_first dquote a gap _ Hgap).
  set (b := a ++ gap ++ [dquote]).
  assert (Hb : (length a + length gap + 1 = length b)%nat).
  { unfold b. rewrite !length_app. simpl. lia. }
  assert (Hdata2 : a ++ gap ++ dquote :: value ++ dquote :: post
                   = b ++ value ++ dquote :: post).
  { unfold b. rewrite <- !app_assoc. reflexivity. }
  rewrite Hb, Hdata2, (find_from_first dquote b value _ Hval).
  unfold Str.substr. rewrite skipn_app_exact.
  replace (length b + length value - (length a + length gap) - 1)%nat
    with (length value) by lia.
  apply firstn_app_exact.
Qed.

Lemma digit_not_blank (c : ascii) : is_digit c = true -> is_blank c = false.
Proof.
  intros Hd. unfold is_blank.
  destruct (Ascii.eqb_spec c " "); [subst c; discriminate Hd|].
  destruct (Ascii.eqb_spec c tab); [subst c; discriminate Hd|]. reflexivity.
Qed.

Lemma skip_blank_app (blanks rest : bytes) :
  forallb is_blank blanks = true ->
  (forall c r, rest = c :: r -> is_blank c = false) ->
  skip_blank (blanks ++ rest) = rest.
Proof.
  intros Hb Hr. induction blanks as [|x bl IH].
  - simpl. destruct rest as [|c r]; [reflexivity|].
    pose proof (Hr c r eq_refl) as Hc. unfold is_blank in Hc.
    simpl. now rewrite Hc.
  - simpl in Hb. apply andb_prop in Hb as [Hx Hbl].
    unfold is_blank in Hx. simpl. rewrite Hx. auto.
Qed.

Lemma take_digits_app (ds post : bytes) :
  forallb is_digit ds = true ->
  (forall c r, post = c :: r -> is_digit c = false) ->
  take_digits (ds ++ post) = ds.
Proof.
  intros Hd Hp. induction ds as [|x r IH].
  - simpl. destruct post as [|c r]; [reflexivity|].
    simpl. now rewrite (Hp c r eq_refl).
  - simpl in Hd. apply andb_prop in Hd as [Hx Hr].
    simpl. rewrite Hx, IH by exact Hr. reflexivity.
Qed.

Lemma lengthAt_found (pre sep blanks ds post : bytes) :
  ~ In ":"%char sep -> forallb is_blank blanks = true ->
  ds <> [] -> forallb is_digit ds = true ->
  (forall c r, post = c :: r -> is_digit c = false) ->
  lengthAt (pre ++ lit "'length'" ++ sep ++ ":"%char :: blanks ++ ds ++ post)
           (length pre)
  = Some (Z.min (decimal ds) UINT32_MAX).
Proof.
  intros Hsep Hbl Hne Hd Hpost.
  set (key := lit "'length'").
  set (data := pre ++ key ++ sep ++ ":"%char :: blanks ++ ds ++ post).
  unfold lengthAt.
  assert (Hsize : Z.of_nat (length pre) + 9 < Str.size data).
  { unfold data, Str.size. rewrite !length_app. cbn [length].
    rewrite !length_app.
    change (length key) with 8%nat.
    destruct ds; [congruence|]. cbn [length]. lia. }
  replace (Z.of_nat (length pre) + 9 <? Str.size data) with true
    by (symmetry; now apply Z.ltb_lt).
  assert (Hkey : Str.substr (length pre) 8 data = key).
  { unfold Str.substr, data. rewrite skipn_app_exact.
    change 8%nat with (length key). apply firstn_app_exact. }
  rewrite Hkey. unfold Str.eqb.
  destruct (list_eq_dec ascii_dec key key) as [_|]; [|congruence].
  cbn [andb].
  assert (Hcolon : Str.find_from ":" (length pre + 8) data
                   = Some (length (pre ++ key) + length sep)%nat).
  { replace (length pre + 8)%nat with (length (pre ++ key))
      by (rewrite length_app; reflexivity).
    unfold data. rewrite (app_assoc pre key).
    now apply find_from_first. }
  rewrite Hcolon.
  set (a := pre ++ key ++ sep ++ [":"%char]).
  assert (Ha : (length (pre ++ key) + length sep + 1 = length a)%nat).
  { unfold a. rewrite !length_app. simpl. lia. }
  assert (Hdata : data = a ++ blanks ++ ds ++ post).
  { unfold data, a. rewrite <- !app_assoc. reflexivity. }
  rewrite Ha, Hdata, skipn_app_exact.
  rewrite skip_blank_app; [|exact Hbl|].
  2:{ intros c r Hc. apply digit_not_blank.
      destruct ds as [|d ds']; [congruence|].
      simpl in Hc, Hd. injection Hc as <- _.
      now apply andb_prop in Hd as [? _]. }
  rewrite take_digits_app by assumption.
  destruct ds as [|d ds'] eqn:Hds; [congruence|]. cbn [Str.empty].
  rewrite <- Hds in *. rewrite strtoul_digits by assumption.
  reflexivity.
Qed.

Lemma scanLength_finds (data : bytes) (p : nat) (v : Z) (tail : bytes) :
  lengthAt data p = Some v -> depthAt data p = 1 ->
  skipn p data = dquote :: tail ->
  (forall i, (i < p)%nat -> depthAt data i = 1 -> lengthAt data i = None) ->
  forall (rest : bytes) (i : nat),
    skipn i data = rest -> (i <= p)%nat ->
    scanLength data rest i (depthAt data i) = Some (p, v).
Proof.
  intros Hat Hone Hq Hbefore.
  induction rest as [|c rest' IH]; intros i Hrest Hi.
  - exfalso.
    assert (length (skipn i data) = 0%nat) by now rewrite Hrest.
    assert (length (skipn p data) = S (length tail)) by now rewrite Hq.
    rewrite length_skipn in *. lia.
  - destruct (Nat.eq_dec i p) as [->|Hne].
    + rewrite Hq in Hrest. injection Hrest as <- <-.
      cbn [scanLength]. rewrite Hone, Hat. reflexivity.
    + destruct (skipn_step _ _ _ _ Hrest) as [Hnext _].
      pose proof (depthAt_step _ _ _ _ Hrest) as Hdepth.
      unfold bump in Hdepth. cbn [scanLength].
      specialize (IH (S i) Hnext ltac:(lia)).
      destruct (opens c); [now rewrite <- Hdepth|].
      destruct (closes c); [now rewrite <- Hdepth|].
      destruct ((depthAt data i =? 1) && Ascii.eqb c dquote) eqn:Hc;
        [|now rewrite <- Hdepth].
      apply andb_prop in Hc as [Hd1 _]. apply Z.eqb_eq in Hd1.
      rewrite (Hbefore i) by (auto; lia). now rewrite <- Hdepth.
Qed.

(** The [length] is found where the counter of the loop is 1 for the
    first time at the quoted text, with a colon, blanks and a run of digits
    behind it. *)
Lemma length_found_at_count (pre sep blanks ds post : bytes) :
  let data := pre ++ lit "'length'" ++ sep ++ ":"%char :: blanks ++ ds ++ post in
  depthAt data (length pre) = 1 ->
  (forall i, (i < length pre)%nat -> depthAt data i = 1 ->
             ~ occursAt (lit "'length'") data i) ->
  ~ In ":"%char sep -> forallb is_blank blanks = true ->
  ds <> [] -> forallb is_digit ds = true ->
  (forall c r, post = c :: r -> is_digit c = false) ->
  extractLength data = Z.min (decimal ds) UINT32_MAX.
Proof.
  intros data Hone Hfirst Hsep Hbl Hne Hd Hpost.
  pose proof (lengthAt_found pre sep blanks ds post Hsep Hbl Hne Hd Hpost) as Hat.
  fold data in Hat.
  unfold extractLength.
  change 0 with (depthAt data 0) at 1.
  erewrite (scanLength_finds data (length pre)); eauto.
  - unfold data. rewrite skipn_app_exact. reflexivity.
  - intros i Hi Hdi.
    destruct (lengthAt data i) as [n|] eqn:Hn; [|reflexivity].
    exfalso. apply (Hfirst i Hi Hdi).
    apply lengthAt_key in Hn. unfold occursAt.
    apply starts_with_firstn. exact Hn.
  - lia.
Qed.

(** A character that is neither bracket nor brace leaves the counter. *)
Lemma bump_plain (depth : Z) (c : ascii) :
  opens c || closes c = false -> bump depth c = depth.
Proof.
  unfold bump. intros H. apply orb_false_iff in H as [-> ->]. reflexivity.
Qed.

(** On a text whose string literals hold no bracket and no brace the
    counter of the loop is the nesting depth. *)
Lemma nesting_count (s : bytes) :
  forall (inString escaped : bool) (depth : Z),
    plainStrings s inString escaped = true ->
    nesting s inString escaped depth = fold_left bump s depth.
Proof.
  induction s as [|c r IH]; intros inString escaped depth H; [reflexivity|].
  cbn [nesting plainStrings fold_left] in *.
  destruct inString.
  - apply andb_prop in H as [Hc H]. apply negb_true_iff in Hc.
    rewrite (bump_plain depth c Hc).
    destruct escaped; [now apply IH|].
    destruct (Ascii.eqb c backslash); [now apply IH|].
    destruct (Ascii.eqb c dquote); now apply IH.
  - destruct (Ascii.eqb_spec c dquote) as [->|Hq]; now apply IH.
Qed.

Lemma plainStrings_prefix (a b : bytes) :
  forall (inString escaped : bool),
    plainStrings (a ++ b) inString escaped = true ->
    plainStrings a inString escaped = true.
Proof.
  induction a as [|c r IH]; intros inString escaped H; [reflexivity|].
  cbn [app plainStrings] in *.
  destruct inString.
  - apply andb_prop in H as [Hc H]. rewrite Hc. cbn [andb].
    destruct escaped; [now apply IH|].
    destruct (Ascii.eqb c backslash); [now apply IH|].
    destruct (Ascii.eqb c dquote); now apply IH.
  - destruct (Ascii.eqb c dquote); now apply IH.
Qed.

Lemma depthAt_nestingAt (data : bytes) (i : nat) :
  plainStrings data false false = true -> depthAt data i = nestingAt data i.
Proof.
  intros H. unfold depthAt, nestingAt. symmetry. apply nesting_count.
  apply (plainStrings_prefix _ (skipn i data)). now rewrite firstn_skipn.
Qed.

(** The same up to the end of a part [pre] of the text. *)
Lemma depthAt_nestingAt_before (pre rest : bytes) (i : nat) :
  plainStrings pre false false = true -> (i <= length pre)%nat ->
  depthAt (pre ++ rest) i = nestingAt (pre ++ rest) i.
Proof.
  intros H Hi. unfold depthAt, nestingAt.
  rewrite firstn_app. replace (i - length pre)%nat with 0%nat by lia.
  cbn [firstn]. rewrite app_nil_r.
  apply (depthAt_nestingAt pre i H).
Qed.

(** X10: the top-level [length] is found when the string literals before
    it hold no bracket and no brace.  The quoted text [length] stands at
    nesting depth 1 of the payload and does not stand at nesting depth 1
    before that; a colon, blanks and a run of digits follow.  Then
    [handleSendBook] reads the value of those digits as the length of the
    book, cut to 4294967295, whatever stands before the key (nested
    [length] fields included) and after the digits. *)
Theorem top_level_length_found (pre sep blanks ds post : bytes) :
  let data := pre ++ lit "'length'" ++ sep ++ ":"%char :: blanks ++ ds ++ post in
  plainStrings pre false false = true ->
  nestingAt data (length pre) = 1 ->
  (forall i, (i < length pre)%nat -> nestingAt data i = 1 ->
             ~ occursAt (lit "'length'") data i) ->
  ~ In ":"%char sep -> forallb is_blank blanks = true ->
  ds <> [] -> forallb is_digit ds = true ->
  (forall c r, post = c :: r -> is_digit c = false) ->
  extractLength data = Z.min (decimal ds) UINT32_MAX.
Proof.
  intros data Hplain Hone Hfirst Hsep Hbl Hne Hd Hpost.
  apply length_found_at_count; auto.
  - fold data. unfold data at 1.
    rewrite depthAt_nestingAt_before by auto. exact Hone.
  - intros i Hi Hdi. fold data in Hdi |- *. apply Hfirst; [exact Hi|].
    unfold data in Hdi |- *.
    rewrite depthAt_nestingAt_before in Hdi by (auto; lia). exact Hdi.
Qed.

Lemma top_level_length_found_witness :
  extractLength
    (lit "{'lpath':'a/b.epub','cover':{'length':7},'length': 99999999999,'x':1}")
  = UINT32_MAX.
Proof.
  refine (top_level_length_found
            (lit "{'lpath':'a/b.epub','cover':{'length':7},") [] (lit " ")
            (lit "99999999999") (lit ",'x':1}") _ _ _ _ _ _ _ _).
  - reflexivity.
  - reflexivity.
  - intros i Hi Hd. unfold occursAt.
    do 41 (destruct i as [|i]; [vm_compute in Hd |- *; congruence|]).
    simpl in Hi. lia.
  - simpl. tauto.
  - reflexivity.
  - discriminate.
  - reflexivity.
  - intros c r H. injection H as <- _. reflexivity.
Defined.

Lemma lpath_value_extracted_witness :
  extractLpath (lit "{'title':'x','lpath': 'dir/b.epub','length':5}")
  = lit "dir/b.epub".
Proof.
  refine (lpath_value_extracted (lit "{'title':'x',") [] (lit " ")
            (lit "dir/b.epub") (lit ",'length':5}") _ _ _ _).
  - intros i Hi. unfold occursAt.
    do 13 (destruct i as [|i]; [vm_compute; congruence|]).
    simpl in Hi. lia.
  - simpl. tauto.
  - simpl. intuition discriminate.
  - simpl. intuition discriminate.
Defined.

Lemma occursAt_check (key data : bytes) :
  key <> [] ->
  forallb (fun i => negb (Str.starts_with key (skipn i data)))
          (seq 0 (length data)) = true ->
  forall i, ~ occursAt key data i.
Proof.
  intros Hk Hall i. unfold occursAt.
  destruct (Nat.lt_ge_cases i (length data)) as [Hlt|Hge].
  - rewrite forallb_forall in Hall.
    specialize (Hall i ltac:(apply in_seq; lia)).
    destruct (Str.starts_with key (skipn i data)); [discriminate|congruence].
  - rewrite skipn_all2 by exact Hge. destruct key; [congruence|]. discriminate.
Qed.

Lemma occursAt_depth_check (key data : bytes) :
  key <> [] ->
  forallb (fun i => negb ((nestingAt data i =? 1)
                          && Str.starts_with key (skipn i data)))
          (seq 0 (length data)) = true ->
  forall i, nestingAt data i = 1 -> ~ occursAt key data i.
Proof.
  intros Hk Hall i Hd. unfold occursAt.
  destruct (Nat.lt_ge_cases i (length data)) as [Hlt|Hge].
  - rewrite forallb_forall in Hall.
    specialize (Hall i ltac:(apply in_seq; lia)).
    rewrite Hd in Hall. cbn [Z.eqb Pos.eqb andb] in Hall.
    destruct (Str.starts_with key (skipn i data)); [discriminate|congruence].
  - rewrite skipn_all2 by exact Hge. destruct key; [congruence|]. discriminate.
Qed.

(** A payload without the quoted text [lpath], or without the quoted text
    [length] at a place where the counter of the loop is 1, is refused. *)
Lemma send_book_rejects_at_count (pf : Platform) (data : bytes) (s : State) :
  (forall i, ~ occursAt (lit "'lpath'") data i)
  \/ (forall i, depthAt data i = 1 -> ~ occursAt (lit "'length'") data i) ->
  handleSendBook pf data s
  = Ok (respond OpCode.ERROR (lit "{'message':'Invalid book data'}") s).
Proof.
  intros H. unfold handleSendBook.
  assert (Hbad : Str.empty (extractLpath data) || (extractLength data =? 0) = true).
  { destruct H as [Hl|Hn].
    - unfold extractLpath. now rewrite find_str_none.
    - apply orb_true_iff. right. apply Z.eqb_eq.
      unfold extractLength.
      destruct (scanLength data data 0 0) as [[p n]|] eqn:Hscan; [|reflexivity].
      exfalso.
      apply (scanLength_depth data data 0 p n eq_refl) in Hscan as (Hd & Hat & _).
      apply (Hn p Hd). apply lengthAt_key in Hat.
      apply starts_with_firstn. exact Hat. }
  now rewrite Hbad.
Qed.

(** X11: a [SEND_BOOK] whose payload does not hold the quoted text [lpath]
    anywhere, or whose string literals hold no bracket and no brace and
    which does not hold the quoted text [length] at nesting depth 1, is
    answered with [ERROR] and [Invalid book data], and nothing else is
    done: the state is the one before with that reply sent. *)
Theorem send_book_rejects_incomplete (pf : Platform) (data : bytes) (s : State) :
  (forall i, ~ occursAt (lit "'lpath'") data i)
  \/ (plainStrings data false false = true
      /\ forall i, nestingAt data i = 1 -> ~ occursAt (lit "'length'") data i) ->
  handleSendBook pf data s
  = Ok (respond OpCode.ERROR (lit "{'message':'Invalid book data'}") s).
Proof.
  intros [Hl|[Hplain Hn]]; apply send_book_rejects_at_count; [now left|right].
  intros i Hd. apply Hn. now rewrite <- depthAt_nestingAt.
Qed.

Lemma send_book_rejects_incomplete_witness :
  handleSendBook plainPlatform (lit "{'title':'x','length':7}") waitingState
  = Ok (respond OpCode.ERROR (lit "{'message':'Invalid book data'}") waitingState)
  /\ handleSendBook plainPlatform (lit "{'lpath':'a.epub','info':{'length':7}}")
                    waitingState
     = Ok (respond OpCode.ERROR (lit "{'message':'Invalid book data'}")
                   waitingState).
Proof.
  split; apply send_book_rejects_incomplete.
  - left. apply occursAt_check; [discriminate|reflexivity].
  - right. split; [reflexivity|].
    apply occursAt_depth_check; [discriminate|reflexivity].
Defined.

(** ** The discovery reply *)

Lemma find_str_head (c : ascii) (k head rest : bytes) :
  ~ In c head ->
  Str.find_str (c :: k) (head ++ c :: k ++ rest) = Some (length head).
Proof.
  intros H. induction head as [|x r IH].
  - cbn [app length].
    cbn [Str.find_str Str.starts_with].
    now rewrite Ascii.eqb_refl, starts_with_app.
  - cbn [app length]. cbn [Str.find_str Str.starts_with].
    destruct (Ascii.eqb_spec c x) as [->|Hne]; [exfalso; apply H; now left|].
    cbn [andb]. rewrite IH; [reflexivity|].
    intros Hin. apply H. now right.
Qed.

Lemma not_in_app {A} (x : A) (a b : list A) :
  ~ In x a -> ~ In x b -> ~ In x (a ++ b).
Proof. intros Ha Hb Hin. apply in_app_or in Hin. tauto. Qed.

Lemma skip_blank_digits (ds : bytes) :
  forallb is_digit ds = true -> skip_blank ds = ds.
Proof.
  destruct ds as [|c r]; [reflexivity|]. intros Hd. simpl in Hd.
  apply andb_prop in Hd as [Hc _]. apply digit_not_blank in Hc.
  unfold is_blank in Hc. simpl. now rewrite Hc.
Qed.

Lemma parseReply_reply (head host : bytes) (main alt : Z) (trailer : bytes)
                       (p : Peer) :
  ~ In "("%char head -> ~ In ")"%char head -> ~ In ";"%char head ->
  host <> [] -> ~ In ")"%char host -> ~ In ";"%char host ->
  0 <= main <= INT_MAX -> 0 <= alt <= INT_MAX ->
  (forall c r, trailer = c :: r -> is_digit c = false) ->
  parseReply (discoveryReply head host main alt trailer) p
  = Ok (mkPeer (calibreHost p) (to_uint16 main) (to_uint16 alt) host).
Proof.
  intros Hopen Hclose Hsemi Hhost Hhc Hhs Hmain Halt Htr.
  pose proof (to_string_digits main) as Hmd.
  pose proof (to_string_digits alt) as Had.
  pose proof (to_string_nonempty main) as Hmne.
  pose proof (to_string_nonempty alt) as Hane.
  pose proof (to_string_value main ltac:(lia)) as Hmv.
  pose proof (to_string_value alt ltac:(lia)) as Hav.
  unfold discoveryReply.
  remember (to_string main) as md eqn:Emd.
  remember (to_string alt) as ad eqn:Ead.
  assert (Hme : Str.empty md = false) by (destruct md; [congruence|reflexivity]).
  assert (Hae : Str.empty ad = false) by (destruct ad; [congruence|reflexivity]).
  set (response := head ++ lit "(on " ++ host ++ lit ");" ++ md ++ lit ","
                        ++ ad ++ trailer).
  set (a := head ++ lit "(on " ++ host).
  set (b := a ++ [")"%char]).
  assert (Hr1 : response = head ++ lit "(on " ++ (host ++ ")"%char :: ";"%char :: md
                                   ++ ","%char :: ad ++ trailer)).
  { reflexivity. }
  assert (Hr2 : response = a ++ ")"%char :: (";"%char :: md ++ ","%char :: ad ++ trailer)).
  { unfold a. rewrite Hr1, <- !app_assoc. reflexivity. }
  assert (Hr3 : response = b ++ ";"%char :: (md ++ ","%char :: ad ++ trailer)).
  { unfold b. rewrite Hr2, <- !app_assoc. reflexivity. }
  assert (Hon : Str.find_str (lit "(on ") response = Some (length head)).
  { rewrite Hr1. now apply (find_str_head "("%char (lit "on ")). }
  assert (Ha_close : ~ In ")"%char a).
  { unfold a. apply not_in_app; [exact Hclose|]. apply not_in_app; [|exact Hhc].
    simpl. intuition discriminate. }
  assert (Hcl : Str.find ")" response = Some (length a)).
  { rewrite Hr2. now apply find_first. }
  assert (Hb_semi : ~ In ";"%char b).
  { unfold b, a. repeat apply not_in_app; auto; simpl; intuition discriminate. }
  assert (Hse : Str.find ";" response = Some (length b)).
  { rewrite Hr3. now apply find_first. }
  assert (Hco : Str.find_from "," (length b) response
                = Some (length b + S (length md))%nat).
  { unfold Str.find_from. rewrite Hr3, skipn_app_exact.
    change (";"%char :: md ++ ","%char :: ad ++ trailer)
      with ((";"%char :: md) ++ ","%char :: ad ++ trailer).
    rewrite find_first; [reflexivity|].
    intros [Hx|Hx]; [discriminate|]. revert Hx. now apply digits_no_comma. }
  assert (Hport : Str.substr (length b + 1)
                    (length b + S (length md) - length b - 1) response = md).
  { unfold Str.substr.
    replace (length b + S (length md) - length b - 1)%nat with (length md) by lia.
    replace (length b + 1)%nat with (length (b ++ [";"%char]))
      by (rewrite length_app; reflexivity).
    rewrite Hr3.
    replace (b ++ ";"%char :: md ++ ","%char :: ad ++ trailer)
      with ((b ++ [";"%char]) ++ md ++ ","%char :: ad ++ trailer)
      by (now rewrite <- app_assoc).
    rewrite skipn_app_exact. apply firstn_app_exact. }
  assert (Halts : Str.substr_from (length b + S (length md) + 1) response
                  = ad ++ trailer).
  { unfold Str.substr_from. rewrite Hr3.
    replace (b ++ ";"%char :: md ++ ","%char :: ad ++ trailer)
      with ((b ++ ";"%char :: md ++ [","%char]) ++ ad ++ trailer)
      by (rewrite <- !app_assoc; cbn [app]; rewrite <- !app_assoc; reflexivity).
    replace (length b + S (length md) + 1)%nat
      with (length (b ++ ";"%char :: md ++ [","%char]))
      by (rewrite !length_app; cbn [length]; rewrite length_app; simpl; lia).
    apply skipn_app_exact. }
  assert (Hname : Str.substr (length head + 4) (length a - length head - 4) response
                  = host).
  { unfold Str.substr. rewrite Hr1.
    replace (length head + 4)%nat with (length (head ++ lit "(on "))
      by (rewrite length_app; reflexivity).
    rewrite app_assoc, skipn_app_exact.
    replace (length a - length (head ++ lit "(on "))%nat with (length host).
    2:{ unfold a. rewrite !length_app. lia. }
    unfold a. rewrite !length_app.
    replace (length head + (length (lit "(on ") + length host) - length head - 4)%nat
      with (length host) by (simpl; lia).
    apply firstn_app_exact. }
  unfold parseReply. fold response.
  rewrite Hon, Hcl, Hse, Hco.
  replace (length b <? length b + S (length md))%nat with true
    by (symmetry; apply Nat.ltb_lt; lia).
  rewrite Hport, Halts, take_digits_app by assumption.
  rewrite Hae. cbn [negb].
  rewrite (stoi_digits ad Hane Had), Hav.
  replace (INT_MAX <? alt) with false by (symmetry; apply Z.ltb_ge; lia).
  cbn [bind].
  rewrite skip_blank_digits by exact Hmd.
  rewrite Hme. cbn [negb].
  rewrite (stoi_digits md Hmne Hmd), Hmv.
  replace (INT_MAX <? main) with false by (symmetry; apply Z.ltb_ge; lia).
  cbn [bind].
  replace (length head + 4 <? length a)%nat with true.
  2:{ symmetry; apply Nat.ltb_lt. unfold a. rewrite !length_app.
      destruct host; [congruence|]. simpl. lia. }
  rewrite Hname. reflexivity.
Qed.

Lemma cstr_id (b : bytes) : ~ In zero b -> cstr b = b.
Proof.
  induction b as [|c r IH]; intros H; [reflexivity|].
  simpl. destruct (Ascii.eqb_spec c zero) as [->|_].
  - exfalso. apply H. now left.
  - rewrite IH; [reflexivity|]. intros Hin. apply H. now right.
Qed.

Lemma not_in_check (c : ascii) (l : bytes) :
  forallb (fun x => negb (Ascii.eqb x c)) l = true -> ~ In c l.
Proof.
  intros H Hin. rewrite forallb_forall in H. apply H in Hin.
  now rewrite Ascii.eqb_refl in Hin.
Qed.

(** X3: the discovery exchange on the reply Calibre sends, [GREETING (on
    HOST);PORT,ALTPORT] with the ports in decimal.  The host name shown is
    [HOST], the address connected to is the sender's, and the ports are
    [PORT] and [ALTPORT] cut to 16 bits.  With a main port that is not 0
    after the cut the worker connects (main port first, the alternate one if
    it is not 0) and waits for commands, or, when no connection is made,
    goes back to discovering with both ports reset; with a main port that
    is 0 after the cut no connection is attempted. *)
Theorem discovery_reply_connects
    (head host trailer : bytes) (main alt : Z) (a : Air) (s : State) :
  ~ In "("%char head -> ~ In ")"%char head -> ~ In ";"%char head ->
  host <> [] -> ~ In ")"%char host -> ~ In ";"%char host ->
  0 <= main <= INT_MAX -> 0 <= alt <= INT_MAX ->
  (forall c r, trailer = c :: r -> is_digit c = false) ->
  packet a = Some (discoveryReply head host main alt trailer) ->
  (length (discoveryReply head host main alt trailer) <= 255)%nat ->
  ~ In zero (discoveryReply head host main alt trailer) ->
  let up := connectMain a || ((0 <? to_uint16 alt) && connectAlt a) in
  exists s',
    listenForDiscovery a s = Ok s'
    /\ calibreHost (peer s') = remoteIP a
    /\ calibreHostname (peer s') = host
    /\ (0 < to_uint16 main -> up = true ->
        state (ui s') = WirelessState.WAITING
        /\ connected (tcpClient s') = true
        /\ calibrePort (peer s') = to_uint16 main
        /\ calibreAltPort (peer s') = to_uint16 alt)
    /\ (0 < to_uint16 main -> up = false ->
        state (ui s') = WirelessState.DISCOVERING
        /\ tcpClient s' = tcpClient s
        /\ calibrePort (peer s') = 0 /\ calibreAltPort (peer s') = 0)
    /\ (to_uint16 main = 0 ->
        ui s' = ui s /\ tcpClient s' = tcpClient s
        /\ calibreAltPort (peer s') = to_uint16 alt).
Proof.
  intros Hopen Hclose Hsemi Hhost Hhc Hhs Hmain Halt Htr Hpk Hlen Hnul up.
  pose proof (parseReply_reply head host main alt trailer (peer s)
                Hopen Hclose Hsemi Hhost Hhc Hhs Hmain Halt Htr) as Hparse.
  unfold listenForDiscovery. rewrite Hpk.
  rewrite firstn_all2 by exact Hlen.
  set (reply := discoveryReply head host main alt trailer) in *.
  assert (Hpos : (0 <? Str.size reply) = true).
  { apply Z.ltb_lt. unfold reply, discoveryReply, Str.size.
    rewrite !length_app. simpl. lia. }
  rewrite Hpos, (cstr_id reply Hnul), Hparse. cbn [bind]. cbv beta zeta.
  cbn [set_calibreHost calibreHost calibrePort calibreAltPort calibreHostname].
  replace (Str.empty host) with false by (destruct host; [congruence|reflexivity]).
  cbn [set_calibreHost calibreHost calibrePort calibreAltPort calibreHostname].
  destruct (0 <? to_uint16 main) eqn:Hport.
  - apply Z.ltb_lt in Hport. fold up.
    destruct up eqn:Hup.
    + eexists. split; [reflexivity|]. cbn.
      repeat split; try reflexivity; try congruence; intros; lia.
    + eexists. split; [reflexivity|]. cbn.
      repeat split; try reflexivity; try congruence; intros; try lia.
  - apply Z.ltb_ge in Hport.
    eexists. split; [reflexivity|]. cbn.
    repeat split; try reflexivity; try congruence; intros; lia.
Qed.

Lemma discovery_reply_connects_witness :
  exists s',
    listenForDiscovery
      (mkAir (Some (discoveryReply (lit "calibre wireless device client ")
                      (lit "myhost") 74626 9091 []))
             (lit "192.168.1.20") false true)
      (onEnter bootState) = Ok s'
    /\ peer s' = mkPeer (lit "192.168.1.20") 9090 9091 (lit "myhost")
    /\ state (ui s') = WirelessState.WAITING
    /\ connected (tcpClient s') = true.
Proof.
  destruct (discovery_reply_connects
              (lit "calibre wireless device client ") (lit "myhost") []
              74626 9091
              (mkAir (Some (discoveryReply (lit "calibre wireless device client ")
                              (lit "myhost") 74626 9091 []))
                     (lit "192.168.1.20") false true)
              (onEnter bootState))
    as (s' & Hrun & Hhost & Hname & Hup & _ & _).
  - apply not_in_check; reflexivity.
  - apply not_in_check; reflexivity.
  - apply not_in_check; reflexivity.
  - discriminate.
  - apply not_in_check; reflexivity.
  - apply not_in_check; reflexivity.
  - unfold INT_MAX; lia.
  - unfold INT_MAX; lia.
  - discriminate.
  - reflexivity.
  - vm_compute. lia.
  - apply not_in_check; reflexivity.
  - exists s'. destruct Hup as (Hst & Hc & Hp & Ha);
      [reflexivity|reflexivity|].
    split; [exact Hrun|]. split; [|auto].
    destruct (peer s') as [h pt ap hn]. cbn in *. subst. reflexivity.
Defined.

(** ** Free space and the device identifier *)

(** X12: what [getSDCardFreeSpace] reports, for a card whose [preAllocate]
    grants a size exactly when that many bytes are free.  The value is one
    of the thirteen probe sizes, between 64 MiB and 256 GiB.  When the probe
    file cannot be created it is 64 GiB whatever is free.  Otherwise, with
    at least 64 MiB free, it is the largest probe size that fits: it never
    exceeds the free space and is more than half of it (or is 256 GiB);
    with less than 64 MiB free it is still 64 MiB, more than what is free.
    The reply of [handleFreeSpace] built from it fits the 64 bytes of its
    buffer. *)
Theorem free_space_probe_bounds (c : SdCard) :
  let r := getSDCardFreeSpace c in
  In r probeSizes
  /\ 64 * MiB <= r <= 256 * GiB
  /\ (openOk c = false -> r = 64 * GiB)
  /\ (openOk c = true -> 64 * MiB <= freeBytes c ->
      r <= freeBytes c /\ (freeBytes c < 2 * r \/ r = 256 * GiB))
  /\ (openOk c = true -> freeBytes c < 64 * MiB -> r = 64 * MiB)
  /\ Str.size (lit "{'free_space_on_device':" ++ to_string r ++ lit "}") <= 63.
Proof.
  intros r.
  assert (Hin : In r probeSizes).
  { unfold r, getSDCardFreeSpace.
    destruct (openOk c); cbn [negb]; [|simpl; tauto].
    destruct (find (preAllocate c) probeSizes) as [size|] eqn:Hf.
    - now apply List.find_some in Hf as [? _].
    - simpl; tauto. }
  assert (Hrange : 64 * MiB <= r <= 256 * GiB).
  { unfold probeSizes, GiB, MiB in *. simpl in Hin.
    repeat (destruct Hin as [<-|Hin]; [lia|]). contradiction. }
  split; [exact Hin|]. split; [exact Hrange|].
  split; [|split; [|split]].
  - intros Hopen. unfold r, getSDCardFreeSpace. now rewrite Hopen.
  - intros Hopen Hfree. unfold r, getSDCardFreeSpace. rewrite Hopen.
    cbn [negb]. unfold probeSizes, preAllocate, GiB, MiB in *.
    cbn [find].
    repeat match goal with
           | |- context [?a <=? ?b] =>
               let H := fresh in
               destruct (Z.leb_spec a b) as [H|H]; [lia|]
           end.
    lia.
  - intros Hopen Hfree. unfold r, getSDCardFreeSpace. rewrite Hopen.
    cbn [negb]. unfold probeSizes, preAllocate, GiB, MiB in *.
    cbn [find].
    repeat match goal with
           | |- context [?a <=? ?b] =>
               let H := fresh in
               destruct (Z.leb_spec a b) as [H|H]; [lia|]
           end.
    lia.
  - rewrite !size_app.
    assert ((length (to_string r) <= 12)%nat).
    { apply to_string_length; [|lia].
      change (10 ^ Z.of_nat 12) with 1000000000000.
      unfold GiB, MiB in Hrange. lia. }
    unfold Str.size at 2. change (Str.size (lit "{'free_space_on_device':")) with 24.
    change (Str.size (lit "}")) with 1. lia.
Qed.

Lemma hex2_eq (n : Z) : hex2 n = [hexDigit (n / 16 mod 16); hexDigit (n mod 16)].
Proof. reflexivity. Qed.

Lemma hexDigit_inj (a b : Z) :
  0 <= a < 16 -> 0 <= b < 16 -> hexDigit a = hexDigit b -> a = b.
Proof.
  intros Ha Hb H.
  assert (Hcase : forall d, 0 <= d < 16 ->
            d = 0 \/ d = 1 \/ d = 2 \/ d = 3 \/ d = 4 \/ d = 5 \/ d = 6 \/ d = 7
            \/ d = 8 \/ d = 9 \/ d = 10 \/ d = 11 \/ d = 12 \/ d = 13 \/ d = 14
            \/ d = 15) by (intros; lia).
  destruct (Hcase a Ha) as [->|[->|[->|[->|[->|[->|[->|[->|[->|[->|[->|[->|[->|[->|[->| ->]]]]]]]]]]]]]]];
  destruct (Hcase b Hb) as [->|[->|[->|[->|[->|[->|[->|[->|[->|[->|[->|[->|[->|[->|[->| ->]]]]]]]]]]]]]]];
  try reflexivity; vm_compute in H; discriminate H.
Qed.

Lemma hex2_inj (a b : Z) : is_byte a -> is_byte b -> hex2 a = hex2 b -> a = b.
Proof.
  unfold is_byte. intros Ha Hb H. rewrite !hex2_eq in H.
  injection H as Hhi Hlo.
  apply hexDigit_inj in Hhi; [|apply Z.mod_pos_bound; lia..].
  apply hexDigit_inj in Hlo; [|apply Z.mod_pos_bound; lia..].
  rewrite (Z.div_mod a 16), (Z.div_mod b 16) by lia.
  rewrite !Z.mod_small in Hhi by (split; [apply Z.div_pos; lia|apply Z.div_lt_upper_bound; lia]).
  congruence.
Qed.

(** X13: the identifier [getDeviceUuid] builds from the hardware address has
    the shape of a UUID, 36 characters in groups of 8, 4, 4, 4 and 12 with
    dashes between them (so the 37 bytes of its buffer hold it), the third
    and fourth groups are [4000] and [8000], and two boards with different
    addresses get different identifiers. *)
Theorem device_uuid_identifies_board (pf pf' : Platform) :
  length (getDeviceUuid pf) = 36%nat
  /\ Str.substr 8 1 (getDeviceUuid pf) = lit "-"
  /\ Str.substr 13 11 (getDeviceUuid pf) = lit "-4000-8000-"
  /\ (length (macAddress pf) = 6%nat -> length (macAddress pf') = 6%nat ->
      Forall is_byte (macAddress pf) -> Forall is_byte (macAddress pf') ->
      getDeviceUuid pf = getDeviceUuid pf' -> macAddress pf = macAddress pf').
Proof.
  split; [reflexivity|]. split; [reflexivity|]. split; [reflexivity|].
  intros Hl Hl' Hb Hb' Heq.
  destruct (macAddress pf) as [|a0 [|a1 [|a2 [|a3 [|a4 [|a5 [|]]]]]]] eqn:Hm;
    try discriminate Hl.
  destruct (macAddress pf') as [|b0 [|b1 [|b2 [|b3 [|b4 [|b5 [|]]]]]]] eqn:Hm';
    try discriminate Hl'.
  unfold getDeviceUuid in Heq. rewrite Hm, Hm' in Heq.
  cbn [nth] in Heq. rewrite !hex2_eq in Heq.
  cbn [app] in Heq.
  change (lit "-") with ["-"%char] in Heq.
  cbn [app] in Heq.
  injection Heq as H0h H0l H1h H1l H2h H2l H3h H3l H4h H4l _.
  repeat match goal with
         | H : Forall _ (_ :: _) |- _ => inversion H; clear H; subst
         end.
  f_equal; [|f_equal; [|f_equal; [|f_equal; [|f_equal; [|f_equal]]]]];
    apply hex2_inj; auto; rewrite !hex2_eq; congruence.
Qed.

Lemma device_uuid_identifies_board_witness :
  getDeviceUuid plainPlatform = lit "deadbeef-0001-4000-8000-deadbeef0001"
  /\ (getDeviceUuid plainPlatform
      = getDeviceUuid (mkPlatform (fun n => n) (fun _ _ => true) [] [222; 173; 190; 239; 0; 1])
      -> macAddress plainPlatform = [222; 173; 190; 239; 0; 1]).
Proof.
  split; [reflexivity|].
  apply (proj2 (proj2 (proj2 (device_uuid_identifies_board plainPlatform
     (mkPlatform (fun n => n) (fun _ _ => true) [] [222; 173; 190; 239; 0; 1])))));
    try reflexivity; repeat constructor; unfold is_byte; lia.
Defined.

(** ** Replies, and the state shown *)

Lemma respond_wrote (o : OpCode.t) (data : bytes) (s0 s : State) (ws : list bytes) :
  wrote s0 s ws ->
  wrote s0 (respond o data s) (ws ++ [reply (OpCode.to_int o) data]).
Proof.
  intros (Htx & Hrx & Hc & Hf). unfold wrote, respond.
  cbn [tcpClient set_tcpClient]. rewrite sendJsonResponse_eq.
  cbn [tx rx connected flushClearsRx]. rewrite Htx, <- app_assoc, Hrx.
  repeat split; auto.
  unfold pendingAfter, flushed. rewrite Hf.
  destruct ws; cbn [app]; [reflexivity|].
  now destruct (flushClearsRx (tcpClient s0)).
Qed.

Lemma wrote_refl (s : State) : wrote s s [].
Proof. unfold wrote, pendingAfter. now rewrite app_nil_r. Qed.

Lemma wrote_same (s0 s s' : State) (ws : list bytes) :
  tcpClient s' = tcpClient s -> wrote s0 s ws -> wrote s0 s' ws.
Proof. unfold wrote. now intros ->. Qed.

Lemma handleSendBook_reply (pf : Platform) (data : bytes) (s s' : State) :
  handleSendBook pf data s = Ok s' ->
  exists code json, (code = 0 \/ code = 20) /\ wrote s s' [reply code json].
Proof.
  unfold handleSendBook. intros H.
  destruct (Str.empty (extractLpath data) || (extractLength data =? 0)).
  { injection H as <-. do 2 eexists. split; [right; reflexivity|].
    apply (respond_wrote OpCode.ERROR _ s s []), wrote_refl. }
  fields.
  destruct (negb (openOk (card (sink s)))).
  { injection H as <-. do 2 eexists. split; [right; reflexivity|].
    apply (respond_wrote OpCode.ERROR _ s _ []).
    eapply wrote_same; [|apply wrote_refl]. reflexivity. }
  assert (Hok : forall t, tcpClient t = sendJsonResponse OpCode.OK (lit "{}") (tcpClient s) ->
                          wrote s t [reply 0 (lit "{}")]).
  { intros t Ht. unfold wrote. rewrite Ht, sendJsonResponse_eq. cbn. auto. }
  destruct (negb (Str.empty (recvBuffer s))).
  2:{ injection H as <-. exists 0, (lit "{}"). split; [now left|].
      apply Hok. reflexivity. }
  match type of H with
  | context [bufferedWrite ?d ?k] => destruct (bufferedWrite d k) as [[ok k']| |]
  end; cbn [bind] in H; try discriminate H.
  destruct ok; injection H as <-; exists 0, (lit "{}");
    (split; [now left|]); apply Hok; reflexivity.
Qed.

Lemma plain_reply (o : OpCode.t) (json : bytes) (s s1 : State) :
  tcpClient s1 = tcpClient s -> sink s1 = sink s -> xfer s1 = xfer s ->
  recvBuffer s1 = recvBuffer s -> peer s1 = peer s -> o <> OpCode.NOOP ->
  answered o s (respond OpCode.OK json s1).
Proof.
  intros Ht Hk Hx Hb Hp Hn. exists 0, json.
  split; [|split].
  - apply (respond_wrote OpCode.OK json s s1 []).
    eapply wrote_same; [exact Ht|apply wrote_refl].
  - right; left; auto.
  - intros _. unfold respond. cbn [sink xfer recvBuffer peer set_tcpClient]. auto.
Qed.

Lemma handleCommand_reply (pf : Platform) (o : OpCode.t) (data : bytes)
                          (s s' : State) :
  handleCommand pf o data s = Ok s' -> answered o s s'.
Proof.
  intros H.
  destruct o; cbn [handleCommand] in H;
    try (injection H as <-;
         unfold handleGetInitializationInfo, handleGetDeviceInformation,
                handleFreeSpace, handleGetBookCount, handleSendBookMetadata,
                handleDisplayMessage;
         cbv zeta;
         match goal with
         | |- answered _ _ (respond OpCode.OK ?j ?s1) =>
             apply (plain_reply _ j s s1)
         end;
         solve [reflexivity | discriminate
               | destruct (contains (lit "'messageKind':1") data); reflexivity]).
  - (* SEND_BOOK *)
    destruct (handleSendBook_reply pf data s s' H) as (code & json & Hc & Hw).
    exists code, json. split; [exact Hw|]. split; [|congruence].
    destruct Hc as [->| ->]; [right; left; split; [reflexivity|discriminate]|].
    right; right; auto.
  - (* NOOP *)
    injection H as <-. unfold handleNoop.
    exists 12, (lit "{}"). split; [|split]; [|left; auto|].
    + apply (respond_wrote OpCode.NOOP _ s _ []).
      eapply wrote_same; [|apply wrote_refl].
      now destruct (contains (lit "'ejecting':true") data).
    + intros _. unfold respond.
      destruct (contains (lit "'ejecting':true") data);
        cbn [sink xfer recvBuffer peer set_tcpClient set_ui]; auto.
Qed.

Lemma answered_writes (o : OpCode.t) (s0 s s' : State) :
  tx (tcpClient s) = tx (tcpClient s0) -> answered o s s' -> writes s0 s'.
Proof.
  intros Htx (code & json & (Hw & _) & Hcode & _).
  right. exists code, json. split; [|now rewrite Hw, Htx].
  destruct Hcode as [[-> _]|[[-> _]|[-> _]]]; auto.
Qed.

Lemma receiveBinaryData_writes (s s' : State) :
  receiveBinaryData s = Ok s' -> writes s s'.
Proof.
  unfold receiveBinaryData. intros H.
  destruct (Str.size (rx (tcpClient s)) =? 0).
  { destruct (negb (connected (tcpClient s))).
    - destruct (flushWriteBuffer (sink s)) as [? ?]. injection H as <-. now left.
    - injection H as <-. now left. }
  cbv zeta in H. fields.
  match type of H with
  | context [if 0 <? ?n then _ else _] => destruct (0 <? n)
  end.
  2:{ injection H as <-. now left. }
  match type of H with
  | context [bufferedWrite ?d ?k] => destruct (bufferedWrite d k) as [[ok k']| |]
  end; cbn [bind] in H; try discriminate H.
  fields. destruct ok; cbn [negb] in H; cbv iota in H.
  - match type of H with
    | context [if ?c then _ else _] => destruct c
    end.
    + destruct (flushWriteBuffer k') as [? ?]. injection H as <-.
      right. exists 0, (lit "{}"). split; [now left|]. now rewrite respond_tx.
    + injection H as <-. now left.
  - destruct (flushWriteBuffer k') as [? ?]. injection H as <-. now left.
Qed.

Lemma dispatchMessage_writes (pf : Platform) (message : bytes) (s0 s s' : State) :
  tx (tcpClient s) = tx (tcpClient s0) ->
  dispatchMessage pf message s = Ok s' -> writes s0 s'.
Proof.
  intros Htx H. unfold dispatchMessage in H.
  destruct (Str.find "[" message) as [bracket|];
    [|injection H as <-; now left].
  cbv zeta in H.
  destruct (Str.find_from "," (S bracket) message) as [end_|];
    [|injection H as <-; now left].
  destruct (stoi _) as [opcodeInt| |]; cbn [bind] in H; try discriminate H.
  match type of H with
  | context [if ?c then _ else _] => destruct c
  end.
  - injection H as <-. right. exists 0, (lit "{}").
    split; [now left|]. now rewrite respond_tx, Htx.
  - eapply answered_writes; [exact Htx|].
    eapply handleCommand_reply, H.
Qed.

Lemma handleTcpClient_writes (pf : Platform) (s s' : State) :
  handleTcpClient pf s = Ok s' -> writes s s'.
Proof.
  unfold handleTcpClient. intros H.
  destruct (negb (connected (tcpClient s))); [injection H as <-; now left|].
  destruct (inBinaryMode (xfer s)); [now apply receiveBinaryData_writes|].
  destruct (readJsonMessage _ _) as [[m [rx' buf']]| |]; cbn [bind] in H;
    try discriminate H.
  destruct m as [m|]; [|injection H as <-; now left].
  eapply dispatchMessage_writes; [|exact H]. reflexivity.
Qed.

Lemma listenForDiscovery_writes (a : Air) (s s' : State) :
  listenForDiscovery a s = Ok s' -> tx (tcpClient s') = tx (tcpClient s).
Proof.
  unfold listenForDiscovery. intros H.
  destruct (packet a) as [payload|]; [|now injection H as <-].
  destruct (0 <? Str.size (firstn 255 payload)); [|now injection H as <-].
  destruct (parseReply _ _) as [p| |]; cbn [bind] in H; try discriminate H.
  cbv zeta in H.
  repeat match type of H with
         | context [if ?c then _ else _] => destruct c
         end; now injection H as <-.
Qed.

Lemma networkTaskRound_writes (pf : Platform) (e : Env) (s s' : State) :
  networkTaskRound pf e s = Ok s' -> writes s s'.
Proof.
  unfold networkTaskRound. intros H.
  assert (Henv : tx (tcpClient (environment e s)) = tx (tcpClient s))
    by reflexivity.
  assert (Hw : writes (environment e s) s').
  { cbv zeta in H.
    destruct (state (ui (environment e s)));
      try (now apply (handleTcpClient_writes pf));
      try (injection H as <-; now left).
    left. now apply (listenForDiscovery_writes (air e)). }
  unfold writes in *. now rewrite <- Henv.
Qed.

Lemma handleSendBook_total (pf : Platform) (data : bytes) (s : State) :
  exists s', handleSendBook pf data s = Ok s'.
Proof.
  unfold handleSendBook.
  destruct (Str.empty (extractLpath data) || (extractLength data =? 0));
    [eexists; reflexivity|].
  fields.
  destruct (negb (openOk (card (sink s)))); [eexists; reflexivity|].
  assert (Hfresh : ready (set_writeBuffer []
                            (set_currentWriteFile true
                               (set_currentFile (mkFsFile true []) (sink s)))))
    by (repeat split).
  destruct (negb (Str.empty (recvBuffer s))); [|eexists; reflexivity].
  match goal with
  | |- context [bufferedWrite ?d ?k] =>
      destruct (bufferedWrite_returns d k Hfresh) as (ok & k' & -> & _)
  end.
  cbn [bind]. destruct ok; eexists; reflexivity.
Qed.

Lemma handleCommand_total (pf : Platform) (o : OpCode.t) (data : bytes)
                          (s : State) :
  exists s', handleCommand pf o data s = Ok s'.
Proof.
  destruct o; cbn [handleCommand]; try (eexists; reflexivity).
  apply handleSendBook_total.
Qed.

(** X14: every command is answered exactly once.  Whatever the opcode, the
    payload and the state, [handleCommand] returns, and it has written one
    frame to the socket, no more: the reply [NOOP] (12) to [NOOP], the reply
    [OK] (0) to every other command, except that [SEND_BOOK] may be answered
    [ERROR] (20).  The handlers read nothing from the socket; the
    [flush()] behind the reply leaves what was pending there as it was, or
    throws all of it away when the [flush()] of the library does that.  A
    command other than [SEND_BOOK] leaves the file, the coalescing buffer,
    the transfer counters, [recvBuffer] and what is known of the peer as
    they were. *)
Theorem every_command_answered_once
    (pf : Platform) (o : OpCode.t) (data : bytes) (s : State) :
  exists s' code json,
    handleCommand pf o data s = Ok s'
    /\ tx (tcpClient s') = tx (tcpClient s) ++ [frame (envelope code json)]
    /\ ((code = 12 /\ o = OpCode.NOOP)
        \/ (code = 0 /\ o <> OpCode.NOOP)
        \/ (code = 20 /\ o = OpCode.SEND_BOOK))
    /\ rx (tcpClient s')
       = (if flushClearsRx (tcpClient s) then [] else rx (tcpClient s))
    /\ connected (tcpClient s') = connected (tcpClient s)
    /\ flushClearsRx (tcpClient s') = flushClearsRx (tcpClient s)
    /\ (o <> OpCode.SEND_BOOK ->
        sink s' = sink s /\ xfer s' = xfer s /\ recvBuffer s' = recvBuffer s
        /\ peer s' = peer s).
Proof.
  destruct (handleCommand_total pf o data s) as [s' Hrun].
  destruct (handleCommand_reply pf o data s s' Hrun)
    as (code & json & (Htx & Hrx & Hc & Hf) & Hcode & Hkeep).
  exists s', code, json. auto 10.
Qed.

(** X15: a round of the network worker that returns has written at most one
    frame to the socket, and that frame is a reply with opcode [OK] (0),
    [NOOP] (12) or [ERROR] (20), its length prefix counting exactly the
    bytes of the bracketed text behind it.  A round of discovery and a
    round in a final state ([COMPLETE], [DISCONNECTED], [ERROR]) write
    nothing. *)
Theorem round_writes_at_most_one_frame
    (pf : Platform) (e : Env) (s s' : State) :
  networkTaskRound pf e s = Ok s' ->
  (tx (tcpClient s') = tx (tcpClient s)
   \/ exists code json,
        (code = 0 \/ code = 12 \/ code = 20)
        /\ tx (tcpClient s')
           = tx (tcpClient s)
             ++ [to_string (Str.size (envelope code json)) ++ envelope code json])
  /\ (state (ui s) = WirelessState.DISCOVERING
      \/ state (ui s) = WirelessState.COMPLETE
      \/ state (ui s) = WirelessState.DISCONNECTED
      \/ state (ui s) = WirelessState.ERROR ->
      tx (tcpClient s') = tx (tcpClient s)).
Proof.
  intros Hrun. split; [now apply (networkTaskRound_writes pf e)|].
  intros Hstate. unfold networkTaskRound in Hrun. cbv zeta in Hrun.
  change (state (ui (environment e s))) with (state (ui s)) in Hrun.
  change (tx (tcpClient s)) with (tx (tcpClient (environment e s))).
  destruct Hstate as [H|[H|[H|H]]]; rewrite H in Hrun;
    try (now injection Hrun as <-).
  now apply (listenForDiscovery_writes (air e)).
Qed.

Lemma round_writes_at_most_one_frame_witness :
  (exists s',
      networkTaskRound plainPlatform
        (arrival (frame (lit "[12,{}]") ++ frame (lit "[6,{}]")) goodCard)
        waitingState = Ok s'
      /\ (tx (tcpClient s') = tx (tcpClient waitingState)
          \/ exists code json,
               (code = 0 \/ code = 12 \/ code = 20)
               /\ tx (tcpClient s')
                  = tx (tcpClient waitingState)
                    ++ [to_string (Str.size (envelope code json))
                        ++ envelope code json]))
  /\ (exists s',
         networkTaskRound plainPlatform discovered (onEnter bootState) = Ok s'
         /\ tx (tcpClient s') = tx (tcpClient (onEnter bootState))).
Proof.
  split.
  - destruct (networkTaskRound plainPlatform
                (arrival (frame (lit "[12,{}]") ++ frame (lit "[6,{}]")) goodCard)
                waitingState) as [s'| |] eqn:Hrun.
    + exists s'. split; [reflexivity|].
      exact (proj1 (round_writes_at_most_one_frame _ _ _ _ Hrun)).
    + vm_compute in Hrun. discriminate Hrun.
    + vm_compute in Hrun. discriminate Hrun.
  - destruct (networkTaskRound plainPlatform discovered (onEnter bootState))
      as [s'| |] eqn:Hrun.
    + exists s'. split; [reflexivity|].
      apply (proj2 (round_writes_at_most_one_frame _ _ _ _ Hrun)).
      left. reflexivity.
    + vm_compute in Hrun. discriminate Hrun.
    + vm_compute in Hrun. discriminate Hrun.
Defined.

Lemma handleSendBook_mode (pf : Platform) (data : bytes) (s s' : State) :
  state (ui s) = WirelessState.WAITING -> inBinaryMode (xfer s) = false ->
  handleSendBook pf data s = Ok s' -> mode_inv s'.
Proof.
  intros Hst Hbin H. unfold handleSendBook in H.
  destruct (Str.empty (extractLpath data) || (extractLength data =? 0)).
  { injection H as <-. mode_done. }
  cbv zeta in H. fields.
  destruct (negb (openOk (card (sink s)))).
  { injection H as <-. mode_done. }
  destruct (negb (Str.empty (recvBuffer s))).
  2:{ injection H as <-. mode_done. }
  match type of H with
  | context [bufferedWrite ?d ?k] => destruct (bufferedWrite d k) as [[ok k']| |]
  end; cbn [bind] in H; try discriminate H.
  destruct ok; injection H as <-; mode_done.
Qed.

Lemma handleCommand_mode (pf : Platform) (o : OpCode.t) (data : bytes)
                         (s s' : State) :
  state (ui s) = WirelessState.WAITING -> inBinaryMode (xfer s) = false ->
  handleCommand pf o data s = Ok s' -> mode_inv s'.
Proof.
  intros Hst Hbin H.
  destruct o; cbn [handleCommand] in H;
    try (now apply (handleSendBook_mode pf data s));
    injection H as <-;
    unfold handleGetInitializationInfo, handleGetDeviceInformation,
           handleFreeSpace, handleGetBookCount, handleSendBookMetadata,
           handleDisplayMessage, handleNoop;
    cbv zeta;
    try destruct (contains _ data); mode_done.
Qed.

Lemma receiveBinaryData_mode (s s' : State) :
  mode_inv s -> inBinaryMode (xfer s) = true ->
  state (ui s) = WirelessState.RECEIVING ->
  receiveBinaryData s = Ok s' -> mode_inv s'.
Proof.
  intros Hinv Hbin Hst H. unfold receiveBinaryData in H.
  destruct (Str.size (rx (tcpClient s)) =? 0).
  { destruct (negb (connected (tcpClient s))).
    - destruct (flushWriteBuffer (sink s)) as [? ?]. injection H as <-. mode_done.
    - injection H as <-. exact Hinv. }
  cbv zeta in H. fields.
  match type of H with
  | context [if 0 <? ?n then _ else _] => destruct (0 <? n)
  end.
  2:{ injection H as <-. mode_done. }
  match type of H with
  | context [bufferedWrite ?d ?k] => destruct (bufferedWrite d k) as [[ok k']| |]
  end; cbn [bind] in H; try discriminate H.
  fields. destruct ok; cbn [negb] in H; cbv iota in H.
  - match type of H with
    | context [if ?c then _ else _] => destruct c
    end.
    + destruct (flushWriteBuffer k') as [? ?]. injection H as <-. mode_done.
    + injection H as <-. mode_done.
  - destruct (flushWriteBuffer k') as [? ?]. injection H as <-. mode_done.
Qed.

Lemma handleTcpClient_mode (pf : Platform) (s s' : State) :
  mode_inv s ->
  state (ui s) = WirelessState.WAITING \/ state (ui s) = WirelessState.RECEIVING ->
  handleTcpClient pf s = Ok s' -> mode_inv s'.
Proof.
  intros Hinv Hst H. unfold handleTcpClient in H.
  destruct (negb (connected (tcpClient s))).
  { injection H as <-. mode_done. }
  destruct (inBinaryMode (xfer s)) eqn:Hbin.
  { apply (receiveBinaryData_mode s s' Hinv Hbin); [|exact H].
    destruct Hinv as (_ & _ & _ & Hb). destruct (Hb Hbin), Hst; congruence. }
  assert (Hw : state (ui s) = WirelessState.WAITING).
  { destruct Hst as [?|Hr]; [assumption|].
    destruct Hinv as (_ & _ & Hb & _). specialize (Hb Hr). congruence. }
  destruct (readJsonMessage _ _) as [[m [rx' buf']]| |]; cbn [bind] in H;
    try discriminate H.
  destruct m as [m|]; [|injection H as <-; mode_done].
  unfold dispatchMessage in H.
  destruct (Str.find "[" m) as [bracket|]; [|injection H as <-; mode_done].
  cbv zeta in H.
  destruct (Str.find_from "," (S bracket) m) as [end_|];
    [|injection H as <-; mode_done].
  destruct (stoi _) as [opcodeInt| |]; cbn [bind] in H; try discriminate H.
  match type of H with
  | context [if ?c then _ else _] => destruct c
  end.
  - injection H as <-. mode_done.
  - eapply handleCommand_mode; [| |exact H]; assumption.
Qed.

Lemma listenForDiscovery_mode (a : Air) (s s' : State) :
  mode_inv s -> state (ui s) = WirelessState.DISCOVERING ->
  listenForDiscovery a s = Ok s' -> mode_inv s'.
Proof.
  intros Hinv Hst H. unfold listenForDiscovery in H.
  assert (Hbin : inBinaryMode (xfer s) = false).
  { destruct Hinv as (_ & _ & _ & Hb).
    destruct (inBinaryMode (xfer s)); [|reflexivity].
    destruct (Hb eq_refl); congruence. }
  destruct (packet a) as [payload|]; [|now injection H as <-].
  destruct (0 <? Str.size (firstn 255 payload)); [|now injection H as <-].
  destruct (parseReply _ _) as [p| |]; cbn [bind] in H; try discriminate H.
  cbv zeta in H.
  repeat match type of H with
         | context [if ?c then _ else _] => destruct c
         end; injection H as <-; mode_done.
Qed.

Lemma networkTaskRound_mode (pf : Platform) (e : Env) (s s' : State) :
  mode_inv s -> networkTaskRound pf e s = Ok s' -> mode_inv s'.
Proof.
  intros Hinv H. unfold networkTaskRound in H. cbv zeta in H.
  assert (Henv : mode_inv (environment e s)) by exact Hinv.
  destruct (state (ui (environment e s))) eqn:Hst.
  - now apply (listenForDiscovery_mode (air e) (environment e s)).
  - destruct Henv as (_ & Hc & _). congruence.
  - apply (handleTcpClient_mode pf (environment e s)); auto.
  - apply (handleTcpClient_mode pf (environment e s)); auto.
  - now injection H as <-.
  - now injection H as <-.
  - now injection H as <-.
Qed.

Lemma reachable_mode_inv (pf : Platform) (s : State) :
  reachable pf s -> mode_inv s.
Proof.
  induction 1 as [s0|e s s' Hreach IH Hround].
  - unfold mode_inv. cbn. repeat split; intros; discriminate.
  - now apply (networkTaskRound_mode pf e s).
Qed.

(** X16: the state the display reads, between two rounds of the network
    worker.  It is never [COMPLETE] (no code path sets it) and never
    [CONNECTING] (a round that sets it leaves it before it ends); it is
    [RECEIVING] only while the binary transfer is on; and while the binary
    transfer is on it is [RECEIVING], or [DISCONNECTED] when the peer went
    away during the transfer. *)
Theorem state_matches_transfer_mode (pf : Platform) (s : State) :
  reachable pf s ->
  state (ui s) <> WirelessState.COMPLETE
  /\ state (ui s) <> WirelessState.CONNECTING
  /\ (state (ui s) = WirelessState.RECEIVING -> inBinaryMode (xfer s) = true)
  /\ (inBinaryMode (xfer s) = true ->
      state (ui s) = WirelessState.RECEIVING
      \/ state (ui s) = WirelessState.DISCONNECTED).
Proof. apply reachable_mode_inv. Qed.

Lemma state_matches_transfer_mode_witness :
  state (ui midTransferState) = WirelessState.RECEIVING
  /\ inBinaryMode (xfer midTransferState) = true.
Proof.
  destruct (state_matches_transfer_mode plainPlatform midTransferState
              midTransferState_reachable) as (_ & _ & Hrecv & _).
  split; [reflexivity|]. apply Hrecv. reflexivity.
Defined.

(** ** [onExit] twice *)

Lemma flushWriteBufferT_calls (k : Sink) (e : Effect) :
  In e (fst (flushWriteBufferT k)) -> exists requested returned,
    e = FileWrite requested returned.
Proof.
  unfold flushWriteBufferT. cbn [fst].
  destruct ((0 <? writeBufferPos k) && currentWriteFile k
            && isOpen (currentFile k)); [|intros []].
  intros [<-|[]]. eauto.
Qed.

(** X17: what [onExit] leaves, whatever state the activity is in and
    whatever the scheduler answers.  The socket is closed, the file is
    closed and the write pointer cleared, both task handles and both mutex
    members are null and [shouldStop] is set.  The network task is deleted
    by force exactly when its handle was set and it had not deleted itself.
    The display task is deleted by force exactly when its handle was set,
    it had not deleted itself and the rendering mutex was obtained: when
    the mutex is not obtained the task is not deleted, and its handle is
    cleared and the mutexes are deleted all the same, each mutex that
    exists being deleted once.  A second [onExit] from there changes
    nothing and makes only the unconditional calls: no socket stop, no
    write, no flush or close of the file, no task or semaphore deletion. *)
Theorem onExit_teardown_outcome
    (sch sch' : Scheduler) (s : State) (t : Tasks) :
  let calls := fst (onExit sch s t) in
  let s' := fst (snd (onExit sch s t)) in
  let t' := snd (snd (onExit sch s t)) in
  connected (tcpClient s') = false
  /\ isOpen (currentFile (sink s')) = false
  /\ currentWriteFile (sink s') = false
  /\ t' = mkTasks true false false false false
  /\ (In (TaskDelete NetworkTask) calls
      <-> networkTaskHandle t = true /\ networkTaskDeleted sch = false)
  /\ (In (TaskDelete DisplayTask) calls
      <-> displayTaskHandle t = true /\ displayTaskDeleted sch = false
          /\ renderingMutexTaken sch = true)
  /\ Z.of_nat (length (filter isSemaphoreDelete calls))
     = (if renderingMutex t then 1 else 0) + (if stateMutex t then 1 else 0)
  /\ snd (onExit sch' s' t') = (s', t')
  /\ fst (onExit sch' s' t')
     = [SetShouldStop; UdpStop; TaskDelay 200; TaskDelay 50; WifiDisconnect;
        TaskDelay 30; WifiModeOff; TaskDelay 30].
Proof.
  assert (Hidle : forall (wb wr : bytes) (cd : SdCard) (u : Ui) (p : Peer)
                         (x : Xfer) (rb rx0 : bytes) (tx0 : list bytes)
                         (fl0 : bool),
            let s1 := mkState (mkSink wb false (mkFsFile false wr) cd) u p x rb
                              (mkTcp rx0 false tx0 fl0) in
            let t1 := mkTasks true false false false false in
            onExit sch' s1 t1
            = ([SetShouldStop; UdpStop; TaskDelay 200; TaskDelay 50;
                WifiDisconnect; TaskDelay 30; WifiModeOff; TaskDelay 30],
               (s1, t1))).
  { intros. unfold onExit, flushWriteBufferT, flushWriteBuffer. subst s1 t1.
    cbn [tcpClient connected sink currentWriteFile currentFile isOpen
         writeBufferPos writeBuffer].
    rewrite andb_false_r. reflexivity. }
  assert (Hfirst : exists wb wr cd u p x rb rx0 tx0 fl0,
            snd (onExit sch s t)
            = (mkState (mkSink wb false (mkFsFile false wr) cd) u p x rb
                       (mkTcp rx0 false tx0 fl0),
               mkTasks true false false false false)).
  { destruct s as [k u p x rb [rx0 c0 tx0 fl0]].
    unfold onExit, flushWriteBufferT.
    destruct c0;
      cbn [tcpClient connected rx tx flushClearsRx set_tcpClient sink ui peer
           xfer recvBuffer];
      destruct (flushWriteBuffer k) as [ok [wb cwf [op wr] cd]];
      destruct op; cbn; do 10 eexists; reflexivity. }
  assert (Hcalls : exists e2 e4,
            fst (onExit sch s t)
            = [SetShouldStop; UdpStop] ++ e2
              ++ fst (flushWriteBufferT
                        (sink (if connected (tcpClient s)
                               then set_tcpClient
                                      (mkTcp (rx (tcpClient s)) false
                                             (tx (tcpClient s))
                                             (flushClearsRx (tcpClient s))) s
                               else s)))
              ++ e4 ++ [TaskDelay 200]
              ++ (if networkTaskHandle t && negb (networkTaskDeleted sch)
                  then [TaskDelete NetworkTask] else [])
              ++ [TaskDelay 50; WifiDisconnect; TaskDelay 30; WifiModeOff;
                  TaskDelay 30]
              ++ (if displayTaskHandle t && negb (displayTaskDeleted sch)
                  then if renderingMutexTaken sch
                       then [SemaphoreTake true; TaskDelete DisplayTask;
                             SemaphoreGive]
                       else [SemaphoreTake false]
                  else [])
              ++ (if renderingMutex t then [SemaphoreDelete] else [])
              ++ (if stateMutex t then [SemaphoreDelete] else [])
            /\ (e2 = [] \/ e2 = [TcpStop])
            /\ (e4 = [] \/ e4 = [FileFlush; FileClose])).
  { unfold onExit.
    destruct (connected (tcpClient s));
      match goal with
      | |- context [flushWriteBufferT ?k] =>
          destruct (flushWriteBufferT k) as [e3 [ok k3]]
      end;
      cbn [fst snd set_currentWriteFile currentFile];
      destruct (isOpen (currentFile k3)); cbn [fst];
      do 2 eexists; (split; [reflexivity|]); auto. }
  destruct Hfirst as (wb & wr & cd & u & p & x & rb & rx0 & tx0 & fl0 & Hfirst).
  destruct Hcalls as (e2 & e4 & Hcalls & He2 & He4).
  intros calls s' t'. subst calls s' t'. rewrite Hfirst. cbn [fst snd].
  rewrite Hidle. rewrite Hcalls.
  match goal with
  | |- context [flushWriteBufferT ?k] =>
      pose proof (flushWriteBufferT_calls k) as He3;
      set (e3 := fst (flushWriteBufferT k)) in *
  end.
  assert (Hno3 : forall e, (forall a b, e <> FileWrite a b) -> ~ In e e3).
  { intros e Hne Hin. destruct (He3 e Hin) as (a & b & ->). now apply (Hne a b). }
  assert (Hfilter3 : filter isSemaphoreDelete e3 = []).
  { clear -He3. induction e3 as [|e r IH]; [reflexivity|].
    cbn [filter]. destruct (He3 e (or_introl eq_refl)) as (a & b & ->).
    cbn [isSemaphoreDelete]. apply IH. intros e' Hin. apply He3. now right. }
  split; [reflexivity|]. split; [reflexivity|]. split; [reflexivity|].
  split; [reflexivity|].
  split; [|split; [|split; [|split; reflexivity]]].
  - rewrite !in_app_iff. split.
    + intros [H|[H|[H|[H|[H|[H|[H|[H|[H|H]]]]]]]]].
      * cbn in H. intuition discriminate.
      * destruct He2 as [->| ->]; cbn in H; intuition discriminate.
      * exfalso. revert H. apply Hno3. discriminate.
      * destruct He4 as [->| ->]; cbn in H; intuition discriminate.
      * cbn in H. intuition discriminate.
      * destruct (networkTaskHandle t), (networkTaskDeleted sch); cbn in H;
          intuition discriminate.
      * cbn in H. intuition discriminate.
      * destruct (displayTaskHandle t && negb (displayTaskDeleted sch)),
                 (renderingMutexTaken sch); cbn in H; intuition discriminate.
      * destruct (renderingMutex t); cbn in H; intuition discriminate.
      * destruct (stateMutex t); cbn in H; intuition discriminate.
    + intros [-> ->]. do 5 right. left. cbn. auto.
  - rewrite !in_app_iff. split.
    + intros [H|[H|[H|[H|[H|[H|[H|[H|[H|H]]]]]]]]].
      * cbn in H. intuition discriminate.
      * destruct He2 as [->| ->]; cbn in H; intuition discriminate.
      * exfalso. revert H. apply Hno3. discriminate.
      * destruct He4 as [->| ->]; cbn in H; intuition discriminate.
      * cbn in H. intuition discriminate.
      * destruct (networkTaskHandle t && negb (networkTaskDeleted sch));
          cbn in H; intuition discriminate.
      * cbn in H. intuition discriminate.
      * destruct (displayTaskHandle t), (displayTaskDeleted sch),
                 (renderingMutexTaken sch); cbn in H; intuition discriminate.
      * destruct (renderingMutex t); cbn in H; intuition discriminate.
      * destruct (stateMutex t); cbn in H; intuition discriminate.
    + intros (-> & -> & ->). do 7 right. left. cbn. auto.
  - rewrite !filter_app, Hfilter3.
    destruct He2 as [->| ->], He4 as [->| ->];
      destruct (networkTaskHandle t && negb (networkTaskDeleted sch)),
               (displayTaskHandle t && negb (displayTaskDeleted sch)),
               (renderingMutexTaken sch), (renderingMutex t), (stateMutex t);
      reflexivity.
Qed.

(** ** The display *)

Lemma drawLines_app (y : Z) (a b : list bytes) :
  drawLines y (a ++ b) = drawLines y a ++ drawLines (y + 25 * Z.of_nat (length a)) b.
Proof.
  revert y. induction a as [|t a IH]; intros y.
  - cbn. now replace (y + 0) with y by lia.
  - cbn [app drawLines length]. rewrite IH. f_equal. f_equal. f_equal. lia.
Qed.

Lemma find_nl_split (status : bytes) (pos : nat) :
  Str.find nl status = Some pos ->
  status = Str.substr 0 pos status ++ nl :: Str.substr_from (pos + 1) status
  /\ ~ In nl (Str.substr 0 pos status)
  /\ (length (Str.substr_from (pos + 1) status) < length status)%nat.
Proof.
  intros H. apply find_some in H as (pre & post & -> & <- & Hno).
  unfold Str.substr, Str.substr_from. cbn [skipn].
  rewrite firstn_app_exact.
  replace (length pre + 1)%nat with (length (pre ++ [nl]))
    by (rewrite length_app; reflexivity).
  replace (pre ++ nl :: post) with ((pre ++ [nl]) ++ post)
    by (now rewrite <- app_assoc).
  rewrite skipn_app_exact. repeat split; auto.
  - now rewrite <- app_assoc.
  - rewrite !length_app. simpl. lia.
Qed.

(** The loop ends, having drawn the lines that end with a newline. *)
Lemma statusLoop_lines (rounds : nat) :
  forall (status : bytes) (y : Z),
    (length status < rounds)%nat ->
    exists texts last,
      statusLoop rounds status y
      = Ok (drawLines y (map cstr texts),
            (last, y + 25 * Z.of_nat (length texts)))
      /\ status = concat (map (fun t => t ++ [nl]) texts) ++ last
      /\ Forall (fun t => ~ In nl t) texts
      /\ ~ In nl last.
Proof.
  induction rounds as [|rounds IH]; intros status y Hlen; [lia|].
  cbn [statusLoop].
  destruct (Str.find nl status) as [pos|] eqn:Hfind.
  - destruct (find_nl_split status pos Hfind) as (Hsplit & Hno & Hshort).
    set (line := Str.substr 0 pos status) in *.
    set (tail := Str.substr_from (pos + 1) status) in *.
    destruct (IH tail (y + 25) ltac:(lia))
      as (texts & last & Hrun & Heq & Hall & Hlast).
    rewrite Hrun. cbn [bind].
    exists (line :: texts), last.
    repeat split; auto.
    + cbn [drawLines length map]. do 3 f_equal. lia.
    + cbn [map concat]. rewrite <- !app_assoc. cbn [app].
      rewrite <- Heq. exact Hsplit.
  - exists [], status. repeat split; auto.
    + cbn. do 3 f_equal. lia.
    + now apply find_none.
Qed.

Lemma map_cstr_id (texts : list bytes) :
  ~ In zero (concat texts) -> map cstr texts = texts.
Proof.
  induction texts as [|t ts IH]; intros H; [reflexivity|].
  cbn [map concat] in *. rewrite cstr_id, IH; auto.
  - intros Hin. apply H. apply in_or_app. now right.
  - intros Hin. apply H. apply in_or_app. now left.
Qed.

(** [render] as a whole: the lines of the status, then the rest. *)
Lemma render_lines (sc : Screen) (s : State) :
  exists texts,
    render sc s
    = Ok (renderHeader sc
          ++ drawLines (Z.quot (pageHeight sc) 2 - 40) (map cstr texts)
          ++ renderProgress sc (Z.quot (pageHeight sc) 2 - 40
                                + 25 * Z.of_nat (length texts)) s
          ++ renderError sc s
          ++ [DrawButtonHints UI_10_FONT_ID; DisplayBuffer])
    /\ Forall (fun t => ~ In nl t) texts
    /\ (concat (map (fun t => t ++ [nl]) texts) = statusMessage (ui s)
        \/ concat (map (fun t => t ++ [nl]) texts) = statusMessage (ui s) ++ [nl]).
Proof.
  unfold render. cbv zeta.
  destruct (statusLoop_lines (S (length (statusMessage (ui s))))
              (statusMessage (ui s)) (Z.quot (pageHeight sc) 2 - 40) ltac:(lia))
    as (texts & last & Hrun & Heq & Hall & Hlast).
  rewrite Hrun. cbn [bind].
  destruct last as [|c r].
  - exists texts. cbn [Str.empty negb app]. split; [reflexivity|].
    split; [exact Hall|]. left. now rewrite Heq, app_nil_r.
  - exists (texts ++ [c :: r]). cbn [Str.empty negb].
    rewrite map_app, drawLines_app, length_app, length_map. cbn [map drawLines length].
    split.
    + rewrite <- !app_assoc. cbn [app].
      do 4 f_equal. do 2 f_equal. lia.
    + split.
      * apply Forall_app. split; [exact Hall|]. now constructor.
      * right. rewrite map_app, concat_app, Heq. cbn [map concat].
        now rewrite app_nil_r, app_assoc.
Qed.

Lemma zero_in_lines (texts : list bytes) :
  In zero (concat texts) -> In zero (concat (map (fun t => t ++ [nl]) texts)).
Proof.
  induction texts as [|t ts IH]; [auto|].
  cbn [concat map]. intros Hin. apply in_app_or in Hin as [Hin|Hin].
  - apply in_or_app. left. apply in_or_app. now left.
  - apply in_or_app. right. auto.
Qed.

(** X18: what [render] draws of the status message.  [render] returns for
    every state (the loop over the lines ends), and between the address line
    and the progress bar it draws the lines of [statusMessage], in order,
    from [pageHeight / 2 - 40] down in steps of 25: no line drawn holds a
    newline, and the lines, each followed by a newline, give the message
    back (with a newline added when the message does not end with one), so
    an empty line between two newlines is drawn as an empty line and text
    after the last newline is drawn.  Each line is drawn up to its first NUL
    character, that is in full when the message holds none. *)
Theorem render_draws_status_lines (sc : Screen) (s : State) :
  exists texts,
    render sc s
    = Ok (renderHeader sc
          ++ drawLines (Z.quot (pageHeight sc) 2 - 40) (map cstr texts)
          ++ renderProgress sc (Z.quot (pageHeight sc) 2 - 40
                                + 25 * Z.of_nat (length texts)) s
          ++ renderError sc s
          ++ [DrawButtonHints UI_10_FONT_ID; DisplayBuffer])
    /\ Forall (fun t => ~ In nl t) texts
    /\ (concat (map (fun t => t ++ [nl]) texts) = statusMessage (ui s)
        \/ concat (map (fun t => t ++ [nl]) texts) = statusMessage (ui s) ++ [nl])
    /\ (~ In zero (statusMessage (ui s)) -> map cstr texts = texts).
Proof.
  destruct (render_lines sc s) as (texts & Hrun & Hall & Hjoin).
  exists texts. repeat split; auto.
  intros Hnul. apply map_cstr_id. intros Hin. apply zero_in_lines in Hin.
  destruct Hjoin as [Hj|Hj]; rewrite Hj in Hin; [auto|].
  apply in_app_or in Hin as [Hin|[Hin|[]]]; [auto|discriminate Hin].
Qed.

Lemma reachable_progress_inv (pf : Platform) (s : State) :
  reachable pf s -> progress_inv (xfer s).
Proof.
  induction 1 as [s0|e s s' Hreach IH Hround].
  - unfold progress_inv, UINT32_MAX. simpl. repeat split; try lia; discriminate.
  - unfold networkTaskRound in Hround.
    assert (Henv : xfer (environment e s) = xfer s) by reflexivity.
    rewrite <- Henv in IH.
    destruct (state (ui (environment e s)));
      try (eapply handleTcpClient_progress; eassumption);
      try (injection Hround as <-; exact IH).
    apply listenForDiscovery_xfer in Hround. now rewrite Hround.
Qed.

Lemma drawLines_text (y : Z) (texts : list bytes) (d : Draw) :
  In d (drawLines y texts) ->
  exists y' t, d = DrawCenteredText UI_10_FONT_ID y' t false.
Proof.
  revert y. induction texts as [|t ts IH]; intros y Hin; [destruct Hin|].
  destruct Hin as [<-|Hin]; [eauto|]. eapply IH, Hin.
Qed.

(** X19: the progress bar never overflows.  In every state the network
    worker can reach, [render] returns, and when it draws the progress bar
    the file is being received, the bar is 50 pixels from the left edge, 20
    high and [pageWidth - 100] wide, and the position handed to it is
    between 0 and the total, the total being the declared length of the
    file and not 0. *)
Theorem render_progress_within_total (pf : Platform) (sc : Screen) (s : State) :
  reachable pf s ->
  exists calls,
    render sc s = Ok calls
    /\ forall x y width height current total,
         In (DrawProgressBar x y width height current total) calls ->
         0 <= current <= total /\ 0 < total <= UINT32_MAX
         /\ total = currentFileSize (xfer s)
         /\ inBinaryMode (xfer s) = true
         /\ x = 50 /\ width = pageWidth sc - 100 /\ height = 20.
Proof.
  intros Hreach.
  destruct (reachable_progress_inv pf s Hreach) as (Hrange & Hmax & _).
  destruct (reachable_mode_inv pf s Hreach) as (_ & _ & Hrecv & _).
  destruct (render_lines sc s) as (texts & Hrun & _).
  eexists. split; [exact Hrun|].
  intros x y w h cur total Hin.
  unfold renderHeader in Hin.
  apply in_app_or in Hin as [Hin|Hin].
  { destruct Hin as [Hin|[Hin|[Hin|[]]]]; discriminate Hin. }
  apply in_app_or in Hin as [Hin|Hin].
  { apply drawLines_text in Hin as (? & ? & Hin). discriminate Hin. }
  apply in_app_or in Hin as [Hin|Hin].
  2:{ apply in_app_or in Hin as [Hin|Hin].
      - unfold renderError in Hin.
        destruct (negb (Str.empty (errorMessage (ui s))));
          [destruct Hin as [Hin|[]]; discriminate Hin|destruct Hin].
      - destruct Hin as [Hin|[Hin|[]]]; discriminate Hin. }
  unfold renderProgress in Hin.
  destruct (state (ui s)) eqn:Hst; try destruct Hin.
  destruct (0 <? currentFileSize (xfer s)) eqn:Hpos; [|destruct Hin].
  apply Z.ltb_lt in Hpos.
  destruct Hin as [Hin|[]]. injection Hin as <- <- <- <- <- <-.
  repeat split; auto; lia.
Qed.

Lemma render_progress_within_total_witness :
  render (mkScreen 480 800 (lit "192.168.1.7")) midTransferState
  = Ok [ClearScreen;
        DrawCenteredText UI_12_FONT_ID 30 (lit "Calibre Wireless") true;
        DrawCenteredText UI_10_FONT_ID 60 (lit "IP: 192.168.1.7") false;
        DrawCenteredText UI_10_FONT_ID 360 (lit "Receiving: b.epub") false;
        DrawProgressBar 50 405 380 20 3 5;
        DrawButtonHints UI_10_FONT_ID;
        DisplayBuffer]
  /\ 0 <= 3 <= 5.
Proof.
  destruct (render_progress_within_total plainPlatform
              (mkScreen 480 800 (lit "192.168.1.7")) midTransferState
              midTransferState_reachable) as (calls & Hrun & Hbar).
  assert (Hcalls : render (mkScreen 480 800 (lit "192.168.1.7")) midTransferState
                   = Ok [ClearScreen;
        DrawCenteredText UI_12_FONT_ID 30 (lit "Calibre Wireless") true;
        DrawCenteredText UI_10_FONT_ID 60 (lit "IP: 192.168.1.7") false;
        DrawCenteredText UI_10_FONT_ID 360 (lit "Receiving: b.epub") false;
        DrawProgressBar 50 405 380 20 3 5;
        DrawButtonHints UI_10_FONT_ID;
        DisplayBuffer]) by (vm_compute; reflexivity).
  split; [exact Hcalls|].
  rewrite Hcalls in Hrun. injection Hrun as <-.
  apply (Hbar 50 405 380 20 3 5). simpl. tauto.
Defined.

(** ** Whole blocks *)

(** Every write the loop makes is a full buffer. *)
Lemma bufferedWrite_loop_blocks (rounds : nat) :
  forall (data : bytes) (k : Sink) (ok : bool) (k' : Sink),
    ready k -> writeScript (card k) = [] ->
    bufferedWrite_loop rounds data k = Ok (ok, k') ->
    exists q, 0 <= q
      /\ Str.size (written (currentFile k'))
         = Str.size (written (currentFile k)) + WRITE_BUFFER_SIZE * q.
Proof.
  induction rounds as [|rounds IH]; intros data k ok k' Hready Hscript Hrun;
    [discriminate Hrun|].
  destruct Hready as (Hptr & Hopen & Hroom).
  cbn [bufferedWrite_loop] in Hrun.
  destruct (0 <? Str.size data) eqn:Hdata.
  2:{ injection Hrun as <- <-. exists 0. lia. }
  apply Z.ltb_lt in Hdata.
  pose proof (size_nonneg (writeBuffer k)) as Hpos0.
  unfold writeBufferPos, WRITE_BUFFER_SIZE in *.
  set (toCopy := Z.to_nat (Z.min (4096 - Str.size (writeBuffer k)) (Str.size data))) in *.
  assert (HtoCopy : (0 < toCopy <= length data)%nat)
    by (unfold toCopy, Str.size in *; lia).
  assert (Htaken : Str.size (firstn toCopy data) = Z.of_nat toCopy)
    by (unfold Str.size; rewrite length_firstn; lia).
  cbn [set_writeBuffer writeBuffer] in Hrun.
  rewrite size_app, Htaken in Hrun.
  destruct (4096 <=? Str.size (writeBuffer k) + Z.of_nat toCopy) eqn:Hfull.
  - apply Z.leb_le in Hfull.
    assert (Hexact : Str.size (writeBuffer k) + Z.of_nat toCopy = 4096)
      by (unfold toCopy in *; lia).
    destruct (flushWriteBuffer_ready
                (set_writeBuffer (writeBuffer k ++ firstn toCopy data) k))
      as (ok2 & k2 & Hflush & Hptr2 & Hopen2 & Hwb2 & Hgood); auto.
    { unfold writeBufferPos. cbn [set_writeBuffer writeBuffer].
      rewrite size_app, Htaken. lia. }
    rewrite Hflush in Hrun.
    destruct (Hgood Hscript) as (-> & Hcard & Hwritten).
    cbn [set_writeBuffer card currentFile writeBuffer] in Hcard, Hwritten.
    destruct (IH (skipn toCopy data) k2 ok k') as (q & Hq & Hsize); auto.
    { repeat split; auto. unfold writeBufferPos. rewrite Hwb2. reflexivity. }
    { now rewrite Hcard. }
    exists (q + 1). split; [lia|].
    rewrite Hsize, Hwritten, !size_app, Htaken. lia.
  - apply Z.leb_gt in Hfull.
    destruct (IH (skipn toCopy data)
                 (set_writeBuffer (writeBuffer k ++ firstn toCopy data) k) ok k')
      as (q & Hq & Hsize); auto.
    { repeat split; auto. unfold writeBufferPos. cbn [set_writeBuffer writeBuffer].
      rewrite size_app, Htaken. exact Hfull. }
    exists q. split; [exact Hq|]. exact Hsize.
Qed.

(** X20: the coalescing buffer writes whole blocks only.  With a transfer
    on (the write pointer set, the file open, fewer than 4096 bytes
    buffered) and a card that takes every write in full, [bufferedWrite]
    returns true; with [n] the bytes buffered before plus the bytes handed
    in, the file has grown by the first [4096 * (n / 4096)] of them, a whole
    number of 4096-byte blocks, in order, and the remaining [n mod 4096]
    stay in the buffer. *)
Theorem bufferedWrite_whole_blocks (data : bytes) (k : Sink) :
  ready k -> writeScript (card k) = [] ->
  let pending := writeBuffer k ++ data in
  let blocks := Z.to_nat (WRITE_BUFFER_SIZE * (Str.size pending / WRITE_BUFFER_SIZE)) in
  exists k',
    bufferedWrite data k = Ok (true, k')
    /\ written (currentFile k') = written (currentFile k) ++ firstn blocks pending
    /\ writeBuffer k' = skipn blocks pending
    /\ writeBufferPos k' = Str.size pending mod WRITE_BUFFER_SIZE
    /\ card k' = card k.
Proof.
  intros Hready Hscript pending blocks.
  destruct (bufferedWrite_returns data k Hready)
    as (ok & k' & Hrun & Hready' & Hgood).
  destruct (Hgood Hscript) as (-> & Hcard & Hall).
  destruct (bufferedWrite_loop_blocks _ data k true k' Hready Hscript Hrun)
    as (q & Hq & Hsize).
  exists k'. split; [exact Hrun|].
  destruct Hready' as (_ & _ & Hroom).
  unfold writeBufferPos, WRITE_BUFFER_SIZE in *.
  fold pending in Hall.
  pose proof (size_nonneg (writeBuffer k')) as Hwb.
  apply app_eq_app in Hall as [l [[Hw Hp]|[Hw Hp]]].
  2:{ (* the file cannot have shrunk *)
      assert (l = []) as ->.
      { apply size_nil_iff. rewrite Hw, size_app in Hsize.
        pose proof (size_nonneg l). lia. }
      rewrite app_nil_r in Hw. cbn [app] in Hp.
      assert (Hq0 : q = 0) by (rewrite Hw in Hsize; lia).
      assert (Hdiv : Str.size pending / 4096 = 0)
        by (apply Z.div_small; rewrite <- Hp; lia).
      unfold blocks. rewrite Hdiv. cbn [Z.mul Z.to_nat firstn skipn].
      rewrite app_nil_r, Z.mod_small by (rewrite <- Hp; lia).
      rewrite Hp. auto. }
  assert (Hl : Str.size l = 4096 * q).
  { rewrite Hw, size_app in Hsize. lia. }
  assert (Htotal : Str.size pending = 4096 * q + Str.size (writeBuffer k')).
  { rewrite Hp, size_app. lia. }
  assert (Hdiv : Str.size pending / 4096 = q).
  { symmetry. apply (Z.div_unique _ _ _ (Str.size (writeBuffer k'))); lia. }
  assert (Hmod : Str.size pending mod 4096 = Str.size (writeBuffer k')).
  { symmetry. apply (Z.mod_unique _ _ q); lia. }
  assert (Hblocks : blocks = length l).
  { unfold blocks. rewrite Hdiv, <- Hl. unfold Str.size. lia. }
  rewrite Hmod, Hblocks, Hp, firstn_app_exact, skipn_app_exact. auto.
Qed.

Lemma bufferedWrite_whole_blocks_witness :
  exists k',
    bufferedWrite (repeat "x"%char 5000)
                  (mkSink (lit "abc") true (mkFsFile true []) goodCard)
    = Ok (true, k')
    /\ Str.size (written (currentFile k')) = 4096
    /\ writeBufferPos k' = 907.
Proof.
  destruct (bufferedWrite_whole_blocks (repeat "x"%char 5000)
              (mkSink (lit "abc") true (mkFsFile true []) goodCard))
    as (k' & Hrun & Hw & _ & Hpos & _).
  - repeat split.
  - reflexivity.
  - exists k'. split; [exact Hrun|]. split.
    + rewrite Hw. vm_compute. reflexivity.
    + rewrite Hpos. vm_compute. reflexivity.
Defined.

(** ** The command behind a file *)

(** X21: the command behind a file.  When the last bytes of a file arrive
    with the frame of the next command behind them in the same read, the
    binary receiver takes exactly the bytes still expected and the transfer
    completes with those bytes as the end of the file.  What becomes of the
    frame is decided by the [flush()] behind the acknowledgement.  When the
    [flush()] of the library leaves pending input alone, the frame stays
    on the socket, and the next round of the worker reads it and dispatches
    the command it holds.  When it throws pending input away, the frame is
    gone: the rounds that follow, as long as nothing else arrives, read
    nothing and write nothing, and the command is never answered. *)
Theorem command_behind_file_and_flush
    (pf : Platform) (stored fileTail body rest : bytes) (s : State) :
  receiving stored (Str.size fileTail) s ->
  0 < Str.size fileTail <= 4096 ->
  rx (tcpClient s) = [] ->
  framable body ->
  exists s1,
    networkTaskRound pf (feed (fileTail ++ frame body ++ rest)) s = Ok s1
    /\ completed (tx (tcpClient s)) (stored ++ fileTail) s1
    /\ (flushClearsRx (tcpClient s) = false ->
        rx (tcpClient s1) = frame body ++ rest
        /\ networkTaskRound pf (feed []) s1
           = dispatchMessage pf body (afterRead goodCard rest s1))
    /\ (flushClearsRx (tcpClient s) = true ->
        rx (tcpClient s1) = []
        /\ forall n, exists s2,
             networkTaskRounds pf (repeat (feed []) n) s1 = Ok s2
             /\ tx (tcpClient s2) = tx (tcpClient s1)
             /\ rx (tcpClient s2) = [] /\ recvBuffer s2 = []).
Proof.
  intros Hrecv Hsize Hrx Hf.
  set (chunk := fileTail ++ frame body ++ rest).
  destruct (receiving_environment stored chunk (Str.size fileTail) s Hrecv)
    as (Hrecv' & Hscript & Hrx' & Htx').
  rewrite Hrx in Hrx'. cbn [app] in Hrx'.
  rewrite (receiving_round pf stored chunk (Str.size fileTail) s Hrecv).
  destruct (receiveBinaryData_step stored (Str.size fileTail)
              (environment (feed chunk) s) Hrecv' (proj1 Hsize) Hscript)
    as (_ & Hstep).
  rewrite Hrx' in Hstep.
  assert (Hn : Z.to_nat (Z.min 4096 (Str.size fileTail)) = length fileTail)
    by (unfold Str.size in *; lia).
  rewrite Hn in Hstep. subst chunk.
  rewrite firstn_app_exact, skipn_app_exact in Hstep.
  destruct Hstep as (s1 & Hrun & _ & Hlast).
  { destruct fileTail; [unfold Str.size in Hsize; simpl in Hsize; lia|discriminate]. }
  destruct (Hlast eq_refl) as [Hdone Hrx1]. rewrite Htx' in Hdone.
  change (flushed (tcpClient (environment (feed (fileTail ++ frame body ++ rest)) s))
                  (frame body ++ rest))
    with (if flushClearsRx (tcpClient s) then [] else frame body ++ rest)
    in Hrx1.
  exists s1. split; [exact Hrun|]. split; [exact Hdone|]. split.
  - intros Hkeep. rewrite Hkeep in Hrx1. split; [exact Hrx1|].
    destruct Hdone as (Hbin & Hst & Hc & Hbuf & _).
    unfold feed. rewrite waiting_round by assumption.
    rewrite Hbuf, Hrx1, app_nil_r.
    rewrite readJsonMessage_under_cap by (unfold RECV_BUFFER_CAP; cbn; lia).
    cbn [app]. rewrite extractMessage_whole by exact Hf. reflexivity.
  - intros Hdrop. rewrite Hdrop in Hrx1. split; [exact Hrx1|].
    intros n.
    destruct (completed_idle pf (tx (tcpClient s)) (stored ++ fileTail)
                (repeat [] n) s1 Hdone Hrx1) as (s2 & Hrounds & Hdone2 & Hrx2).
    { clear. induction n as [|n IH]; [reflexivity|exact IH]. }
    rewrite map_repeat in Hrounds.
    exists s2. split; [exact Hrounds|].
    destruct Hdone as (_ & _ & _ & _ & _ & _ & _ & _ & _ & Htx1).
    destruct Hdone2 as (_ & _ & _ & Hbuf2 & _ & _ & _ & _ & _ & Htx2).
    rewrite Htx1, Htx2. auto.
Qed.

Lemma command_behind_file_and_flush_witness :
  (exists s1 s2,
      networkTaskRound plainPlatform
        (feed (lit "de" ++ frame (lit "[12,{}]") ++ []))
        (keepsInput midTransferState) = Ok s1
      /\ currentFile (sink s1) = mkFsFile false (lit "abcde")
      /\ networkTaskRound plainPlatform (feed []) s1 = Ok s2
      /\ tx (tcpClient s2)
         = [frame (lit "[0,{}]"); frame (lit "[0,{}]"); frame (lit "[12,{}]")])
  /\ (exists s1 s2,
         networkTaskRound plainPlatform
           (feed (lit "de" ++ frame (lit "[12,{}]") ++ []))
           midTransferState = Ok s1
         /\ currentFile (sink s1) = mkFsFile false (lit "abcde")
         /\ networkTaskRounds plainPlatform (repeat (feed []) 3) s1 = Ok s2
         /\ tx (tcpClient s2) = [frame (lit "[0,{}]"); frame (lit "[0,{}]")]).
Proof.
  split.
  - destruct (command_behind_file_and_flush plainPlatform (lit "abc") (lit "de")
                (lit "[12,{}]") [] (keepsInput midTransferState))
      as (s1 & Hrun & Hdone & Hkeep & _).
    + vm_compute. repeat split; try discriminate.
    + vm_compute. split; [reflexivity|discriminate].
    + reflexivity.
    + split; [reflexivity|vm_compute; discriminate].
    + destruct (Hkeep eq_refl) as [_ Hnext].
      assert (Hs1 : networkTaskRound plainPlatform
                      (feed (lit "de" ++ frame (lit "[12,{}]") ++ []))
                      (keepsInput midTransferState) = Ok s1) by exact Hrun.
      vm_compute in Hs1. injection Hs1 as <-.
      eexists _, _. split; [exact Hrun|].
      split; [reflexivity|]. split; [vm_compute; reflexivity|]. reflexivity.
  - destruct (command_behind_file_and_flush plainPlatform (lit "abc") (lit "de")
                (lit "[12,{}]") [] midTransferState)
      as (s1 & Hrun & Hdone & _ & Hdrop).
    + vm_compute. repeat split; try discriminate.
    + vm_compute. split; [reflexivity|discriminate].
    + reflexivity.
    + split; [reflexivity|vm_compute; discriminate].
    + destruct (Hdrop eq_refl) as [_ Hlater].
      destruct (Hlater 3%nat) as (s2 & Hrounds & Htx2 & _).
      assert (Hs1 : networkTaskRound plainPlatform
                      (feed (lit "de" ++ frame (lit "[12,{}]") ++ []))
                      midTransferState = Ok s1) by exact Hrun.
      vm_compute in Hs1. injection Hs1 as <-.
      eexists. exists s2. split; [exact Hrun|].
      split; [reflexivity|]. split; [exact Hrounds|].
      rewrite Htx2. reflexivity.
Defined.

(** ** A transfer cut by the peer *)

Lemma stranded_rounds (pf : Platform) (tx0 : list bytes) (stored : bytes)
                      (es : list Env) :
  forall s,
    stranded tx0 stored s ->
    Forall (fun e => writeScript (cardNow e) = []) es ->
    exists s', networkTaskRounds pf es s = Ok s' /\ stranded tx0 stored s'.
Proof.
  induction es as [|e es IH]; intros s Hs Hcards.
  - exists s. split; [reflexivity|exact Hs].
  - inversion Hcards as [|? ? Hcard Hrest]; subst.
    destruct Hs as (Hst & Hbin & Hptr & Hopen & Hdata & Hscript & Htx).
    cbn [networkTaskRounds].
    assert (Hround : networkTaskRound pf e s = Ok (environment e s)).
    { unfold networkTaskRound. cbv zeta.
      replace (state (ui (environment e s))) with WirelessState.DISCONNECTED
        by (symmetry; exact Hst).
      reflexivity. }
    rewrite Hround. cbn [bind]. apply IH; [|exact Hrest].
    unfold stranded, environment. cbn. auto 10.
Qed.

Lemma onExit_file (sch : Scheduler) (s : State) (t : Tasks) :
  currentWriteFile (sink s) = true -> isOpen (currentFile (sink s)) = true ->
  writeScript (card (sink s)) = [] ->
  currentFile (sink (fst (snd (onExit sch s t))))
  = mkFsFile false (written (currentFile (sink s)) ++ writeBuffer (sink s)).
Proof.
  intros Hptr Hopen Hscript.
  destruct s as [k u p x rb [rx0 c0 tx0]].
  cbn [sink] in *.
  assert (Hflush : exists ok k',
            flushWriteBuffer k = (ok, k')
            /\ isOpen (currentFile k') = true
            /\ written (currentFile k') = written (currentFile k) ++ writeBuffer k).
  { destruct (Z.eq_dec (writeBufferPos k) 0) as [Hz|Hnz].
    - exists true, k. unfold flushWriteBuffer. rewrite Hz. cbn [Z.ltb Z.compare andb].
      repeat split; auto.
      assert (writeBuffer k = []) as -> by (apply size_nil_iff; exact Hz).
      now rewrite app_nil_r.
    - destruct (flushWriteBuffer_ready k Hptr Hopen) as (ok & k' & Hf & _ & Ho & _ & Hg).
      { pose proof (size_nonneg (writeBuffer k)). unfold writeBufferPos in *. lia. }
      destruct (Hg Hscript) as (_ & _ & Hw). exists ok, k'. auto. }
  destruct Hflush as (ok & [wb cwf [op wr] cd] & Hf & Ho & Hw).
  cbn [currentFile isOpen written] in Ho, Hw. subst op.
  unfold onExit, flushWriteBufferT.
  destruct c0;
    cbn [tcpClient connected rx tx set_tcpClient sink ui peer xfer recvBuffer];
    rewrite Hf; cbn; now rewrite Hw.
Qed.

(** X22: a transfer cut by the peer keeps what was received.  When the
    worker finds, at the start of a round, that the peer has gone away while
    a file is being received, it shows [DISCONNECTED] and from then on does
    nothing, round after round: it sends no reply, leaves the file open and
    the last bytes in the coalescing buffer.  [onExit] then writes those
    bytes and closes the file, which holds every byte received, in order
    (the card taking the write in full); the partial file is not removed. *)
Theorem interrupted_transfer_keeps_partial_file
    (pf : Platform) (stored : bytes) (remaining : Z) (s : State)
    (e : Env) (es : list Env) (sch : Scheduler) (t : Tasks) :
  receiving stored remaining s ->
  peerUp e = false ->
  Forall (fun e => writeScript (cardNow e) = []) (e :: es) ->
  exists s',
    networkTaskRounds pf (e :: es) s = Ok s'
    /\ state (ui s') = WirelessState.DISCONNECTED
    /\ tx (tcpClient s') = tx (tcpClient s)
    /\ isOpen (currentFile (sink s')) = true
    /\ written (currentFile (sink s')) ++ writeBuffer (sink s') = stored
    /\ currentFile (sink (fst (snd (onExit sch s' t)))) = mkFsFile false stored.
Proof.
  intros Hrecv Hdown Hcards.
  inversion Hcards as [|? ? Hcard Hrest]; subst.
  destruct Hrecv as (Hbin & Hst & Hc & Hbuf & (Hptr & Hopen & Hroom) & Hrem
                     & Hcount & Hsum & Hmax & Hdata).
  set (s1 := set_ui (setStatus (lit "Calibre disconnected")
                       (setState WirelessState.DISCONNECTED
                          (ui (environment e s)))) (environment e s)).
  assert (Hround : networkTaskRound pf e s = Ok s1).
  { unfold networkTaskRound. cbv zeta.
    replace (state (ui (environment e s))) with WirelessState.RECEIVING
      by (symmetry; exact Hst).
    unfold handleTcpClient.
    replace (connected (tcpClient (environment e s))) with false.
    2:{ unfold environment. cbn. now rewrite Hdown, andb_false_r. }
    reflexivity. }
  assert (Hs1 : stranded (tx (tcpClient s)) stored s1).
  { unfold stranded, s1, environment. cbn. auto 10. }
  destruct (stranded_rounds pf _ _ es s1 Hs1 Hrest) as (s' & Hrun & Hs').
  exists s'. cbn [networkTaskRounds]. rewrite Hround. cbn [bind].
  destruct Hs' as (Hst' & Hbin' & Hptr' & Hopen' & Hdata' & Hscript' & Htx').
  repeat split; auto.
  rewrite onExit_file by assumption. now rewrite Hdata'.
Qed.

Lemma interrupted_transfer_keeps_partial_file_witness :
  exists s',
    networkTaskRounds plainPlatform
      [mkEnv [] false goodCard quiet; feed (lit "de")] midTransferState = Ok s'
    /\ state (ui s') = WirelessState.DISCONNECTED
    /\ currentFile (sink s') = mkFsFile true []
    /\ currentFile (sink (fst (snd (onExit (mkScheduler true true true) s'
                                           (mkTasks false true true true true)))))
       = mkFsFile false (lit "abc").
Proof.
  destruct (interrupted_transfer_keeps_partial_file plainPlatform (lit "abc") 2
              midTransferState (mkEnv [] false goodCard quiet) [feed (lit "de")]
              (mkScheduler true true true) (mkTasks false true true true true))
    as (s' & Hrun & Hst & _ & _ & _ & Hfile).
  - vm_compute. repeat split; try discriminate.
  - reflexivity.
  - repeat constructor.
  - exists s'. repeat split; auto.
    assert (Hs : networkTaskRounds plainPlatform
                   [mkEnv [] false goodCard quiet; feed (lit "de")] midTransferState
                 = Ok s') by exact Hrun.
    vm_compute in Hs. injection Hs as <-. reflexivity.
Defined.

(** ** The frame buffer *)

Lemma Forall_parts {A} (P : A -> Prop) (n : nat) (l : list A) :
  Forall P l -> Forall P (firstn n l) /\ Forall P (skipn n l).
Proof.
  intros H. rewrite <- (firstn_skipn n l) in H. now apply Forall_app in H.
Qed.

Lemma store_spec (i : nat) (v : Z) (fb : list Z) :
  (i < length fb)%nat ->
  exists fb',
    store i v fb = Buffer fb'
    /\ length fb' = length fb
    /\ nth i fb' 0 = v
    /\ (forall j, j <> i -> nth j fb' 0 = nth j fb 0)
    /\ (Forall is_byte fb -> is_byte v -> Forall is_byte fb').
Proof.
  intros Hi. unfold store.
  replace (i <? length fb)%nat with true by (symmetry; now apply Nat.ltb_lt).
  eexists. split; [reflexivity|].
  assert (Hlen : length (firstn i fb) = i) by (rewrite length_firstn; lia).
  repeat split.
  - rewrite length_app, Hlen. cbn [length]. rewrite length_skipn. lia.
  - rewrite app_nth2, Hlen, Nat.sub_diag by lia. reflexivity.
  - intros j Hj. destruct (Nat.lt_ge_cases j i) as [Hlt|Hge].
    + rewrite app_nth1 by lia. rewrite nth_firstn.
      replace (j <? i)%nat with true by (symmetry; now apply Nat.ltb_lt).
      reflexivity.
    + rewrite app_nth2 by lia. rewrite Hlen.
      destruct (j - i)%nat as [|k] eqn:Hk; [lia|].
      cbn [nth]. rewrite nth_skipn. f_equal. lia.
  - intros Hall Hv. apply Forall_app. split.
    + now apply Forall_parts.
    + constructor; [exact Hv|]. now apply Forall_parts.
Qed.

Lemma to_uint8_byte (n : Z) : is_byte (to_uint8 n).
Proof. unfold is_byte, to_uint8. pose proof (Z.mod_pos_bound n 256). lia. Qed.

Lemma to_uint8_bit (n j : Z) :
  0 <= j < 8 -> Z.testbit (to_uint8 n) j = Z.testbit n j.
Proof.
  intros Hj. unfold to_uint8. change 256 with (2 ^ 8).
  apply Z.mod_pow2_bits_low. lia.
Qed.

Lemma one_bit (k j : Z) : 0 <= k -> Z.testbit (Z.shiftl 1 k) j = (k =? j).
Proof.
  intros Hk. rewrite Z.shiftl_1_l. now apply Z.pow2_bits_eqb.
Qed.

Lemma cleared_bit (b k j : Z) :
  0 <= k -> 0 <= j < 8 ->
  Z.testbit (to_uint8 (Z.land b (Z.lnot (Z.shiftl 1 k)))) j
  = Z.testbit b j && negb (k =? j).
Proof.
  intros Hk Hj. rewrite to_uint8_bit by exact Hj.
  rewrite Z.land_spec, Z.lnot_spec by lia. now rewrite one_bit.
Qed.

Lemma set_bit (b k j : Z) :
  0 <= k -> 0 <= j < 8 ->
  Z.testbit (to_uint8 (Z.lor b (Z.shiftl 1 k))) j = Z.testbit b j || (k =? j).
Proof.
  intros Hk Hj. rewrite to_uint8_bit by exact Hj.
  rewrite Z.lor_spec. now rewrite one_bit.
Qed.

(** The byte and the bit of a point of the screen. *)
Lemma pixel_address (p : Panel) (x y : Z) :
  panel_ok p -> onScreen p x y ->
  0 <= (DISPLAY_HEIGHT p - 1 - x) * DISPLAY_WIDTH_BYTES p + y / 8 < BUFFER_SIZE p
  /\ 0 <= 7 - y mod 8 < 8
  /\ 0 <= y / 8 < DISPLAY_WIDTH_BYTES p.
Proof.
  intros (Hh & Hwb & Hw & Hsize & _) [Hx Hy].
  unfold getScreenWidth, getScreenHeight in *.
  assert (Hdiv : 0 <= y / 8 < DISPLAY_WIDTH_BYTES p).
  { split; [apply Z.div_pos; lia|]. apply Z.div_lt_upper_bound; lia. }
  pose proof (Z.mod_pos_bound y 8 ltac:(lia)).
  repeat split; try lia; try rewrite Hsize; nia.
Qed.

Lemma pixel_address_inj (p : Panel) (x y x' y' : Z) :
  panel_ok p -> onScreen p x y -> onScreen p x' y' ->
  (DISPLAY_HEIGHT p - 1 - x) * DISPLAY_WIDTH_BYTES p + y / 8
  = (DISPLAY_HEIGHT p - 1 - x') * DISPLAY_WIDTH_BYTES p + y' / 8 ->
  y mod 8 = y' mod 8 -> x = x' /\ y = y'.
Proof.
  intros Hp Hon Hon' Haddr Hbit.
  destruct (pixel_address p x y Hp Hon) as (_ & _ & Hd).
  destruct (pixel_address p x' y' Hp Hon') as (_ & _ & Hd').
  assert (Hrow : DISPLAY_HEIGHT p - 1 - x = DISPLAY_HEIGHT p - 1 - x' /\ y / 8 = y' / 8).
  { destruct Hp as (_ & Hwb & _).
    apply (Z.div_mod_unique (DISPLAY_WIDTH_BYTES p)); lia. }
  destruct Hrow as [Hr Hq]. split; [lia|].
  rewrite (Z.div_mod y 8), (Z.div_mod y' 8) by lia. congruence.
Qed.

Lemma painted_refl (p : Panel) (region : Z -> Z -> bool) (state : bool)
                   (fb : list Z) :
  buffer_ok p fb ->
  (forall x y, onScreen p x y -> region x y = false) ->
  painted p region state (Buffer fb) (Buffer fb).
Proof.
  intros Hok Hr. exists fb, fb. repeat split; try apply Hok.
  intros x y Hon. now rewrite Hr.
Qed.

Lemma painted_trans (p : Panel) (r1 r2 r : Z -> Z -> bool) (state : bool)
                    (m m1 m2 : Mem) :
  painted p r1 state m m1 -> painted p r2 state m1 m2 ->
  (forall x y, onScreen p x y -> r x y = r1 x y || r2 x y) ->
  painted p r state m m2.
Proof.
  intros (fb & fb1 & -> & -> & Hok1 & H1) (fb1' & fb2 & Heq & -> & Hok2 & H2) Hr.
  injection Heq as <-.
  exists fb, fb2. repeat split; try apply Hok2.
  intros x y Hon. rewrite (H2 x y Hon), (H1 x y Hon), (Hr x y Hon).
  destruct (r1 x y), (r2 x y); reflexivity.
Qed.

Lemma painted_ext (p : Panel) (r r' : Z -> Z -> bool) (state : bool) (m m' : Mem) :
  painted p r state m m' ->
  (forall x y, onScreen p x y -> r' x y = r x y) ->
  painted p r' state m m'.
Proof.
  intros (fb & fb' & -> & -> & Hok & H) Hr.
  exists fb, fb'. repeat split; try apply Hok.
  intros x y Hon. now rewrite (H x y Hon), (Hr x y Hon).
Qed.

Lemma drawPixel_off (p : Panel) (x y : Z) (state : bool) (fb : list Z) :
  ~ onScreen p x y -> drawPixel p x y state (Buffer fb) = Buffer fb.
Proof.
  intros Hoff. unfold drawPixel, onScreen, getScreenWidth, getScreenHeight in *.
  destruct ((y <? 0) || (DISPLAY_WIDTH p <=? y)
            || (DISPLAY_HEIGHT p - 1 - x <? 0)
            || (DISPLAY_HEIGHT p <=? DISPLAY_HEIGHT p - 1 - x)) eqn:Hc;
    [reflexivity|].
  exfalso. apply Hoff.
  repeat (apply orb_false_iff in Hc as [Hc ?]).
  repeat match goal with
         | H : (_ <? _) = false |- _ => apply Z.ltb_ge in H
         | H : (_ <=? _) = false |- _ => apply Z.leb_gt in H
         end.
  lia.
Qed.

Lemma drawPixel_painted (p : Panel) (x y : Z) (state : bool) (fb : list Z) :
  panel_ok p -> buffer_ok p fb ->
  painted p (fun x' y' => (x' =? x) && (y' =? y)) state
          (Buffer fb) (drawPixel p x y state (Buffer fb)).
Proof.
  intros Hp Hok.
  assert (Hdec : onScreen p x y \/ ~ onScreen p x y).
  { unfold onScreen. lia. }
  destruct Hdec as [Hon|Hoff].
  2:{ rewrite drawPixel_off by exact Hoff. apply painted_refl; [exact Hok|].
      intros x' y' Hon'.
      destruct (Z.eqb_spec x' x), (Z.eqb_spec y' y); try reflexivity.
      subst. contradiction. }
  destruct (pixel_address p x y Hp Hon) as (Haddr & Hbit & _).
  destruct Hok as [Hlen Hbytes].
  pose proof Hon as [Hx Hy]. unfold getScreenWidth, getScreenHeight in Hx, Hy.
  unfold drawPixel.
  replace ((y <? 0) || (DISPLAY_WIDTH p <=? y)
           || (DISPLAY_HEIGHT p - 1 - x <? 0)
           || (DISPLAY_HEIGHT p <=? DISPLAY_HEIGHT p - 1 - x)) with false.
  2:{ symmetry. repeat (apply orb_false_iff; split);
        try (apply Z.ltb_ge; lia); apply Z.leb_gt; lia. }
  cbv zeta.
  rewrite Z.quot_div_nonneg, Z.rem_mod_nonneg by lia.
  set (addr := (DISPLAY_HEIGHT p - 1 - x) * DISPLAY_WIDTH_BYTES p + y / 8) in *.
  assert (Hsmall : to_uint16 addr = addr).
  { unfold to_uint16. apply Z.mod_small. destruct Hp as (_ & _ & _ & _ & Hmax). lia. }
  assert (Hbitpos : to_uint8 (7 - y mod 8) = 7 - y mod 8).
  { unfold to_uint8. apply Z.mod_small. lia. }
  rewrite Hsmall, Hbitpos.
  assert (Hi : (Z.to_nat addr < length fb)%nat) by lia.
  destruct (nth_error fb (Z.to_nat addr)) as [b|] eqn:Hnth.
  2:{ apply nth_error_None in Hnth. lia. }
  assert (Hb : nth (Z.to_nat addr) fb 0 = b) by now apply nth_error_nth.
  set (v := if state
            then to_uint8 (Z.land b (Z.lnot (Z.shiftl 1 (7 - y mod 8))))
            else to_uint8 (Z.lor b (Z.shiftl 1 (7 - y mod 8)))).
  destruct (store_spec (Z.to_nat addr) v fb Hi)
    as (fb' & Hstore & Hlen' & Hsame & Hother & Hbytes').
  assert (Hrun : (if state
                  then store (Z.to_nat addr)
                         (to_uint8 (Z.land b (Z.lnot (Z.shiftl 1 (7 - y mod 8))))) fb
                  else store (Z.to_nat addr)
                         (to_uint8 (Z.lor b (Z.shiftl 1 (7 - y mod 8)))) fb)
                 = Buffer fb').
  { rewrite <- Hstore. unfold v. now destruct state. }
  rewrite Hrun.
  exists fb, fb'. split; [reflexivity|]. split; [reflexivity|]. split.
  { split; [lia|]. apply Hbytes'; [exact Hbytes|].
    unfold v. destruct state; apply to_uint8_byte. }
  intros x' y' Hon'.
  destruct (pixel_address p x' y' Hp Hon') as (Haddr' & Hbit' & _).
  unfold isBlack.
  set (addr' := (DISPLAY_HEIGHT p - 1 - x') * DISPLAY_WIDTH_BYTES p + y' / 8) in *.
  destruct (Z.eq_dec addr' addr) as [Ha|Ha].
  - rewrite Ha, Hsame, Hb.
    assert (Hv : Z.testbit v (7 - y' mod 8)
                 = if state
                   then Z.testbit b (7 - y' mod 8)
                        && negb (7 - y mod 8 =? 7 - y' mod 8)
                   else Z.testbit b (7 - y' mod 8)
                        || (7 - y mod 8 =? 7 - y' mod 8)).
    { unfold v. destruct state; [apply cleared_bit|apply set_bit]; lia. }
    rewrite Hv.
    destruct (Z.eqb_spec (7 - y mod 8) (7 - y' mod 8)) as [Hm|Hm].
    + destruct (pixel_address_inj p x' y' x y Hp Hon' Hon Ha ltac:(lia)) as [-> ->].
      rewrite !Z.eqb_refl. cbn [andb].
      destruct state; [now rewrite andb_false_r|now rewrite orb_true_r].
    + replace ((x' =? x) && (y' =? y)) with false.
      2:{ symmetry. apply andb_false_iff.
          destruct (Z.eqb_spec y' y); [subst; lia|now right]. }
      destruct state; [now rewrite andb_true_r|now rewrite orb_false_r].
  - rewrite Hother by lia.
    replace ((x' =? x) && (y' =? y)) with false; [reflexivity|].
    symmetry. apply andb_false_iff.
    destruct (Z.eqb_spec x' x), (Z.eqb_spec y' y); auto.
    subst. contradiction.
Qed.

Lemma existsb_seq_shift (f : nat -> bool) (count : nat) :
  forall a, existsb f (seq (S a) count) = existsb (fun k => f (S k)) (seq a count).
Proof.
  induction count as [|count IH]; intros a; [reflexivity|].
  cbn [seq existsb]. now rewrite IH.
Qed.

(** A loop whose rounds paint the regions [r i] paints their union. *)
Lemma forLoop_painted (p : Panel) (state : bool) (body : Z -> Mem -> Mem)
                      (r : Z -> Z -> Z -> bool) :
  (forall i fb, buffer_ok p fb ->
                painted p (r i) state (Buffer fb) (body i (Buffer fb))) ->
  forall (count : nat) (start : Z) (fb : list Z),
    buffer_ok p fb ->
    painted p (fun x y =>
                 existsb (fun k => r (start + Z.of_nat k) x y) (seq 0 count))
            state (Buffer fb) (forLoop count start body (Buffer fb)).
Proof.
  intros Hbody. induction count as [|count IH]; intros start fb Hok.
  - cbn. apply painted_refl; auto.
  - cbn [forLoop].
    pose proof (Hbody start fb Hok) as Hfirst.
    destruct Hfirst as (fb0 & fb1 & Heq & Hrun & Hok1 & Hpix).
    injection Heq as <-. rewrite Hrun.
    eapply painted_trans.
    + exists fb, fb1. repeat split; try apply Hok1. exact Hpix.
    + apply (IH (start + 1) fb1 Hok1).
    + intros x y _. cbn [seq existsb].
      replace (start + Z.of_nat 0) with start by lia.
      rewrite existsb_seq_shift.
      apply (f_equal (orb (r start x y))). generalize (seq 0 count). intros l.
      induction l as [|k l IHl]; [reflexivity|].
      cbn [existsb]. rewrite IHl. do 2 f_equal. lia.
Qed.

Lemma existsb_range (f : Z -> bool) (start : Z) (count : nat) :
  existsb (fun k => f (start + Z.of_nat k)) (seq 0 count) = true
  <-> exists i, start <= i < start + Z.of_nat count /\ f i = true.
Proof.
  rewrite existsb_exists. split.
  - intros (k & Hin & Hf). apply in_seq in Hin. exists (start + Z.of_nat k).
    split; [lia|exact Hf].
  - intros (i & Hi & Hf). exists (Z.to_nat (i - start)). split.
    + apply in_seq. lia.
    + now replace (start + Z.of_nat (Z.to_nat (i - start))) with i by lia.
Qed.

Lemma bool_eq_iff (a b : bool) : (a = true <-> b = true) -> a = b.
Proof. destruct a, b; intuition congruence. Qed.

Lemma drawLine_painted (p : Panel) (x1 y1 x2 y2 : Z) (state : bool) (fb : list Z) :
  panel_ok p -> buffer_ok p fb ->
  painted p (segment x1 y1 x2 y2) state
          (Buffer fb) (drawLine p x1 y1 x2 y2 state (Buffer fb)).
Proof.
  intros Hp Hok. unfold drawLine, segment.
  destruct (Z.eqb_spec x1 x2) as [Hx|Hx].
  - set (lo := Z.min y1 y2). set (hi := Z.max y1 y2).
    assert (Hrun : (let '(y3, y4) := if y2 <? y1 then (y2, y1) else (y1, y2) in
                    forLoop (Z.to_nat (y4 - y3 + 1)) y3
                            (fun y => drawPixel p x1 y state) (Buffer fb))
                   = forLoop (Z.to_nat (hi - lo + 1)) lo
                             (fun y => drawPixel p x1 y state) (Buffer fb)).
    { unfold lo, hi. destruct (Z.ltb_spec y2 y1).
      - now rewrite Z.min_r, Z.max_l by lia.
      - now rewrite Z.min_l, Z.max_r by lia. }
    rewrite Hrun.
    eapply painted_ext.
    + apply (forLoop_painted p state (fun y => drawPixel p x1 y state)
               (fun i x y => (x =? x1) && (y =? i))).
      * intros i fb0 Hok0. now apply drawPixel_painted.
      * exact Hok.
    + intros x y _. symmetry. apply bool_eq_iff.
      pose proof (existsb_range (fun i => (x =? x1) && (y =? i)) lo
                    (Z.to_nat (hi - lo + 1))) as Hrange.
      cbv beta in Hrange. rewrite Hrange.
      unfold between. split.
      * intros (i & Hi & Hf). apply andb_prop in Hf as [Hx' Hy'].
        apply Z.eqb_eq in Hy'. subst i. rewrite Hx'. cbn [andb].
        apply andb_true_iff. split; apply Z.leb_le; lia.
      * intros Hf. apply andb_prop in Hf as [Hx' Hb].
        apply andb_prop in Hb as [Hlo Hhi].
        apply Z.leb_le in Hlo, Hhi. exists y. split; [lia|].
        now rewrite Hx', Z.eqb_refl.
  - destruct (Z.eqb_spec y1 y2) as [Hy|Hy].
    + set (lo := Z.min x1 x2). set (hi := Z.max x1 x2).
      assert (Hrun : (let '(x3, x4) := if x2 <? x1 then (x2, x1) else (x1, x2) in
                      forLoop (Z.to_nat (x4 - x3 + 1)) x3
                              (fun x => drawPixel p x y1 state) (Buffer fb))
                     = forLoop (Z.to_nat (hi - lo + 1)) lo
                               (fun x => drawPixel p x y1 state) (Buffer fb)).
      { unfold lo, hi. destruct (Z.ltb_spec x2 x1).
        - now rewrite Z.min_r, Z.max_l by lia.
        - now rewrite Z.min_l, Z.max_r by lia. }
      rewrite Hrun.
      eapply painted_ext.
      * apply (forLoop_painted p state (fun x => drawPixel p x y1 state)
                 (fun i x y => (x =? i) && (y =? y1))).
        -- intros i fb0 Hok0. now apply drawPixel_painted.
        -- exact Hok.
      * intros x y _. symmetry. apply bool_eq_iff.
        pose proof (existsb_range (fun i => (x =? i) && (y =? y1)) lo
                      (Z.to_nat (hi - lo + 1))) as Hrange.
        cbv beta in Hrange. rewrite Hrange.
        unfold between. split.
        -- intros (i & Hi & Hf). apply andb_prop in Hf as [Hx' Hy'].
           apply Z.eqb_eq in Hx'. subst i. rewrite Hy'. cbn [andb].
           apply andb_true_iff. split; apply Z.leb_le; lia.
        -- intros Hf. apply andb_prop in Hf as [Hy' Hb].
           apply andb_prop in Hb as [Hlo Hhi].
           apply Z.leb_le in Hlo, Hhi. exists x. split; [lia|].
           now rewrite Hy', Z.eqb_refl.
    + apply painted_refl; auto.
Qed.

Lemma segment_row (x1 x2 row : Z) (px py : Z) :
  segment x1 row x2 row px py
  = (py =? row) && between (Z.min x1 x2) (Z.max x1 x2) px.
Proof.
  unfold segment, between. rewrite Z.eqb_refl.
  destruct (Z.eqb_spec x1 x2) as [->|Hne]; [|reflexivity].
  apply bool_eq_iff. rewrite !andb_true_iff, !Z.eqb_eq, !Z.leb_le. lia.
Qed.

Lemma fillRect_painted (p : Panel) (x y width height : Z) (state : bool)
                       (fb : list Z) :
  panel_ok p -> buffer_ok p fb ->
  painted p (filled x y width height) state
          (Buffer fb) (fillRect p x y width height state (Buffer fb)).
Proof.
  intros Hp Hok. unfold fillRect.
  eapply painted_ext.
  - apply (forLoop_painted p state
             (fun fillY => drawLine p x fillY (x + width - 1) fillY state)
             (fun i => segment x i (x + width - 1) i)).
    + intros i fb0 Hok0. now apply drawLine_painted.
    + exact Hok.
  - intros px py _. symmetry. apply bool_eq_iff.
    pose proof (existsb_range (fun i => segment x i (x + width - 1) i px py) y
                  (Z.to_nat height)) as Hrange.
    cbv beta in Hrange. rewrite Hrange.
    unfold filled. split.
    + intros (i & Hi & Hf). rewrite segment_row in Hf.
      apply andb_prop in Hf as [Hrow Hcol]. apply Z.eqb_eq in Hrow. subst i.
      rewrite Hcol, andb_true_r. unfold between.
      apply andb_true_iff. split; apply Z.leb_le; lia.
    + intros Hf. apply andb_prop in Hf as [Hrow Hcol].
      unfold between in Hrow. apply andb_prop in Hrow as [Hlo Hhi].
      apply Z.leb_le in Hlo, Hhi. exists py. split; [lia|].
      now rewrite segment_row, Z.eqb_refl, Hcol.
Qed.

Lemma drawRect_painted (p : Panel) (x y width height : Z) (state : bool)
                       (fb : list Z) :
  panel_ok p -> buffer_ok p fb -> 1 <= width -> 1 <= height ->
  painted p (outline x y width height) state
          (Buffer fb) (drawRect p x y width height state (Buffer fb)).
Proof.
  intros Hp Hok Hw Hh. unfold drawRect. cbv zeta.
  pose proof (drawLine_painted p x y (x + width - 1) y state fb Hp Hok) as H1.
  destruct H1 as (f0 & fb1 & E0 & E1 & Hok1 & P1). injection E0 as <-.
  rewrite E1.
  pose proof (drawLine_painted p (x + width - 1) y (x + width - 1) (y + height - 1)
                state fb1 Hp Hok1) as H2.
  destruct H2 as (f1 & fb2 & E1' & E2 & Hok2 & P2). injection E1' as <-.
  rewrite E2.
  pose proof (drawLine_painted p (x + width - 1) (y + height - 1) x (y + height - 1)
                state fb2 Hp Hok2) as H3.
  destruct H3 as (f2 & fb3 & E2' & E3 & Hok3 & P3). injection E2' as <-.
  rewrite E3.
  pose proof (drawLine_painted p x y x (y + height - 1) state fb3 Hp Hok3) as H4.
  destruct H4 as (f3 & fb4 & E3' & E4 & Hok4 & P4). injection E3' as <-.
  rewrite E4.
  exists fb, fb4. repeat split; try apply Hok4.
  intros px py Hon.
  rewrite (P4 px py Hon), (P3 px py Hon), (P2 px py Hon), (P1 px py Hon).
  assert (Hregion : outline x y width height px py
                    = segment x y (x + width - 1) y px py
                      || segment (x + width - 1) y (x + width - 1) (y + height - 1) px py
                      || segment (x + width - 1) (y + height - 1) x (y + height - 1) px py
                      || segment x y x (y + height - 1) px py).
  { unfold outline, segment, between. apply bool_eq_iff.
    rewrite !Z.eqb_refl.
    destruct (Z.eqb_spec x (x + width - 1)), (Z.eqb_spec (x + width - 1) x),
             (Z.eqb_spec y (y + height - 1)), (Z.eqb_spec (y + height - 1) y);
      try lia;
      rewrite ?orb_true_iff, ?andb_true_iff, ?orb_true_iff, ?Z.eqb_eq, ?Z.leb_le;
      rewrite ?orb_true_iff, ?andb_true_iff, ?Z.eqb_eq, ?Z.leb_le;
      lia. }
  rewrite Hregion.
  destruct (segment x y (x + width - 1) y px py),
           (segment (x + width - 1) y (x + width - 1) (y + height - 1) px py),
           (segment (x + width - 1) (y + height - 1) x (y + height - 1) px py),
           (segment x y x (y + height - 1) px py); reflexivity.
Qed.

Lemma invert_byte (b : Z) : is_byte b -> to_uint8 (Z.lnot b) = 255 - b.
Proof.
  unfold is_byte, to_uint8, Z.lnot. intros Hb.
  symmetry. apply (Z.mod_unique _ _ (-1)); lia.
Qed.

Lemma invertScreen_whole (p : Panel) (fb : list Z) :
  panel_ok p -> buffer_ok p fb ->
  invertScreen p (Buffer fb) = Buffer (map (fun b => to_uint8 (Z.lnot b)) fb).
Proof.
  intros (Hh & Hwb & _ & Hsize & _) [Hlen _]. unfold invertScreen.
  replace (BUFFER_SIZE p <=? 0) with false by (symmetry; apply Z.leb_gt; nia).
  replace (Z.to_nat (BUFFER_SIZE p)) with (length fb) by lia.
  rewrite Nat.leb_refl, firstn_all, skipn_all. now rewrite app_nil_r.
Qed.

(** X23: [drawPixel] paints one point and stays inside the buffer.  On a
    panel whose rows are whole bytes and whose buffer is at most 65536 bytes,
    with a frame buffer of the size of the panel, [drawPixel] never writes
    outside the buffer; a point off the screen leaves the buffer as it is;
    a point of the screen takes the colour asked for (black for [true]) and
    every other point of the screen keeps its colour. *)
Theorem drawPixel_paints_one_point
    (p : Panel) (x y : Z) (state : bool) (frameBuffer : list Z) :
  panel_ok p -> buffer_ok p frameBuffer ->
  exists frameBuffer',
    drawPixel p x y state (Buffer frameBuffer) = Buffer frameBuffer'
    /\ buffer_ok p frameBuffer'
    /\ (forall x' y', onScreen p x' y' ->
          isBlack p frameBuffer' x' y'
          = if (x' =? x) && (y' =? y) then state
            else isBlack p frameBuffer x' y')
    /\ (~ onScreen p x y -> frameBuffer' = frameBuffer).
Proof.
  intros Hp Hok.
  destruct (drawPixel_painted p x y state frameBuffer Hp Hok)
    as (fb0 & fb' & E0 & Hrun & Hok' & Hpix).
  injection E0 as <-.
  exists fb'. split; [exact Hrun|]. split; [exact Hok'|]. split; [exact Hpix|].
  intros Hoff. rewrite drawPixel_off in Hrun by exact Hoff. congruence.
Qed.

Lemma smallPanel_ok : panel_ok smallPanel.
Proof. unfold panel_ok. cbn. lia. Qed.

Lemma whiteBuffer_ok : buffer_ok smallPanel whiteBuffer.
Proof.
  split; [reflexivity|]. unfold whiteBuffer. cbn [repeat].
  repeat constructor; unfold is_byte; lia.
Qed.

Lemma drawPixel_paints_one_point_witness :
  exists frameBuffer',
    drawPixel smallPanel 1 10 true (Buffer whiteBuffer) = Buffer frameBuffer'
    /\ isBlack smallPanel frameBuffer' 1 10 = true
    /\ isBlack smallPanel frameBuffer' 1 11 = false
    /\ drawPixel smallPanel 4 10 true (Buffer whiteBuffer) = Buffer whiteBuffer.
Proof.
  destruct (drawPixel_paints_one_point smallPanel 1 10 true whiteBuffer
              smallPanel_ok whiteBuffer_ok)
    as (fb' & Hrun & _ & Hpix & _).
  exists fb'. split; [exact Hrun|]. split; [|split].
  - rewrite Hpix by (unfold onScreen; cbn; lia). reflexivity.
  - rewrite Hpix by (unfold onScreen; cbn; lia). reflexivity.
  - reflexivity.
Defined.

(** X24: what [drawLine], [fillRect] and [drawRect] paint.  On such a
    panel and buffer none of them writes outside the buffer, and the points
    of the screen that change are these, painted in the colour asked for.
    [drawLine]: the points of a vertical or horizontal segment, its two
    ends included, in whichever order the ends are given, and nothing at all
    for any other segment.  [fillRect]: the rectangle of [width] columns
    from [x] and [height] rows from [y], when [width] is at least 1 (nothing
    when [height] is 0 or less).  [drawRect]: the outline of that rectangle,
    when [width] and [height] are at least 1. *)
Theorem lines_and_rectangles_painted
    (p : Panel) (state : bool) (frameBuffer : list Z) :
  panel_ok p -> buffer_ok p frameBuffer ->
  (forall x1 y1 x2 y2,
      painted p (segment x1 y1 x2 y2) state (Buffer frameBuffer)
              (drawLine p x1 y1 x2 y2 state (Buffer frameBuffer)))
  /\ (forall x1 y1 x2 y2, x1 <> x2 -> y1 <> y2 ->
        drawLine p x1 y1 x2 y2 state (Buffer frameBuffer) = Buffer frameBuffer)
  /\ (forall x y width height, 1 <= width ->
        painted p (fun px py => between x (x + width - 1) px
                                && between y (y + height - 1) py)
                state (Buffer frameBuffer)
                (fillRect p x y width height state (Buffer frameBuffer)))
  /\ (forall x y width height, 1 <= width -> 1 <= height ->
        painted p (outline x y width height) state (Buffer frameBuffer)
                (drawRect p x y width height state (Buffer frameBuffer))).
Proof.
  intros Hp Hok. split; [|split; [|split]].
  - intros. now apply drawLine_painted.
  - intros x1 y1 x2 y2 Hx Hy. unfold drawLine.
    destruct (Z.eqb_spec x1 x2); [contradiction|].
    destruct (Z.eqb_spec y1 y2); [contradiction|reflexivity].
  - intros x y width height Hw.
    eapply painted_ext; [now apply fillRect_painted|].
    intros px py _. unfold filled, between. apply bool_eq_iff.
    rewrite !andb_true_iff, !Z.leb_le. lia.
  - intros. now apply drawRect_painted.
Qed.

Lemma lines_and_rectangles_painted_witness :
  exists frameBuffer',
    fillRect smallPanel 1 2 2 5 true (Buffer whiteBuffer) = Buffer frameBuffer'
    /\ isBlack smallPanel frameBuffer' 1 2 = true
    /\ isBlack smallPanel frameBuffer' 2 6 = true
    /\ isBlack smallPanel frameBuffer' 3 6 = false
    /\ isBlack smallPanel frameBuffer' 2 7 = false.
Proof.
  destruct (proj1 (proj2 (proj2 (lines_and_rectangles_painted smallPanel true
              whiteBuffer smallPanel_ok whiteBuffer_ok))) 1 2 2 5)
    as (fb & fb' & E & Hrun & _ & Hpix); [lia|].
  exists fb'. split; [exact Hrun|].
  assert (Hfb : fb = whiteBuffer) by congruence. subst fb.
  repeat split; rewrite Hpix by (unfold onScreen; cbn; lia); reflexivity.
Defined.

(** X25: [invertScreen] flips every point and undoes itself.  On such a
    panel and buffer it stays inside the buffer, every point of the screen
    changes colour, and inverting twice gives the buffer back. *)
Theorem invertScreen_flips_every_point (p : Panel) (frameBuffer : list Z) :
  panel_ok p -> buffer_ok p frameBuffer ->
  exists frameBuffer',
    invertScreen p (Buffer frameBuffer) = Buffer frameBuffer'
    /\ buffer_ok p frameBuffer'
    /\ (forall x y, onScreen p x y ->
          isBlack p frameBuffer' x y = negb (isBlack p frameBuffer x y))
    /\ invertScreen p (Buffer frameBuffer') = Buffer frameBuffer.
Proof.
  intros Hp Hok. pose proof Hok as [Hlen Hbytes].
  set (fb' := map (fun b => to_uint8 (Z.lnot b)) frameBuffer).
  assert (Hok' : buffer_ok p fb').
  { split; [unfold fb'; now rewrite length_map|].
    unfold fb'. apply Forall_forall. intros v Hin.
    apply in_map_iff in Hin as (b & <- & _). apply to_uint8_byte. }
  exists fb'. split; [now apply invertScreen_whole|]. split; [exact Hok'|].
  split.
  - intros x y Hon. destruct (pixel_address p x y Hp Hon) as (Haddr & Hbit & _).
    unfold isBlack, fb'. f_equal.
    set (i := Z.to_nat ((DISPLAY_HEIGHT p - 1 - x) * DISPLAY_WIDTH_BYTES p + y / 8)).
    assert (Hi : (i < length frameBuffer)%nat) by (unfold i; lia).
    rewrite (nth_indep _ 0 (to_uint8 (Z.lnot 0)))
      by (now rewrite length_map).
    rewrite (map_nth (fun b => to_uint8 (Z.lnot b))).
    rewrite to_uint8_bit by lia. apply Z.lnot_spec. lia.
  - rewrite invertScreen_whole by assumption. f_equal.
    unfold fb'. rewrite map_map.
    rewrite <- (map_id frameBuffer) at 2.
    apply map_ext_in. intros b Hin.
    rewrite Forall_forall in Hbytes. pose proof (Hbytes b Hin) as Hb.
    rewrite (invert_byte b Hb), invert_byte; unfold is_byte in *; lia.
Qed.

Lemma invertScreen_flips_every_point_witness :
  invertScreen smallPanel (Buffer whiteBuffer) = Buffer (repeat 0 8)
  /\ invertScreen smallPanel (Buffer (repeat 0 8)) = Buffer whiteBuffer.
Proof.
  destruct (invertScreen_flips_every_point smallPanel whiteBuffer
              smallPanel_ok whiteBuffer_ok)
    as (fb' & Hrun & _ & _ & Hback).
  assert (Hfb : fb' = repeat 0 8).
  { rewrite invertScreen_whole in Hrun by (auto using smallPanel_ok, whiteBuffer_ok).
    injection Hrun as <-. reflexivity. }
  subst fb'. split; assumption.
Defined.

(** ** The display follows the worker *)

Lemma render_shown (sc : Screen) (s s' : State) :
  shown s' = shown s -> render sc s' = render sc s.
Proof.
  unfold shown. intros H. injection H as Hst Hmsg Herr Hrecv Hsize.
  unfold render, renderProgress, renderError.
  now rewrite Hst, Hmsg, Herr, Hrecv, Hsize.
Qed.

Lemma handleSendBook_refreshed (pf : Platform) (data : bytes) (s s' : State) :
  handleSendBook pf data s = Ok s' -> refreshed s s'.
Proof.
  intros H. unfold handleSendBook in H.
  destruct (Str.empty (extractLpath data) || (extractLength data =? 0)).
  { injection H as <-. refresh_done. }
  cbv zeta in H. fields.
  destruct (negb (openOk (card (sink s)))).
  { injection H as <-. refresh_done. }
  destruct (negb (Str.empty (recvBuffer s))).
  2:{ injection H as <-. refresh_done. }
  match type of H with
  | context [bufferedWrite ?d ?k] => destruct (bufferedWrite d k) as [[ok k']| |]
  end; cbn [bind] in H; try discriminate H.
  destruct ok; injection H as <-; refresh_done.
Qed.

Lemma handleCommand_refreshed (pf : Platform) (o : OpCode.t) (data : bytes)
                              (s s' : State) :
  handleCommand pf o data s = Ok s' -> refreshed s s'.
Proof.
  intros H.
  destruct o; cbn [handleCommand] in H;
    try (now apply (handleSendBook_refreshed pf data s));
    injection H as <-;
    unfold handleGetInitializationInfo, handleGetDeviceInformation,
           handleFreeSpace, handleGetBookCount, handleSendBookMetadata,
           handleDisplayMessage, handleNoop;
    cbv zeta;
    try destruct (contains _ data); refresh_done.
Qed.

Lemma receiveBinaryData_refreshed (s s' : State) :
  receiveBinaryData s = Ok s' -> refreshed s s'.
Proof.
  intros H. unfold receiveBinaryData in H.
  destruct (Str.size (rx (tcpClient s)) =? 0).
  { destruct (negb (connected (tcpClient s))).
    - destruct (flushWriteBuffer (sink s)) as [? ?]. injection H as <-. refresh_done.
    - injection H as <-. now right. }
  cbv zeta in H. fields.
  match type of H with
  | context [if 0 <? ?n then _ else _] => destruct (0 <? n)
  end.
  2:{ injection H as <-. refresh_done. }
  match type of H with
  | context [bufferedWrite ?d ?k] => destruct (bufferedWrite d k) as [[ok k']| |]
  end; cbn [bind] in H; try discriminate H.
  fields. destruct ok; cbn [negb] in H; cbv iota in H.
  - match type of H with
    | context [if ?c then _ else _] => destruct c
    end.
    + destruct (flushWriteBuffer k') as [? ?]. injection H as <-. refresh_done.
    + injection H as <-. refresh_done.
  - destruct (flushWriteBuffer k') as [? ?]. injection H as <-. refresh_done.
Qed.

Lemma handleTcpClient_refreshed (pf : Platform) (s s' : State) :
  handleTcpClient pf s = Ok s' -> refreshed s s'.
Proof.
  intros H. unfold handleTcpClient in H.
  destruct (negb (connected (tcpClient s))).
  { injection H as <-. refresh_done. }
  destruct (inBinaryMode (xfer s)).
  { now apply receiveBinaryData_refreshed. }
  destruct (readJsonMessage _ _) as [[m [rx' buf']]| |]; cbn [bind] in H;
    try discriminate H.
  destruct m as [m|]; [|injection H as <-; refresh_done].
  unfold dispatchMessage in H.
  destruct (Str.find "[" m) as [bracket|]; [|injection H as <-; refresh_done].
  cbv zeta in H.
  destruct (Str.find_from "," (S bracket) m) as [end_|];
    [|injection H as <-; refresh_done].
  destruct (stoi _) as [opcodeInt| |]; cbn [bind] in H; try discriminate H.
  match type of H with
  | context [if ?c then _ else _] => destruct c
  end.
  - injection H as <-. refresh_done.
  - apply handleCommand_refreshed in H. exact H.
Qed.

Lemma listenForDiscovery_refreshed (a : Air) (s s' : State) :
  listenForDiscovery a s = Ok s' -> refreshed s s'.
Proof.
  intros H. unfold listenForDiscovery in H.
  destruct (packet a) as [payload|]; [|injection H as <-; now right].
  destruct (0 <? Str.size (firstn 255 payload)); [|injection H as <-; now right].
  destruct (parseReply _ _) as [p| |]; cbn [bind] in H; try discriminate H.
  cbv zeta in H.
  repeat match type of H with
         | context [if ?c then _ else _] => destruct c
         end; injection H as <-; refresh_done.
Qed.

Lemma networkTaskRound_refreshed (pf : Platform) (e : Env) (s s' : State) :
  networkTaskRound pf e s = Ok s' -> refreshed s s'.
Proof.
  intros H. unfold networkTaskRound in H. cbv zeta in H.
  assert (Hw : refreshed (environment e s) s').
  { destruct (state (ui (environment e s)));
      try (now apply (handleTcpClient_refreshed pf));
      try (injection H as <-; now right).
    now apply (listenForDiscovery_refreshed (air e)). }
  exact Hw.
Qed.

(** X26: nothing changes on the screen unnoticed.  When a round of the
    network worker changes anything [render] reads (the state, the status or
    error message, the bytes received or the length of the file), it leaves
    [updateRequired] set; the next round of the display task then clears the
    flag and draws the new state, and a round of the display task that finds
    the flag clear draws nothing. *)
Theorem display_follows_worker
    (pf : Platform) (sc : Screen) (e : Env) (s s' : State) :
  networkTaskRound pf e s = Ok s' ->
  (updateRequired (ui s') = true \/ render sc s' = render sc s)
  /\ (updateRequired (ui s') = true ->
      exists calls s'',
        displayTaskRound sc s' = Ok (s'', Some calls)
        /\ render sc s' = Ok calls
        /\ updateRequired (ui s'') = false
        /\ shown s'' = shown s'
        /\ displayTaskRound sc s'' = Ok (s'', None)).
Proof.
  intros Hround. split.
  - destruct (networkTaskRound_refreshed pf e s s' Hround) as [Hup|Hsame];
      [now left|right; now apply render_shown].
  - intros Hup. unfold displayTaskRound. rewrite Hup. cbv zeta.
    set (s1 := set_ui (set_updateRequired false (ui s')) s').
    assert (Hshown : shown s1 = shown s') by reflexivity.
    destruct (render_lines sc s1) as (texts & Hrun & _).
    rewrite Hrun. cbn [bind]. eexists _, s1.
    split; [reflexivity|]. split; [|repeat split].
    now rewrite <- (render_shown sc s' s1) by (now rewrite Hshown).
Qed.

Lemma display_follows_worker_witness :
  updateRequired (ui midTransferState) = true
  /\ exists calls s'',
       displayTaskRound (mkScreen 480 800 (lit "10.0.0.2")) midTransferState
       = Ok (s'', Some calls)
       /\ In (DrawProgressBar 50 405 380 20 3 5) calls
       /\ displayTaskRound (mkScreen 480 800 (lit "10.0.0.2")) s'' = Ok (s'', None).
Proof.
  assert (Hround : networkTaskRound plainPlatform
                     (arrival (sendBook5 ++ lit "abc") goodCard) waitingState
                   = Ok midTransferState) by (vm_compute; reflexivity).
  destruct (display_follows_worker plainPlatform
              (mkScreen 480 800 (lit "10.0.0.2")) _ _ _ Hround) as [_ Hdraw].
  assert (Hup : updateRequired (ui midTransferState) = true) by reflexivity.
  split; [exact Hup|].
  destruct (Hdraw Hup) as (calls & s'' & Hrun & Hrender & _ & _ & Hidle).
  exists calls, s''. split; [exact Hrun|]. split; [|exact Hidle].
  assert (Hcalls : render (mkScreen 480 800 (lit "10.0.0.2")) midTransferState
                   = Ok [ClearScreen;
        DrawCenteredText UI_12_FONT_ID 30 (lit "Calibre Wireless") true;
        DrawCenteredText UI_10_FONT_ID 60 (lit "IP: 10.0.0.2") false;
        DrawCenteredText UI_10_FONT_ID 360 (lit "Receiving: b.epub") false;
        DrawProgressBar 50 405 380 20 3 5;
        DrawButtonHints UI_10_FONT_ID;
        DisplayBuffer]) by (vm_compute; reflexivity).
  rewrite Hcalls in Hrender. injection Hrender as <-. simpl. tauto.
Defined.

(** ** Glyphs *)

Lemma land_3 (v : Z) : Z.land v 3 = v mod 4.
Proof. change 3 with (Z.ones 2). now rewrite Z.land_ones by lia. Qed.

(** The subtraction before the mask gives the value asked for. *)
Lemma bmpVal_eq (byte k : Z) :
  0 <= byte -> 0 <= k ->
  to_uint8 (Z.land (3 - Z.shiftr byte k) 3) = 3 - Z.land (Z.shiftr byte k) 3.
Proof.
  intros Hb Hk.
  assert (Hv : 0 <= Z.shiftr byte k) by (apply Z.shiftr_nonneg; exact Hb).
  rewrite !land_3.
  set (v := Z.shiftr byte k) in *.
  pose proof (Z.mod_pos_bound v 4 ltac:(lia)) as Hm.
  assert (Hsub : (3 - v) mod 4 = 3 - v mod 4).
  { symmetry. apply (Z.mod_unique _ _ (- (v / 4))); [lia|].
    pose proof (Z.div_mod v 4 ltac:(lia)). lia. }
  rewrite Hsub. unfold to_uint8. apply Z.mod_small. lia.
Qed.

Lemma renderGlyphPixel_painted (p : Panel) (renderMode : RenderMode)
    (is2Bit : bool) (bitmap : list Z) (pp sx sy : Z) (pixelState : bool)
    (fb : list Z) :
  panel_ok p -> buffer_ok p fb -> Forall is_byte bitmap ->
  0 <= pp < (if is2Bit then 4 else 8) * Z.of_nat (length bitmap) ->
  painted p (fun px py => inked renderMode is2Bit (fontValue is2Bit bitmap pp)
                          && ((px =? sx) && (py =? sy)))
          (inkColour renderMode is2Bit pixelState)
          (Buffer fb)
          (renderGlyphPixel p renderMode is2Bit bitmap pp sx sy pixelState
                            (Buffer fb)).
Proof.
  intros Hp Hok Hbytes Hpp.
  assert (Hnone : forall st,
             painted p (fun px py => false && ((px =? sx) && (py =? sy))) st
                     (Buffer fb) (Buffer fb))
    by (intros; apply painted_refl; auto).
  assert (Hdraw : forall st,
             painted p (fun px py => true && ((px =? sx) && (py =? sy))) st
                     (Buffer fb) (drawPixel p sx sy st (Buffer fb)))
    by (intros; now apply drawPixel_painted).
  unfold renderGlyphPixel, fontValue, inked, inkColour.
  destruct is2Bit.
  - rewrite Z.quot_div_nonneg, Z.rem_mod_nonneg by lia.
    pose proof (Z.mod_pos_bound pp 4 ltac:(lia)) as Hm.
    assert (Hi : (Z.to_nat (pp / 4) < length bitmap)%nat).
    { assert (pp / 4 < Z.of_nat (length bitmap))
        by (apply Z.div_lt_upper_bound; lia).
      pose proof (Z.div_pos pp 4 ltac:(lia) ltac:(lia)). lia. }
    destruct (nth_error bitmap (Z.to_nat (pp / 4))) as [byte|] eqn:Hnth.
    2:{ apply nth_error_None in Hnth. lia. }
    rewrite (nth_error_nth _ _ 0 Hnth). cbv zeta.
    assert (Hbyte : is_byte byte).
    { rewrite Forall_forall in Hbytes. apply Hbytes.
      eapply nth_error_In, Hnth. }
    assert (Hbit : to_uint8 ((3 - pp mod 4) * 2) = 2 * (3 - pp mod 4)).
    { unfold to_uint8. rewrite Z.mod_small; lia. }
    rewrite Hbit, bmpVal_eq by (unfold is_byte in Hbyte; lia).
    set (v := Z.land (Z.shiftr byte (2 * (3 - pp mod 4))) 3).
    assert (Hv : 0 <= v <= 3).
    { unfold v. rewrite land_3.
      pose proof (Z.mod_pos_bound (Z.shiftr byte (2 * (3 - pp mod 4))) 4
                    ltac:(lia)). lia. }
    destruct renderMode.
    + destruct (Z.ltb_spec (3 - v) 3), (Z.eqb_spec v 0); try lia; cbn [negb]; auto.
    + destruct (Z.eqb_spec (3 - v) 1), (Z.eqb_spec v 2); try lia; auto.
    + destruct (Z.eqb_spec (3 - v) 1), (Z.eqb_spec (3 - v) 2),
               (Z.eqb_spec v 1), (Z.eqb_spec v 2); try lia; cbn [orb]; auto.
  - rewrite Z.quot_div_nonneg, Z.rem_mod_nonneg by lia.
    pose proof (Z.mod_pos_bound pp 8 ltac:(lia)) as Hm.
    assert (Hi : (Z.to_nat (pp / 8) < length bitmap)%nat).
    { assert (pp / 8 < Z.of_nat (length bitmap))
        by (apply Z.div_lt_upper_bound; lia).
      pose proof (Z.div_pos pp 8 ltac:(lia) ltac:(lia)). lia. }
    destruct (nth_error bitmap (Z.to_nat (pp / 8))) as [byte|] eqn:Hnth.
    2:{ apply nth_error_None in Hnth. lia. }
    rewrite (nth_error_nth _ _ 0 Hnth). cbv zeta.
    assert (Hbit : to_uint8 (7 - pp mod 8) = 7 - pp mod 8).
    { unfold to_uint8. rewrite Z.mod_small; lia. }
    rewrite Hbit.
    destruct (Z.land (Z.shiftr byte (7 - pp mod 8)) 1 =? 0); cbn [negb]; auto.
Qed.

(** A loop whose rounds, each in its range, paint the regions [r i] paints
    their union. *)
Lemma forLoop_painted_in (p : Panel) (state : bool) (body : Z -> Mem -> Mem)
                         (r : Z -> Z -> Z -> bool) :
  forall (count : nat) (start : Z) (fb : list Z),
    (forall i fb', start <= i < start + Z.of_nat count -> buffer_ok p fb' ->
                   painted p (r i) state (Buffer fb') (body i (Buffer fb'))) ->
    buffer_ok p fb ->
    painted p (fun x y =>
                 existsb (fun k => r (start + Z.of_nat k) x y) (seq 0 count))
            state (Buffer fb) (forLoop count start body (Buffer fb)).
Proof.
  induction count as [|count IH]; intros start fb Hbody Hok.
  - cbn. apply painted_refl; auto.
  - cbn [forLoop].
    pose proof (Hbody start fb ltac:(lia) Hok) as Hfirst.
    destruct Hfirst as (fb0 & fb1 & Heq & Hrun & Hok1 & Hpix).
    injection Heq as <-. rewrite Hrun.
    eapply painted_trans.
    + exists fb, fb1. repeat split; try apply Hok1. exact Hpix.
    + apply (IH (start + 1) fb1); [|exact Hok1].
      intros i fb' Hi. apply Hbody. lia.
    + intros x y _. cbn [seq existsb].
      replace (start + Z.of_nat 0) with start by lia.
      rewrite existsb_seq_shift.
      apply (f_equal (orb (r start x y))). generalize (seq 0 count). intros l.
      induction l as [|k l IHl]; [reflexivity|].
      cbn [existsb]. rewrite IHl. do 2 f_equal. lia.
Qed.

Lemma glyph_rows_painted (p : Panel) (renderMode : RenderMode) (is2Bit : bool)
    (glyph : EpdGlyph.t) (x y : Z) (pixelState : bool) (fb : list Z) :
  panel_ok p -> buffer_ok p fb -> glyph_ok is2Bit glyph ->
  painted p (glyphRegion renderMode is2Bit glyph x y)
          (inkColour renderMode is2Bit pixelState)
          (Buffer fb)
          (forLoop (Z.to_nat (EpdGlyph.height glyph)) 0
             (fun glyphY =>
                forLoop (Z.to_nat (EpdGlyph.width glyph)) 0
                  (fun glyphX =>
                     renderGlyphPixel p renderMode is2Bit (EpdGlyph.bitmap glyph)
                       (glyphY * EpdGlyph.width glyph + glyphX)
                       (x + EpdGlyph.left glyph + glyphX)
                       (y - EpdGlyph.top glyph + glyphY) pixelState))
             (Buffer fb)).
Proof.
  intros Hp Hok Hglyph. destruct Hglyph as (Hw & Hh & Hbytes & Hsize).
  set (w := EpdGlyph.width glyph) in *. set (h := EpdGlyph.height glyph) in *.
  set (ink := fun pp => inked renderMode is2Bit
                          (fontValue is2Bit (EpdGlyph.bitmap glyph) pp)).
  set (point := fun gy gx px py =>
                  ink (gy * w + gx)
                  && ((px =? x + EpdGlyph.left glyph + gx)
                      && (py =? y - EpdGlyph.top glyph + gy))).
  set (row := fun gy px py =>
                existsb (fun k => point gy (0 + Z.of_nat k) px py)
                        (seq 0 (Z.to_nat w))).
  eapply painted_ext.
  - apply (forLoop_painted_in p _ _ row); [|exact Hok].
    intros gy fb' Hgy Hok'.
    apply (forLoop_painted_in p _ _ (point gy)); [|exact Hok'].
    intros gx fb'' Hgx Hok''.
    apply renderGlyphPixel_painted; auto.
    assert (gy * w + gx < w * h) by nia. nia.
  - intros px py _. apply bool_eq_iff.
    pose proof (existsb_range (fun gy => row gy px py) 0 (Z.to_nat h)) as Hrows.
    cbv beta in Hrows. rewrite Hrows. clear Hrows.
    unfold glyphRegion, between. fold w h. fold (ink ((py - (y - EpdGlyph.top glyph)) * w
                                  + (px - (x + EpdGlyph.left glyph)))).
    rewrite !andb_true_iff, !Z.leb_le. split.
    + intros ((Hx & Hy) & Hink).
      exists (py - (y - EpdGlyph.top glyph)). split; [lia|].
      unfold row.
      pose proof (existsb_range
                    (fun gx => point (py - (y - EpdGlyph.top glyph)) gx px py)
                    0 (Z.to_nat w)) as Hcols.
      cbv beta in Hcols. rewrite Hcols.
      exists (px - (x + EpdGlyph.left glyph)). split; [lia|].
      unfold point. rewrite Hink. cbn [andb].
      rewrite andb_true_iff, !Z.eqb_eq. lia.
    + intros (gy & Hgy & Hrow). unfold row in Hrow.
      pose proof (existsb_range (fun gx => point gy gx px py) 0 (Z.to_nat w))
        as Hcols.
      cbv beta in Hcols. rewrite Hcols in Hrow.
      destruct Hrow as (gx & Hgx & Hpt). unfold point in Hpt.
      rewrite !andb_true_iff, !Z.eqb_eq in Hpt.
      destruct Hpt as (Hink & Hpx & Hpy).
      replace (py - (y - EpdGlyph.top glyph)) with gy by lia.
      replace (px - (x + EpdGlyph.left glyph)) with gx by lia.
      split; [lia|exact Hink].
Qed.

(** X27: [renderChar] draws the glyph of the code point, or that of the
    question mark when the font has none for it: with a buffer and a glyph
    whose bitmap holds all its points, the points of the screen that
    change are those of the glyph, placed [left] to the right of [x] and
    [top] above [y], whose value in the font is drawn in the render mode
    (any but white in black and white, the two grays for the upper plane,
    dark gray alone for the lower plane, a set bit in a font of one bit a
    point); they take the colour asked for, in the gray planes a set bit;
    and [x] moves on by [advanceX].  With no glyph for either code point
    nothing is drawn and [x] stays. *)
Theorem renderChar_draws_glyph
    (p : Panel) (renderMode : RenderMode) (getGlyph : Z -> option EpdGlyph.t)
    (is2Bit : bool) (cp x y : Z) (pixelState : bool) (frameBuffer : list Z) :
  panel_ok p -> buffer_ok p frameBuffer ->
  let run := renderChar p renderMode getGlyph is2Bit cp x y pixelState
                        (Buffer frameBuffer) in
  (forall glyph,
      getGlyph cp = Some glyph
      \/ (getGlyph cp = None /\ getGlyph 63 = Some glyph) ->
      glyph_ok is2Bit glyph ->
      painted p (glyphRegion renderMode is2Bit glyph x y)
              (inkColour renderMode is2Bit pixelState)
              (Buffer frameBuffer) (fst run)
      /\ snd run = x + EpdGlyph.advanceX glyph)
  /\ (getGlyph cp = None -> getGlyph 63 = None ->
      run = (Buffer frameBuffer, x)).
Proof.
  intros Hp Hok run. subst run. split.
  - intros glyph Hfound Hglyph. unfold renderChar.
    assert (Hsel : match getGlyph cp with
                   | Some g => Some g
                   | None => getGlyph 63
                   end = Some glyph).
    { destruct Hfound as [-> | [-> ->]]; reflexivity. }
    rewrite Hsel. cbv zeta. cbn [fst snd]. split; [|reflexivity].
    now apply glyph_rows_painted.
  - intros Hcp Hq. unfold renderChar. now rewrite Hcp, Hq.
Qed.

Lemma sampleGlyph_ok : glyph_ok true sampleGlyph.
Proof.
  unfold glyph_ok, sampleGlyph, is_byte. cbn.
  repeat split; try lia. repeat constructor; lia.
Qed.

Lemma renderChar_draws_glyph_witness :
  (painted smallPanel (glyphRegion GRAYSCALE_MSB true sampleGlyph 0 2) false
           (Buffer whiteBuffer)
           (fst (renderChar smallPanel GRAYSCALE_MSB sampleFont true 65 0 2 true
                            (Buffer whiteBuffer)))
   /\ snd (renderChar smallPanel GRAYSCALE_MSB sampleFont true 65 0 2 true
                      (Buffer whiteBuffer)) = 4)
  /\ renderChar smallPanel BW (fun _ => None) true 65 0 2 true (Buffer whiteBuffer)
     = (Buffer whiteBuffer, 0).
Proof.
  split.
  - exact (proj1 (renderChar_draws_glyph smallPanel GRAYSCALE_MSB sampleFont true
                    65 0 2 true whiteBuffer smallPanel_ok whiteBuffer_ok)
                 sampleGlyph (or_intror (conj eq_refl eq_refl)) sampleGlyph_ok).
  - exact (proj2 (renderChar_draws_glyph smallPanel BW (fun _ => None) true
                    65 0 2 true whiteBuffer smallPanel_ok whiteBuffer_ok)
                 eq_refl eq_refl).
Defined.
